(** * OpenConstructionEstimate: the tabular data engine, verified

    A shallow embedding of the query pipeline ([queryWorkItems]), the
    natural-language filter parser ([parseNaturalLanguageQuery]), the row
    mapper ([mapToConstructionItem]), the table store ([toggleColumn],
    [partialize]) and the virtualization padding of [DataTable], followed by
    the properties the specification states about them.

    JavaScript strings are sequences of UTF-16 code units, numbers are the
    finite doubles (as rationals) plus NaN, arrays are lists. *)

From Stdlib Require Import List Bool Arith ZArith NArith QArith Lia.
From Stdlib Require Import Ascii String Permutation Sorted Lqa.
Import ListNotations.

Set Implicit Arguments.
Close Scope Q_scope.
Open Scope list_scope.

(* ====================================================================== *)
(** * The JavaScript values the code manipulates *)
(* ====================================================================== *)

Module JS.

(** A string is its sequence of UTF-16 code units; [length] is the
    [.length] of the source. *)
Definition jsstring : Type := list N.

(** An ASCII literal of the source as code units. *)
Definition u (s : string) : jsstring :=
  map N_of_ascii (list_ascii_of_string s).

Definition str_eqb (a b : jsstring) : bool :=
  if list_eq_dec N.eq_dec a b then true else false.

(** A number is a finite double, carried by the rational it denotes, or
    NaN.  Comparisons of finite doubles are the comparisons of these
    rationals; a product or difference is the rational one (the double is
    its rounding, which has the same sign).  The infinities are left out:
    the dataset holds prices and quantities. *)
Inductive number : Type :=
| Fin (q : Q)
| NaN.

Definition isNaN (n : number) : bool :=
  match n with NaN => true | Fin _ => false end.

(** [a >= b], [a <= b], [a === b] on numbers: false as soon as a side is NaN. *)
Definition num_ge (a b : number) : bool :=
  match a, b with Fin x, Fin y => Qle_bool y x | _, _ => false end.

Definition num_le (a b : number) : bool :=
  match a, b with Fin x, Fin y => Qle_bool x y | _, _ => false end.

Definition num_eqb (a b : number) : bool :=
  match a, b with Fin x, Fin y => Qeq_bool x y | _, _ => false end.

Definition num_sub (a b : number) : number :=
  match a, b with Fin x, Fin y => Fin (x - y)%Q | _, _ => NaN end.

Definition num_mul (a b : number) : number :=
  match a, b with Fin x, Fin y => Fin (x * y)%Q | _, _ => NaN end.

Definition num_of_Z (z : Z) : number := Fin (inject_Z z).

(** Sign of a comparator result as [Array.prototype.sort] reads it:
    negative, positive, or neither (zero and NaN alike). *)
Definition is_negative (n : number) : bool :=
  match n with Fin q => negb (Qle_bool 0%Q q) | NaN => false end.

Definition is_positive (n : number) : bool :=
  match n with Fin q => negb (Qle_bool q 0%Q) | NaN => false end.

(** A cell of a row ([unknown] in the source): the values a columnar file
    yields for the columns the pipeline reads. *)
Inductive value : Type :=
| VNull
| VUndefined
| VNum (n : number)
| VStr (s : jsstring).

(** What the host supplies and the repository does not define: number
    formatting and parsing ([String(n)], [Number(s)]), the collation of
    [localeCompare], and the clock read by [Date.now()] (indexed by the
    serial number of the read). *)
Class Runtime : Type := {
  numberToString : number -> jsstring;
  stringToNumber : jsstring -> number;
  localeCompare : jsstring -> jsstring -> Z;
  Date_now : N -> N
}.

Local Open Scope N_scope.

(** [\s] of regular expressions and the characters [trim] strips. *)
Definition is_space (c : N) : bool :=
  existsb (N.eqb c)
    [9; 10; 11; 12; 13; 32; 160; 5760; 8232; 8233; 8239; 8287; 12288; 65279]%N
  || (N.leb 8192 c && N.leb c 8202).

Definition is_digit (c : N) : bool := N.leb 48 c && N.leb c 57.

Fixpoint dropWhile (A : Type) (p : A -> bool) (l : list A) : list A :=
  match l with
  | [] => []
  | x :: l' => if p x then dropWhile p l' else l
  end.

Definition trim (s : jsstring) : jsstring :=
  rev (dropWhile is_space (rev (dropWhile is_space s))).

(** [toLowerCase], exact on the code units whose lower case can meet an
    ASCII letter: A-Z, U+0130 (to i followed by U+0307) and the Kelvin sign
    U+212A (to k).  Every other code unit is left as it is; the Unicode
    tables send those to code units outside ASCII. *)
Definition lower_unit (c : N) : jsstring :=
  if N.leb 65 c && N.leb c 90 then [c + 32]
  else if N.eqb c 304 then [105; 775]
  else if N.eqb c 8490 then [107]
  else [c].

Definition toLowerCase (s : jsstring) : jsstring := flat_map lower_unit s.

Fixpoint startsWith (s pat : jsstring) : bool :=
  match pat, s with
  | [], _ => true
  | p :: pat', c :: s' => N.eqb p c && startsWith s' pat'
  | _ :: _, [] => false
  end.

(** [s.includes(pat)] *)
Fixpoint includes (s pat : jsstring) : bool :=
  startsWith s pat
  || match s with
     | [] => false
     | _ :: s' => includes s' pat
     end.

(** [s.replace(a, b)] with one-character strings: the first occurrence only. *)
Fixpoint replaceFirst (a b : N) (s : jsstring) : jsstring :=
  match s with
  | [] => []
  | c :: s' => if N.eqb c a then b :: s' else c :: replaceFirst a b s'
  end.

Fixpoint span_digits (s : jsstring) : list N * jsstring :=
  match s with
  | [] => ([], [])
  | c :: s' =>
      if is_digit c
      then let (ds, rest) := span_digits s' in (c :: ds, rest)
      else ([], s)
  end.

Definition digits_value (ds : list N) : N :=
  fold_left (fun acc d => 10 * acc + (d - 48))%N ds 0%N.

Fixpoint pow10 (n : nat) : positive :=
  match n with
  | O => 1%positive
  | S n' => (10 * pow10 n')%positive
  end.

(** [parseFloat] on the strings the parser hands it: decimal digits with an
    optional fraction after a dot (no sign, no exponent, no leading space).
    The value is the decimal as written, in lowest terms; the double is its
    rounding, and is exact on the whole numbers below 2^53. *)
Definition parseFloat (s : jsstring) : number :=
  let (ip, r1) := span_digits s in
  match r1 with
  | 46%N :: r2 =>
      let (fp, _) := span_digits r2 in
      match ip, fp with
      | [], [] => NaN
      | _, _ =>
          Fin (Qred (Z.of_N (digits_value (ip ++ fp)) # pow10 (List.length fp))%Q)
      end
  | _ =>
      match ip with
      | [] => NaN
      | _ => Fin (Z.of_N (digits_value ip) # 1)%Q
      end
  end.

End JS.

(* ====================================================================== *)
(** * Regular expressions, as the source uses them *)
(* ====================================================================== *)

Module Regex.
Import JS.
Local Open Scope N_scope.

(** The fragment of regular expressions the source writes: literals,
    classes, sequence, ordered alternation, greedy [?] and [*], and
    capturing groups (none of the patterns nests them, so a group's number
    is the order in which it closes). *)
Inductive regex : Type :=
| Eps
| Chr (c : N)
| Cls (p : N -> bool)
| Seq (r1 r2 : regex)
| Alt (r1 r2 : regex)
| Opt (r : regex)
| Star (r : regex)
| Grp (r : regex).

Definition Plus (r : regex) : regex := Seq r (Star r).

Fixpoint lit_units (l : jsstring) : regex :=
  match l with
  | [] => Eps
  | [c] => Chr c
  | c :: l' => Seq (Chr c) (lit_units l')
  end.

(** A literal run of ASCII characters. *)
Definition lit (s : string) : regex := lit_units (u s).

(** [r1|r2|...|rn], tried from left to right. *)
Fixpoint alts (rs : list regex) : regex :=
  match rs with
  | [] => Cls (fun _ => false)
  | [r] => r
  | r :: rs' => Alt r (alts rs')
  end.

(** Canonicalization under the [i] flag (no [u] flag): a-z go to A-Z and a
    code unit outside ASCII never meets an ASCII one.  The symbols the
    patterns use outside ASCII have no case. *)
Definition canonicalize (icase : bool) (c : N) : N :=
  if icase && N.leb 97 c && N.leb c 122 then c - 32 else c.

Definition chr_eqb (icase : bool) (c x : N) : bool :=
  N.eqb (canonicalize icase c) (canonicalize icase x).

Section Matcher.
Variable icase : bool.
Variable A : Type.

(** What is left of the input, and the groups closed so far. *)
Definition cont : Type := jsstring -> list jsstring -> option A.

(** The backtracking matcher: [mt r s caps k] matches [r] at the head of
    [s] and hands the rest to [k]; when [k] fails the next way of matching
    [r] is tried, in the order of the source engine (left alternative
    first, longest repetition first). *)
Fixpoint mt (r : regex) : jsstring -> list jsstring -> cont -> option A :=
  match r with
  | Eps => fun s caps k => k s caps
  | Chr c => fun s caps k =>
      match s with
      | x :: s' => if chr_eqb icase c x then k s' caps else None
      | [] => None
      end
  | Cls p => fun s caps k =>
      match s with
      | x :: s' => if p x then k s' caps else None
      | [] => None
      end
  | Seq r1 r2 => fun s caps k =>
      mt r1 s caps (fun s' caps' => mt r2 s' caps' k)
  | Alt r1 r2 => fun s caps k =>
      match mt r1 s caps k with
      | Some a => Some a
      | None => mt r2 s caps k
      end
  | Opt r1 => fun s caps k =>
      match mt r1 s caps k with
      | Some a => Some a
      | None => k s caps
      end
  | Star r1 => fun s caps k =>
      (fix loop (n : nat) (s : jsstring) (caps : list jsstring)
           {struct n} : option A :=
         match n with
         | O => k s caps
         | S n' =>
             match mt r1 s caps
                     (fun s' caps' =>
                        if Nat.ltb (List.length s') (List.length s)
                        then loop n' s' caps'
                        else None)
             with
             | Some a => Some a
             | None => k s caps
             end
         end) (List.length s) s caps
  | Grp r1 => fun s caps k =>
      mt r1 s caps
         (fun s' caps' =>
            k s' (caps' ++ [firstn (List.length s - List.length s') s]))
  end.
End Matcher.

(** A continuation that accepts whatever is left. *)
Definition always (A : Type) (k : cont A) : Prop :=
  forall s caps, k s caps <> None.

(** A match at the head of [s]: the rest of the input and the groups. *)
Definition exec_at (icase : bool) (r : regex) (s : jsstring)
  : option (jsstring * list jsstring) :=
  mt icase r s [] (fun s' caps => Some (s', caps)).

(** Number of code units a match at the head of [s] takes. *)
Definition match_length (icase : bool) (r : regex) (s : jsstring)
  : option nat :=
  match exec_at icase r s with
  | Some (rest, _) => Some (List.length s - List.length rest)%nat
  | None => None
  end.

(** [s.match(r)] without the [g] flag: the leftmost match, as the matched
    text followed by the groups. *)
Fixpoint exec (icase : bool) (r : regex) (s : jsstring)
  : option (list jsstring) :=
  match exec_at icase r s with
  | Some (rest, caps) =>
      Some (firstn (List.length s - List.length rest) s :: caps)
  | None =>
      match s with
      | [] => None
      | _ :: s' => exec icase r s'
      end
  end.

(** [r.test(s)] *)
Definition test (icase : bool) (r : regex) (s : jsstring) : bool :=
  match exec icase r s with Some _ => true | None => false end.

(** [s.replace(r, '')] with the [g] flag.  [skip] counts the code units of
    the current match still to drop.  The patterns of the source never match
    the empty string; such a match is passed over. *)
Fixpoint remove_all (icase : bool) (r : regex) (skip : nat) (s : jsstring)
  : jsstring :=
  match s with
  | [] => []
  | c :: s' =>
      match skip with
      | S n => remove_all icase r n s'
      | O =>
          match match_length icase r s with
          | Some (S n) => remove_all icase r n s'
          | _ => c :: remove_all icase r 0 s'
          end
      end
  end.

(** [s.split(r)] for a pattern without groups: [cur] is the piece being
    read, in reverse. *)
Fixpoint split_go (icase : bool) (r : regex) (skip : nat) (cur : jsstring)
         (s : jsstring) : list jsstring :=
  match s with
  | [] => [rev cur]
  | c :: s' =>
      match skip with
      | S n => split_go icase r n cur s'
      | O =>
          match match_length icase r s with
          | Some (S n) => rev cur :: split_go icase r n [] s'
          | _ => split_go icase r 0 (c :: cur) s'
          end
      end
  end.

Definition split (icase : bool) (r : regex) (s : jsstring) : list jsstring :=
  split_go icase r 0 [] s.

End Regex.

(* ====================================================================== *)
(** * SmartFilter: the natural-language filter parser *)
(* ====================================================================== *)

Module SmartFilter.
Import JS Regex.
Local Open Scope N_scope.

(** ['eq' | 'neq' | 'gt' | 'gte' | 'lt' | 'lte' | 'contains' | 'between' | 'in'] *)
Inductive FilterOperator : Type :=
| Op_eq | Op_neq | Op_gt | Op_gte | Op_lt | Op_lte
| Op_contains | Op_between | Op_in.

(** ['EUR' | 'USD' | 'sqm' | 'sqft' | 'kg' | 'ton' | 'unit' | 'none'] *)
Inductive FilterUnit : Type :=
| U_EUR | U_USD | U_sqm | U_sqft | U_kg | U_ton | U_unit | U_none.

(** [string | number | [number, number]] *)
Inductive FilterValue : Type :=
| ValString (s : jsstring)
| ValNumber (n : number)
| ValRange (lo hi : number).

Record ParsedFilter : Type := {
  id : jsstring;
  field : jsstring;
  operator : FilterOperator;
  value : FilterValue;
  unit : FilterUnit;
  rawInput : jsstring;
  displayLabel : jsstring
}.

Record ParseResult : Type := {
  success : bool;
  filters : list ParsedFilter;
  unrecognized : list jsstring
}.

Definition fieldAliases : list (jsstring * list jsstring) :=
  [ (u "cost", map u ["cost"; "costo"; "price"; "precio"; "amount"; "monto";
                      "value"; "valor"]%string);
    (u "material", map u ["material"; "materiales"; "materials"; "item";
                          "items"; "producto"]%string);
    (u "area", map u ["area"; "superficie"; "surface"; "size"; "tamano";
                      "m2"; "sqm"]%string);
    (u "quantity", map u ["quantity"; "cantidad"; "qty"; "units"; "unidades";
                          "count"]%string);
    (u "weight", map u ["weight"; "peso"; "kg"; "kilos"; "ton"; "tons";
                        "toneladas"]%string);
    (u "date", map u ["date"; "fecha"; "created"; "creado"; "updated";
                      "modified"]%string);
    (u "status", map u ["status"; "estado"; "state"]%string);
    (u "supplier", map u ["supplier"; "proveedor"; "vendor";
                          "provider"]%string);
    (u "category", map u ["category"; "categoria"; "type"; "tipo"]%string) ].

(** Code units of the symbols outside ASCII: U+2265, U+2264, U+2260,
    U+20AC, U+00B2. *)
Definition c_ge : N := 8805.
Definition c_le : N := 8804.
Definition c_ne : N := 8800.
Definition c_euro : N := 8364.
Definition c_sup2 : N := 178.

(** [x?] after a literal: the literal with its last character optional. *)
Definition opt_s (s : string) : regex := Seq (lit s) (Opt (lit "s")).

(** All of them carry the [i] flag. *)
Definition operatorPatterns : list (regex * FilterOperator) :=
  [ (alts [lit ">="; Chr c_ge; lit "mayor o igual";
           lit "greater than or equal"], Op_gte);
    (alts [lit "<="; Chr c_le; lit "menor o igual";
           lit "less than or equal"], Op_lte);
    (alts [lit "!="; lit "<>"; Chr c_ne; lit "no es"; lit "not equal";
           lit "diferente"], Op_neq);
    (alts [lit ">"; lit "mayor que"; lit "greater than"; lit "mas de";
           lit "more than"], Op_gt);
    (alts [lit "<"; lit "menor que"; lit "less than"; lit "menos de"], Op_lt);
    (alts [lit "="; lit "es"; lit "equals";
           Seq (lit "igual ") (Opt (lit "a"))], Op_eq);
    (alts [lit "entre"; lit "between"], Op_between);
    (alts [lit "contiene"; lit "contains"; lit "incluye"; lit "includes";
           lit "con "], Op_contains) ].

Definition unitPatterns : list (regex * FilterUnit) :=
  [ (alts [Chr c_euro; lit "eur"; opt_s "euro"], U_EUR);
    (alts [lit "$"; lit "usd"; opt_s "dollar"; opt_s "dolare"], U_USD);
    (alts [Seq (lit "m") (Chr c_sup2); lit "m2"; lit "sqm";
           Seq (opt_s "metro") (Seq (lit " ") (opt_s "cuadrado"));
           opt_s "square meter"], U_sqm);
    (alts [Seq (lit "ft") (Chr c_sup2); lit "sqft"; lit "square feet";
           Seq (opt_s "pie") (Seq (lit " ") (opt_s "cuadrado"))], U_sqft);
    (alts [lit "kg"; opt_s "kilo"; opt_s "kilogramo"], U_kg);
    (alts [lit "ton"; opt_s "ton"; opt_s "tonelada"], U_ton);
    (alts [lit "unidad"; lit "unidades"; lit "unit"; lit "units"; lit "pcs";
           opt_s "pieza"], U_unit) ].

Section WithRuntime.
Context {rt : Runtime}.

Definition num_of_N (n : N) : number := num_of_Z (Z.of_N n).

(** The module-level [filterIdCounter] is threaded: the new counter comes
    back with the id. *)
Definition generateFilterId (filterIdCounter : N) : jsstring * N :=
  let c := filterIdCounter + 1 in
  (u "filter-" ++ numberToString (num_of_N (Date_now c)) ++ u "-"
     ++ numberToString (num_of_N c), c).

Definition resolveField (input : jsstring) : option jsstring :=
  let normalizedInput := trim (toLowerCase input) in
  match
    find (fun entry => existsb (includes normalizedInput) (snd entry))
         fieldAliases
  with
  | Some entry => Some (fst entry)
  | None => None
  end.

Definition detectOperator (text : jsstring) : option FilterOperator :=
  match find (fun po => test true (fst po) text) operatorPatterns with
  | Some po => Some (snd po)
  | None => None
  end.

Definition detectUnit (text : jsstring) : FilterUnit :=
  match find (fun pu => test true (fst pu) text) unitPatterns with
  | Some pu => snd pu
  | None => U_none
  end.

(** [\d+(?:[.,]\d+)?] *)
Definition decimal_re : regex :=
  Seq (Plus (Cls is_digit))
      (Opt (Seq (Cls (fun c => N.eqb c 46 || N.eqb c 44))
                (Plus (Cls is_digit)))).

(** [/(\d+(?:[.,]\d+)?)\s*(?:-|to|a|y)\s*(\d+(?:[.,]\d+)?)/i] *)
Definition range_re : regex :=
  Seq (Grp decimal_re)
      (Seq (Star (Cls is_space))
           (Seq (alts [lit "-"; lit "to"; lit "a"; lit "y"])
                (Seq (Star (Cls is_space)) (Grp decimal_re)))).

(** [/(\d+(?:[.,]\d+)?)/] *)
Definition number_re : regex := Grp decimal_re.

(** [/[<>=!≥≤≠]/g] *)
Definition symbol_re : regex :=
  Cls (fun c => existsb (N.eqb c) [60; 62; 61; 33; c_ge; c_le; c_ne]).

(** The [gi] pattern of operator words removed from a text value. *)
Definition word_re : regex :=
  alts [lit "mayor"; lit "menor"; lit "igual"; lit "que"; lit "a";
        lit "de"; lit "o"; lit "es"; lit "no"; lit "entre"; lit "y";
        lit "contiene"; lit "con"; opt_s "include"; lit "greater";
        lit "less"; lit "than"; lit "equal"; lit "between"; lit "and";
        opt_s "contain"].

Definition decimal_of (group : jsstring) : number :=
  parseFloat (replaceFirst 44 46 group).

Definition rangeMatch (text : jsstring) : option (list jsstring) :=
  exec true range_re text.

Definition numberMatch (text : jsstring) : option (list jsstring) :=
  exec false number_re text.

Definition cleanedText (text : jsstring) : jsstring :=
  trim (remove_all true word_re 0 (remove_all false symbol_re 0 text)).

Definition extractValue (text : jsstring) : option FilterValue :=
  match rangeMatch text with
  | Some m =>
      Some (ValRange (decimal_of (nth 1 m [])) (decimal_of (nth 2 m [])))
  | None =>
      match numberMatch text with
      | Some m => Some (ValNumber (decimal_of (nth 1 m [])))
      | None =>
          let cleaned := cleanedText text in
          if Nat.ltb 0 (List.length cleaned)
          then Some (ValString cleaned)
          else None
      end
  end.

Definition operatorSymbols (op : FilterOperator) : jsstring :=
  match op with
  | Op_eq => u "="
  | Op_neq => u "!="
  | Op_gt => u ">"
  | Op_gte => u ">="
  | Op_lt => u "<"
  | Op_lte => u "<="
  | Op_contains | Op_between | Op_in => u ":"
  end.

(** [unitSymbols[unit] || unit] *)
Definition unitSymbol (un : FilterUnit) : jsstring :=
  match un with
  | U_EUR => [c_euro]
  | U_USD => u "$"
  | U_sqm => u "m" ++ [c_sup2]
  | U_sqft => u "ft" ++ [c_sup2]
  | U_kg => u "kg"
  | U_ton => u "ton"
  | U_unit => u "unit"
  | U_none => u "none"
  end.

Definition createDisplayLabel (fld : jsstring) (op : FilterOperator)
           (v : FilterValue) (un : FilterUnit) : jsstring :=
  let valueStr :=
    match v with
    | ValRange lo hi => numberToString lo ++ u "-" ++ numberToString hi
    | ValNumber n => numberToString n
    | ValString s => s
    end in
  let unitSuffix :=
    match un with
    | U_none => []
    | _ => u " " ++ unitSymbol un
    end in
  fld ++ u " " ++ operatorSymbols op ++ u " " ++ valueStr ++ unitSuffix.

(** [/[,;]|\s+y\s+|\s+and\s+/i] *)
Definition delimiter_re : regex :=
  alts [Cls (fun c => N.eqb c 44 || N.eqb c 59);
        Seq (Plus (Cls is_space)) (Seq (lit "y") (Plus (Cls is_space)));
        Seq (Plus (Cls is_space)) (Seq (lit "and") (Plus (Cls is_space)))].

(** [query.split(...).map(s => s.trim()).filter(Boolean)] *)
Definition segments (query : jsstring) : list jsstring :=
  filter (fun s => negb (str_eqb s []))
         (map trim (split true delimiter_re query)).

(** The state of the loop over the segments: the two arrays being filled
    and the id counter. *)
Record loop_state : Type := {
  ls_filters : list ParsedFilter;
  ls_unrecognized : list jsstring;
  ls_counter : N
}.

(** One turn of the [for] loop. *)
Definition parse_segment (st : loop_state) (segment : jsstring)
  : loop_state :=
  let fld := resolveField segment in
  let op := match detectOperator segment with
            | Some o => o
            | None => Op_contains
            end in
  let v := extractValue segment in
  let un := detectUnit segment in
  match fld, v with
  | Some f, Some val =>
      let (fid, c) := generateFilterId (ls_counter st) in
      {| ls_filters :=
           ls_filters st ++
             [ {| id := fid; field := f; operator := op; value := val;
                  unit := un; rawInput := segment;
                  displayLabel := createDisplayLabel f op val un |} ];
         ls_unrecognized := ls_unrecognized st;
         ls_counter := c |}
  | _, _ =>
      if Nat.ltb 2 (List.length segment)
      then {| ls_filters := ls_filters st;
              ls_unrecognized := ls_unrecognized st ++ [segment];
              ls_counter := ls_counter st |}
      else st
  end.

(** The [for] loop over the segments, from empty arrays. *)
Definition run_loop (segs : list jsstring) (filterIdCounter : N)
  : loop_state :=
  fold_left parse_segment segs
    {| ls_filters := []; ls_unrecognized := [];
       ls_counter := filterIdCounter |}.

Definition parseNaturalLanguageQuery (query : jsstring)
           (filterIdCounter : N) : ParseResult * N :=
  let st := run_loop (segments query) filterIdCounter in
  ({| success := Nat.ltb 0 (List.length (ls_filters st));
      filters := ls_filters st;
      unrecognized := ls_unrecognized st |},
   ls_counter st).

(** A segment becomes a filter when it names a field and carries a
    value. *)
Definition recognised (segment : jsstring) : bool :=
  match resolveField segment, extractValue segment with
  | Some _, Some _ => true
  | _, _ => false
  end.

End WithRuntime.

(** The filter a recognised segment gives, apart from its id. *)
Definition described_by (flt : ParsedFilter) : Prop :=
  resolveField (rawInput flt) = Some (field flt)
  /\ extractValue (rawInput flt) = Some (value flt)
  /\ operator flt = match detectOperator (rawInput flt) with
                    | Some o => o
                    | None => Op_contains
                    end
  /\ unit flt = detectUnit (rawInput flt).

End SmartFilter.

(* ====================================================================== *)
(** * The table store *)
(* ====================================================================== *)

Module TableStore.
Import JS.

(** [keyof ConstructionItem] *)
Inductive ColumnKey : Type :=
| Col_id | Col_descripcion | Col_costoUnitario | Col_cantidad | Col_unidad
| Col_subtotal | Col_imagenUrl | Col_categoria | Col_notas.

Definition ColumnKey_eq_dec (a b : ColumnKey) : {a = b} + {a <> b}.
Proof. decide equality. Defined.

Definition ColumnKey_eqb (a b : ColumnKey) : bool :=
  if ColumnKey_eq_dec a b then true else false.

Inductive ViewMode : Type := Table | Grid.

Inductive FilterOperator : Type :=
| F_equals | F_contains | F_startsWith | F_endsWith
| F_gt | F_gte | F_lt | F_lte | F_between.

Record FilterCondition : Type := {
  column : ColumnKey;
  operator : FilterOperator;
  value : jsstring + number;
  secondValue : option number
}.

Record TableFilters : Type := {
  globalSearch : jsstring;
  conditions : list FilterCondition
}.

(** An entry of the table library's [SortingState]. *)
Record ColumnSort : Type := { sort_id : jsstring; desc : bool }.

Definition SortingState : Type := list ColumnSort.
Definition VisibilityState : Type := list (jsstring * bool).

Record TableState : Type := {
  viewMode : ViewMode;
  filters : TableFilters;
  visibleColumns : list ColumnKey;
  sorting : SortingState;
  columnVisibility : VisibilityState;
  columnSizing : list (jsstring * number)
}.

Definition DEFAULT_VISIBLE_COLUMNS : list ColumnKey :=
  [Col_id; Col_descripcion; Col_costoUnitario; Col_cantidad; Col_unidad;
   Col_subtotal].

Definition DEFAULT_FILTERS : TableFilters :=
  {| globalSearch := []; conditions := [] |}.

Definition initialState : TableState :=
  {| viewMode := Table;
     filters := DEFAULT_FILTERS;
     visibleColumns := DEFAULT_VISIBLE_COLUMNS;
     sorting := [];
     columnVisibility := [];
     columnSizing := [] |}.

(** The actions; each one is the state after its [set]. *)

Definition setViewMode (mode : ViewMode) (s : TableState) : TableState :=
  {| viewMode := mode; filters := filters s;
     visibleColumns := visibleColumns s; sorting := sorting s;
     columnVisibility := columnVisibility s;
     columnSizing := columnSizing s |}.

Definition setFilters (f : TableFilters) (s : TableState) : TableState :=
  {| viewMode := viewMode s; filters := f;
     visibleColumns := visibleColumns s; sorting := sorting s;
     columnVisibility := columnVisibility s;
     columnSizing := columnSizing s |}.

Definition setGlobalSearch (search : jsstring) (s : TableState)
  : TableState :=
  setFilters {| globalSearch := search;
                conditions := conditions (filters s) |} s.

Definition addFilterCondition (c : FilterCondition) (s : TableState)
  : TableState :=
  setFilters {| globalSearch := globalSearch (filters s);
                conditions := conditions (filters s) ++ [c] |} s.

Fixpoint remove_at (A : Type) (index : nat) (l : list A) : list A :=
  match l, index with
  | [], _ => []
  | _ :: l', O => l'
  | x :: l', S i => x :: remove_at i l'
  end.

Definition removeFilterCondition (index : nat) (s : TableState)
  : TableState :=
  setFilters {| globalSearch := globalSearch (filters s);
                conditions := remove_at index (conditions (filters s)) |} s.

Definition clearFilters (s : TableState) : TableState :=
  setFilters DEFAULT_FILTERS s.

Definition setVisibleColumns (columns : list ColumnKey) (s : TableState)
  : TableState :=
  {| viewMode := viewMode s; filters := filters s;
     visibleColumns := columns; sorting := sorting s;
     columnVisibility := columnVisibility s;
     columnSizing := columnSizing s |}.

Definition toggleColumn (column : ColumnKey) (s : TableState) : TableState :=
  let visible := visibleColumns s in
  let isVisible := existsb (ColumnKey_eqb column) visible in
  if isVisible then
    if Nat.ltb 1 (List.length visible)
    then setVisibleColumns
           (filter (fun c => negb (ColumnKey_eqb c column)) visible) s
    else s
  else setVisibleColumns (visible ++ [column]) s.

Definition setSorting (so : SortingState) (s : TableState) : TableState :=
  {| viewMode := viewMode s; filters := filters s;
     visibleColumns := visibleColumns s; sorting := so;
     columnVisibility := columnVisibility s;
     columnSizing := columnSizing s |}.

Definition setColumnVisibility (v : VisibilityState) (s : TableState)
  : TableState :=
  {| viewMode := viewMode s; filters := filters s;
     visibleColumns := visibleColumns s; sorting := sorting s;
     columnVisibility := v; columnSizing := columnSizing s |}.

Definition setColumnSizing (sz : list (jsstring * number)) (s : TableState)
  : TableState :=
  {| viewMode := viewMode s; filters := filters s;
     visibleColumns := visibleColumns s; sorting := sorting s;
     columnVisibility := columnVisibility s; columnSizing := sz |}.

Definition reset (s : TableState) : TableState := initialState.

(** The columns left when [c] is hidden. *)
Definition others (c : ColumnKey) (l : list ColumnKey) : list ColumnKey :=
  filter (fun x => negb (ColumnKey_eqb x c)) l.


(** The value stored under a key of the persisted object. *)
Inductive StoredValue : Type :=
| St_viewMode (m : ViewMode)
| St_columns (l : list ColumnKey)
| St_sorting (so : SortingState)
| St_visibility (v : VisibilityState)
| St_sizing (sz : list (jsstring * number))
| St_filters (f : TableFilters).

(** The object written under ["oce-table-store"]: keys in the order of the
    object literal. *)
Definition StoredObject : Type := list (string * StoredValue).

Definition partialize (state : TableState) : StoredObject :=
  [ ("viewMode", St_viewMode (viewMode state));
    ("visibleColumns", St_columns (visibleColumns state));
    ("sorting", St_sorting (sorting state));
    ("columnVisibility", St_visibility (columnVisibility state));
    ("columnSizing", St_sizing (columnSizing state)) ]%string.

(** Modelled from the spec: the persistence middleware is not in the
    repository.  On a new session the store starts from [initialState] and
    the stored object is laid over it key by key (a shallow merge); a key
    that is not stored keeps its initial value. *)
Definition assign (s : TableState) (kv : string * StoredValue) : TableState :=
  match kv with
  | ("viewMode", St_viewMode m)%string => setViewMode m s
  | ("visibleColumns", St_columns l)%string => setVisibleColumns l s
  | ("sorting", St_sorting so)%string => setSorting so s
  | ("columnVisibility", St_visibility v)%string => setColumnVisibility v s
  | ("columnSizing", St_sizing sz)%string => setColumnSizing sz s
  | ("filters", St_filters f)%string => setFilters f s
  | _ => s
  end.

(** Modelled from the spec: what the persistence middleware (not in the
    repository) does with the stored object at start-up. *)
Definition rehydrate (stored : StoredObject) : TableState :=
  fold_left assign stored initialState.

End TableStore.

(* ====================================================================== *)
(** * The row mapper *)
(* ====================================================================== *)

Module Mapper.
Import JS.
Local Open Scope N_scope.

(** The columns of a dataset row that [mapToConstructionItem] reads.  [None]
    is a column that is null or absent; [??] and [||] treat the two alike. *)
Record DDCWorkItem : Type := {
  rate_code : option jsstring;
  rate_original_name : option jsstring;
  rate_unit : option jsstring;
  resource_name : option jsstring;
  resource_unit : option jsstring;
  category_type : option jsstring;
  department_name : option jsstring;
  resource_quantity : option number;
  resource_price_per_unit : option number;
  resource_cost : option number;
  price_est_median : option number;
  price_est_mean : option number
}.

Record ConstructionItem : Type := {
  id : jsstring;
  descripcion : jsstring;
  costoUnitario : number;
  cantidad : number;
  unidad : jsstring;
  subtotal : number;
  imagenUrl : option jsstring;
  categoria : option jsstring;
  notas : option jsstring
}.

(** [Omit<ConstructionItem, "subtotal">] *)
Record ConstructionItemInput : Type := {
  in_id : jsstring;
  in_descripcion : jsstring;
  in_costoUnitario : number;
  in_cantidad : number;
  in_unidad : jsstring;
  in_imagenUrl : option jsstring;
  in_categoria : option jsstring;
  in_notas : option jsstring
}.

(** [a ?? b] *)
Definition nullish (A : Type) (a : option A) (b : A) : A :=
  match a with Some x => x | None => b end.

(** [a || b] on strings: null, absent and the empty string give [b]. *)
Definition or_str (a : option jsstring) (b : option jsstring)
  : option jsstring :=
  match a with
  | Some (_ :: _) => a
  | _ => b
  end.

(** [s.padStart(n, '0')] *)
Definition padStart0 (n : nat) (s : jsstring) : jsstring :=
  repeat 48 (n - List.length s) ++ s.

Section WithRuntime.
Context {rt : Runtime}.

Definition mapToConstructionItem (row : DDCWorkItem) (index : N)
  : ConstructionItem :=
  let unitPrice :=
    nullish (resource_price_per_unit row)
      (nullish (price_est_median row)
         (nullish (price_est_mean row) (num_of_Z 0))) in
  let quantity := nullish (resource_quantity row) (num_of_Z 1) in
  let subtotal := nullish (resource_cost row) (num_mul unitPrice quantity) in
  {| id := nullish (or_str (rate_code row) None)
             (u "ITEM-" ++
                padStart0 5 (numberToString (num_of_Z (Z.of_N index))));
     descripcion :=
       nullish (or_str (rate_original_name row)
                  (or_str (resource_name row) None))
               (u "Unknown Item");
     costoUnitario := unitPrice;
     cantidad := quantity;
     unidad :=
       nullish (or_str (rate_unit row) (or_str (resource_unit row) None))
               (u "unit");
     subtotal := subtotal;
     imagenUrl := None;
     categoria := or_str (category_type row)
                    (or_str (department_name row) None);
     notas := None |}.

Definition mapBatchToConstructionItems (rows : list DDCWorkItem)
  : list ConstructionItem :=
  map (fun ir => mapToConstructionItem (snd ir) (N.of_nat (fst ir)))
      (combine (seq 0 (List.length rows)) rows).
End WithRuntime.

Definition createConstructionItem (input : ConstructionItemInput)
  : ConstructionItem :=
  {| id := in_id input;
     descripcion := in_descripcion input;
     costoUnitario := in_costoUnitario input;
     cantidad := in_cantidad input;
     unidad := in_unidad input;
     subtotal := num_mul (in_costoUnitario input) (in_cantidad input);
     imagenUrl := in_imagenUrl input;
     categoria := in_categoria input;
     notas := in_notas input |}.

End Mapper.

(* ====================================================================== *)
(** * The query pipeline of the dataset reader *)
(* ====================================================================== *)

Module ParquetReader.
Import JS.

(** [Record<string, unknown>]: the columns of a loaded row. *)
Definition Row : Type := list (string * value).

(** [row[key]]; an absent property is [undefined]. *)
Definition get (row : Row) (key : string) : value :=
  match find (fun kv => String.eqb (fst kv) key) row with
  | Some kv => snd kv
  | None => VUndefined
  end.

Record WorkItem : Type := {
  id : jsstring;
  rate_code : jsstring;
  rate_original_name : jsstring;
  rate_name_english : jsstring;
  rate_unit : jsstring;
  resource_price_per_unit : number;
  category_type : jsstring;
  subcategory : jsstring;
  resource_type : jsstring;
  resource_name : jsstring;
  resource_unit : jsstring;
  resource_quantity : number
}.

Inductive SortOrder : Type := Asc | Desc.

(** Every option may be left out ([None]). *)
Record QueryOptions : Type := {
  page : option Z;
  limit : option Z;
  search : option jsstring;
  category : option jsstring;
  sortBy : option string;
  sortOrder : option SortOrder;
  minPrice : option number;
  maxPrice : option number
}.

Record QueryResult : Type := {
  items : list WorkItem;
  total : nat;
  res_page : Z;
  totalPages : option Z;
  res_limit : Z
}.

Definition noOptions : QueryOptions :=
  {| page := None; limit := None; search := None; category := None;
     sortBy := None; sortOrder := None; minPrice := None; maxPrice := None |}.

Section Sort.
Variable A : Type.
Variable cmp : A -> A -> number.

(** Modelled from the spec: one step of the host's [Array.prototype.sort]
    (not in the repository).  An element passes a later one only when the
    comparator is positive on the pair; a result of zero or NaN keeps the
    order. *)
Fixpoint insert (x : A) (l : list A) : list A :=
  match l with
  | [] => [x]
  | y :: l' => if is_positive (cmp x y) then y :: insert x l' else x :: l
  end.

(** Modelled from the spec: the host's [Array.prototype.sort], which the
    pipeline requires to be a stable sort, as the insertion sort. *)
Definition sort (l : list A) : list A := fold_right insert [] l.
End Sort.

(** [l.slice(start, end)]: a negative bound counts from the end. *)
Definition slice (A : Type) (l : list A) (start stop : Z) : list A :=
  let len := Z.of_nat (List.length l) in
  let rel (k : Z) := if (k <? 0)%Z then Z.max (len + k) 0 else Z.min k len in
  let from := rel start in
  let to := rel stop in
  firstn (Z.to_nat (to - from)) (skipn (Z.to_nat from) l).


Section WithRuntime.
Context {rt : Runtime}.

Definition safeString (v : value) : jsstring :=
  match v with
  | VNull | VUndefined => []
  | VNum n => numberToString n
  | VStr s => s
  end.

Definition safeNumber (v : value) : number :=
  match v with
  | VNull | VUndefined => num_of_Z 0
  | VNum n => if isNaN n then num_of_Z 0 else n
  | VStr s =>
      let num := stringToNumber s in
      if isNaN num then num_of_Z 0 else num
  end.

(** The four filter callbacks. *)
Definition matchesSearch (searchLower : jsstring) (row : Row) : bool :=
  let rateName := toLowerCase (safeString (get row "rate_original_name")) in
  let rateCode := toLowerCase (safeString (get row "rate_code")) in
  let resourceName := toLowerCase (safeString (get row "resource_name")) in
  includes rateName searchLower
  || includes rateCode searchLower
  || includes resourceName searchLower.

Definition matchesCategory (cat : jsstring) (row : Row) : bool :=
  str_eqb (safeString (get row "category_type")) cat.

Definition matchesMinPrice (minP : number) (row : Row) : bool :=
  num_ge (safeNumber (get row "resource_price_per_unit")) minP.

Definition matchesMaxPrice (maxP : number) (row : Row) : bool :=
  num_le (safeNumber (get row "resource_price_per_unit")) maxP.

Definition validSortColumns : list string :=
  ["rate_code"; "rate_original_name"; "resource_price_per_unit";
   "category_type"]%string.

(** The comparator handed to [sort]. *)
Definition compareRows (safeSort : string) (order : SortOrder)
           (a b : Row) : number :=
  let aVal := get a safeSort in
  let bVal := get b safeSort in
  match aVal, bVal with
  | VNum x, VNum y =>
      match order with
      | Asc => num_sub x y
      | Desc => num_sub y x
      end
  | _, _ =>
      let aStr := safeString aVal in
      let bStr := safeString bVal in
      match order with
      | Asc => num_of_Z (localeCompare aStr bStr)
      | Desc => num_of_Z (localeCompare bStr aStr)
      end
  end.

(** The rows after the filters ([if (search)] and [if (category)] skip
    an empty string). *)
Definition applyFilters (options : QueryOptions) (rows : list Row)
  : list Row :=
  let r1 := match search options with
            | Some (c :: s) =>
                filter (matchesSearch (toLowerCase (c :: s))) rows
            | _ => rows
            end in
  let r2 := match category options with
            | Some (c :: s) => filter (matchesCategory (c :: s)) r1
            | _ => r1
            end in
  let r3 := match minPrice options with
            | Some m => filter (matchesMinPrice m) r2
            | None => r2
            end in
  match maxPrice options with
  | Some m => filter (matchesMaxPrice m) r3
  | None => r3
  end.

Definition safeSortOf (options : QueryOptions) : string :=
  match sortBy options with
  | Some c => if existsb (String.eqb c) validSortColumns then c
              else "rate_code"%string
  | None => "rate_code"%string
  end.

Definition sortOrderOf (options : QueryOptions) : SortOrder :=
  match sortOrder options with Some o => o | None => Asc end.

Definition sortRows (options : QueryOptions) (rows : list Row) : list Row :=
  sort (compareRows (safeSortOf options) (sortOrderOf options)) rows.

Definition toWorkItem (offset : Z) (index : nat) (row : Row) : WorkItem :=
  {| id := numberToString (num_of_Z (offset + Z.of_nat index + 1));
     rate_code := safeString (get row "rate_code");
     rate_original_name := safeString (get row "rate_original_name");
     rate_name_english := safeString (get row "rate_name_english");
     rate_unit := safeString (get row "rate_unit");
     resource_price_per_unit :=
       safeNumber (get row "resource_price_per_unit");
     category_type := safeString (get row "category_type");
     subcategory := safeString (get row "subcategory");
     resource_type := safeString (get row "resource_type");
     resource_name := safeString (get row "resource_name");
     resource_unit := safeString (get row "resource_unit");
     resource_quantity := safeNumber (get row "resource_quantity") |}.

(** [queryWorkItems] on the rows loaded for the region.  The result cache
    is left out: it returns what this function computed for the same
    options.  [totalPages] is [None] when the division is by zero. *)
Definition queryWorkItems (rows : list Row) (options : QueryOptions)
  : QueryResult :=
  let pg := match page options with Some p => p | None => 1%Z end in
  let lim := match limit options with Some l => l | None => 100%Z end in
  let filteredRows := applyFilters options rows in
  let total := List.length filteredRows in
  let sorted := sortRows options filteredRows in
  let offset := ((pg - 1) * lim)%Z in
  let paginatedRows := slice sorted offset (offset + lim) in
  {| items :=
       map (fun ir => toWorkItem offset (fst ir) (snd ir))
           (combine (seq 0 (List.length paginatedRows)) paginatedRows);
     total := total;
     res_page := pg;
     totalPages :=
       if (lim =? 0)%Z then None
       else Some (- ((- Z.of_nat total) / lim))%Z;
     res_limit := lim |}.
End WithRuntime.

End ParquetReader.

(* ====================================================================== *)
(** * Row virtualization of the data table *)
(* ====================================================================== *)

Module DataTable.
Local Open Scope Z_scope.

Definition DEFAULT_ROW_HEIGHT : Z := 48.
Definition DEFAULT_OVERSCAN : Z := 5.

(** An entry of [getVirtualItems()]; sizes and offsets are whole pixels. *)
Record VirtualItem : Type := {
  index : Z;
  start : Z;
  size : Z;
  end_ : Z
}.

(** The scroll container once it is mounted. *)
Record ScrollElement : Type := {
  clientHeight : Z;
  scrollTop : Z
}.

(** What [useVirtualizer] is given: the row count, the constant
    [estimateSize], the overscan, and [tableContainerRef.current], which is
    [null] ([None]) until the container is mounted. *)
Record VirtualizerOptions : Type := {
  count : Z;
  estimateSize : Z;
  overscan : Z;
  scrollElement : option ScrollElement
}.

(** The virtualizer is a library the repository calls; the definitions
    that follow, up to [getVirtualItems], stand for it. *)

(** Modelled from the spec: the virtualizer's measurement of row [i] (not
    in the repository).  The row starts at [i * rowHeight] and has the
    height [rowHeight]. *)
Definition measure (o : VirtualizerOptions) (i : Z) : VirtualItem :=
  {| index := i;
     start := i * estimateSize o;
     size := estimateSize o;
     end_ := i * estimateSize o + estimateSize o |}.

(** Modelled from the spec: the virtualizer's [getTotalSize] (not in the
    repository), the full scrollable height. *)
Definition getTotalSize (o : VirtualizerOptions) : Z :=
  count o * estimateSize o.

(** Modelled from the spec: the first visible index of the virtualizer (not
    in the repository), the last row whose start is not after the scroll
    offset. *)
Definition startIndexOf (o : VirtualizerOptions) (el : ScrollElement) : Z :=
  Z.max 0 (Z.min (count o - 1) (scrollTop el / estimateSize o)).

(** Modelled from the spec: the last visible index of the virtualizer (not
    in the repository); it is pushed down while the row ends above the
    bottom edge of the viewport. *)
Fixpoint endIndexOf (o : VirtualizerOptions) (el : ScrollElement)
         (fuel : nat) (endIndex : Z) : Z :=
  match fuel with
  | O => endIndex
  | S fuel' =>
      if (endIndex <? count o - 1)
         && (end_ (measure o endIndex) <? scrollTop el + clientHeight el)
      then endIndexOf o el fuel' (endIndex + 1)
      else endIndex
  end.

(** Modelled from the spec: the indices the virtualizer lists for a window
    (not in the repository), [first, first + 1, ..., last]. *)
Definition indexRange (first last : Z) : list Z :=
  map (fun k => first + Z.of_nat k) (seq 0 (Z.to_nat (last - first + 1))).

(** Modelled from the spec: the virtualizer's [getVirtualItems] (not in the
    repository).  The window holds every row that is at least partly in the
    viewport, extended by [overscan] rows on each side and clamped to
    [[0, count - 1]]; nothing is materialized while there is no measured
    viewport. *)
Definition getVirtualItems (o : VirtualizerOptions) : list VirtualItem :=
  match scrollElement o with
  | None => []
  | Some el =>
      if (count o <=? 0) || (clientHeight el <=? 0) then []
      else
        let startIndex := startIndexOf o el in
        let endIndex := endIndexOf o el (Z.to_nat (count o)) startIndex in
        let first := Z.max (startIndex - overscan o) 0 in
        let last := Z.min (endIndex + overscan o) (count o - 1) in
        map (measure o) (indexRange first last)
  end.

(** The padding computed by the component from the virtual rows. *)
Definition paddingTop (virtualRows : list VirtualItem) : Z :=
  if Nat.ltb 0 (List.length virtualRows)
  then match nth_error virtualRows 0 with
       | Some it => start it
       | None => 0
       end
  else 0.

Definition paddingBottom (virtualRows : list VirtualItem) (totalSize : Z)
  : Z :=
  if Nat.ltb 0 (List.length virtualRows)
  then totalSize
       - match nth_error virtualRows (List.length virtualRows - 1) with
         | Some it => end_ it
         | None => 0
         end
  else 0.

(** Total height of the rows that are rendered. *)
Definition renderedHeight (virtualRows : list VirtualItem) : Z :=
  fold_right (fun it acc => size it + acc) 0 virtualRows.

(** What one render of the table body lays out. *)
Record Layout : Type := {
  virtualRows : list VirtualItem;
  totalSize : Z;
  padTop : Z;
  padBottom : Z
}.

Definition render (o : VirtualizerOptions) : Layout :=
  let rows := getVirtualItems o in
  let total := getTotalSize o in
  {| virtualRows := rows;
     totalSize := total;
     padTop := paddingTop rows;
     padBottom := paddingBottom rows total |}.

End DataTable.

(* ====================================================================== *)
(** * A host to run examples on *)
(* ====================================================================== *)

Module Host.
Import JS.
Local Open Scope N_scope.

Fixpoint digits_of (fuel : nat) (n : N) (acc : jsstring) : jsstring :=
  match fuel with
  | O => acc
  | S fuel' =>
      let acc' := (48 + n mod 10) :: acc in
      if n <? 10 then acc' else digits_of fuel' (n / 10) acc'
  end.

Definition decimal (n : N) : jsstring := digits_of (S (N.to_nat (N.log2 n))) n [].

(** Whole numbers print as in JavaScript; the examples print no other. *)
Definition print_number (n : number) : jsstring :=
  match n with
  | NaN => u "NaN"
  | Fin q =>
      let z := (Qnum q / Zpos (Qden q))%Z in
      (if (z <? 0)%Z then u "-" else []) ++ decimal (Z.abs_N z)
  end.

(** Code units compared in order: the collation of plain ASCII words. *)
Fixpoint compare_units (a b : jsstring) : Z :=
  match a, b with
  | [], [] => 0%Z
  | [], _ :: _ => (-1)%Z
  | _ :: _, [] => 1%Z
  | x :: a', y :: b' =>
      if x <? y then (-1)%Z
      else if y <? x then 1%Z
      else compare_units a' b'
  end.

Definition host : Runtime :=
  {| numberToString := print_number;
     stringToNumber := parseFloat;
     localeCompare := compare_units;
     Date_now := fun _ => 0 |}.

End Host.

(* ====================================================================== *)
(** * The inputs of the scenarios *)
(* ====================================================================== *)

Module Scenarios.
Import JS SmartFilter ParquetReader.

(** The three rows [{id:"A", cost:50}], [{id:"B", cost:150}],
    [{id:"C", cost:null}]: the code of a row is its [rate_code], its cost
    its [resource_price_per_unit]. *)
Definition rowA : Row :=
  [("rate_code", VStr (u "A"));
   ("resource_price_per_unit", VNum (Fin 50))]%string.
Definition rowB : Row :=
  [("rate_code", VStr (u "B"));
   ("resource_price_per_unit", VNum (Fin 150))]%string.
Definition rowC : Row :=
  [("rate_code", VStr (u "C")); ("resource_price_per_unit", VNull)]%string.

Definition three_rows : list Row := [rowA; rowB; rowC].

(** The first render of a table of ten rows: the container is not mounted
    yet.  And the same table scrolled to 100 pixels in a viewport of 200. *)
Definition first_render : DataTable.VirtualizerOptions :=
  {| DataTable.count := 10; DataTable.estimateSize := 48;
     DataTable.overscan := 5; DataTable.scrollElement := None |}.
Definition scrolled : DataTable.VirtualizerOptions :=
  {| DataTable.count := 10; DataTable.estimateSize := 48;
     DataTable.overscan := 1;
     DataTable.scrollElement :=
       Some {| DataTable.clientHeight := 200; DataTable.scrollTop := 100 |} |}.

(** Four rows, two of them with the price 5, to be sorted by price. *)
Definition priced (code : string) (price : Q) : Row :=
  [("rate_code", VStr (u code));
   ("resource_price_per_unit", VNum (Fin price))]%string.
Definition duplicate_rows : list Row :=
  [priced "first" 5; priced "low" 3; priced "second" 5; priced "high" 8].

(** [{ minPrice: 100 }], [{ maxPrice: 100 }] and
    [{ minPrice: -10, maxPrice: 10 }] *)
Definition min100 : QueryOptions :=
  {| page := None; limit := None; search := None; category := None;
     sortBy := None; sortOrder := None;
     minPrice := Some (Fin 100); maxPrice := None |}.
Definition max100 : QueryOptions :=
  {| page := None; limit := None; search := None; category := None;
     sortBy := None; sortOrder := None;
     minPrice := None; maxPrice := Some (Fin 100) |}.
Definition around0 : QueryOptions :=
  {| page := None; limit := None; search := None; category := None;
     sortBy := None; sortOrder := None;
     minPrice := Some (Fin (-10)); maxPrice := Some (Fin 10) |}.

(** "materiales > 500€, area < 50m2"; the euro sign is one code unit. *)
Definition scenario_query : jsstring :=
  u "materiales > 500" ++ [c_euro] ++ u ", area < 50m2".

(** "materiales > 500€, ???, area < 50m2, x": two segments that parse, one
    that does not, and one that is too short to be reported. *)
Definition noisy_query : jsstring :=
  u "materiales > 500" ++ [c_euro] ++ u ", ???, area < 50m2, x".

End Scenarios.

(* ====================================================================== *)
(** * More of the host: arithmetic and insertion-ordered maps *)
(* ====================================================================== *)

Module Num.
Import JS.

(** [a + b] and [a / b]; a division by zero has no finite value and is NaN
    here (the code guards every division). *)
Definition num_add (a b : number) : number :=
  match a, b with Fin x, Fin y => Fin (x + y)%Q | _, _ => NaN end.

Definition num_div (a b : number) : number :=
  match a, b with
  | Fin x, Fin y => if Qeq_bool y 0%Q then NaN else Fin (x / y)%Q
  | _, _ => NaN
  end.

(** [a < b] and [a > b]: false as soon as a side is NaN. *)
Definition num_lt (a b : number) : bool :=
  match a, b with Fin x, Fin y => negb (Qle_bool y x) | _, _ => false end.

Definition num_gt (a b : number) : bool := num_lt b a.

(** [Math.max(a, b)] and [Math.min(a, b)]: NaN as soon as a side is. *)
Definition Math_max (a b : number) : number :=
  match a, b with
  | Fin x, Fin y => if Qle_bool x y then Fin y else Fin x
  | _, _ => NaN
  end.

Definition Math_min (a b : number) : number :=
  match a, b with
  | Fin x, Fin y => if Qle_bool x y then Fin x else Fin y
  | _, _ => NaN
  end.

Definition num_of_nat (n : nat) : number := num_of_Z (Z.of_nat n).

End Num.

(** A [Map] with string keys: its entries in insertion order. *)
Module JSMap.
Import JS.

Section Map.
Variable V : Type.

Definition t : Type := list (jsstring * V).

(** [m.get(k)] *)
Fixpoint get (k : jsstring) (m : t) : option V :=
  match m with
  | [] => None
  | (k', v) :: m' => if str_eqb k' k then Some v else get k m'
  end.

(** [m.has(k)] *)
Definition has (k : jsstring) (m : t) : bool :=
  match get k m with Some _ => true | None => false end.

(** [m.set(k, v)]: a key that is present keeps its place. *)
Fixpoint set (k : jsstring) (v : V) (m : t) : t :=
  match m with
  | [] => [(k, v)]
  | (k', v') :: m' =>
      if str_eqb k' k then (k, v) :: m' else (k', v') :: set k v m'
  end.

(** [m.delete(k)] *)
Fixpoint delete (k : jsstring) (m : t) : t :=
  match m with
  | [] => []
  | (k', v') :: m' =>
      if str_eqb k' k then m' else (k', v') :: delete k m'
  end.

(** [Array.from(m.keys())] *)
Definition keys (m : t) : list jsstring := map fst m.
End Map.

End JSMap.

(* ====================================================================== *)
(** * General utilities *)
(* ====================================================================== *)

Module Utils.
Import JS Num.

Definition clamp (value min max : number) : number :=
  Math_min (Math_max value min) max.

(** [truncate]; [maxLength] is a whole number.  [text.slice(0, n)] reads a
    negative [n] from the end of the text. *)
Definition truncate (text : jsstring) (maxLength : Z) : jsstring :=
  if (Z.of_nat (List.length text) <=? maxLength)%Z then text
  else ParquetReader.slice text 0 (maxLength - 3) ++ u "...".

End Utils.

(* ====================================================================== *)
(** * The result cache and the statistics of the dataset reader *)
(* ====================================================================== *)

Module ParquetCache.
Import JS.
Local Open Scope Z_scope.

(** Milliseconds. *)
Definition CACHE_TTL : Z := 10 * 60 * 1000.
Definition QUERY_CACHE_TTL : Z := 5 * 60 * 1000.

Section Cache.
Variable D : Type.

(** [{ data, timestamp }] *)
Record CacheEntry : Type := { data : D; timestamp : Z }.

(** The module-level [queryCache]. *)
Definition QueryCache : Type := JSMap.t CacheEntry.

(** [getCachedResult] at the time [now] ([Date.now()]): the answer and the
    cache afterwards. *)
Definition getCachedResult (now : Z) (key : jsstring) (queryCache : QueryCache)
  : option D * QueryCache :=
  match JSMap.get key queryCache with
  | Some cached =>
      if now - timestamp cached <? QUERY_CACHE_TTL
      then (Some (data cached), queryCache)
      else (None, JSMap.delete key queryCache)
  | None => (None, JSMap.delete key queryCache)
  end.

Definition setCachedResult (now : Z) (key : jsstring) (d : D)
           (queryCache : QueryCache) : QueryCache :=
  JSMap.set key {| data := d; timestamp := now |} queryCache.
End Cache.

End ParquetCache.

Module ParquetStats.
Import JS Num ParquetReader.

(** [{ count, totalCost }], the value kept per category. *)
Record CategoryAcc : Type := { acc_count : nat; acc_totalCost : number }.

Record CategoryStat : Type := {
  cat_category : jsstring;
  cat_count : nat;
  cat_totalCost : number
}.

(** A cost range; [None] is the upper bound [Infinity]. *)
Record CostRange : Type := {
  range_name : jsstring;
  range_min : number;
  range_max : option number
}.

Record RangeStat : Type := { rs_range : jsstring; rs_count : nat }.

Record RegionStats : Type := {
  totalItems : nat;
  totalCost : number;
  avgCost : number;
  minCost : number;
  maxCost : number;
  byCategory : list CategoryStat;
  byCostRange : list RangeStat
}.

Definition ranges : list CostRange :=
  [ {| range_name := u "0-10"; range_min := Fin 0;
       range_max := Some (Fin 10) |};
    {| range_name := u "10-50"; range_min := Fin 10;
       range_max := Some (Fin 50) |};
    {| range_name := u "50-100"; range_min := Fin 50;
       range_max := Some (Fin 100) |};
    {| range_name := u "100-500"; range_min := Fin 100;
       range_max := Some (Fin 500) |};
    {| range_name := u "500-1000"; range_min := Fin 500;
       range_max := Some (Fin 1000) |};
    {| range_name := u "1000+"; range_min := Fin 1000;
       range_max := None |} ].

(** [price >= range.min && price < range.max] *)
Definition in_range (price : number) (r : CostRange) : bool :=
  num_ge price (range_min r)
  && match range_max r with
     | Some m => num_lt price m
     | None => negb (isNaN price)
     end.

(** The running totals of the first loop: [None] is the sentinel
    [Infinity] of [minCost], [-Infinity] of [maxCost]. *)
Record Totals : Type := {
  t_totalCost : number;
  t_minCost : option number;
  t_maxCost : option number
}.

Definition below (price : number) (bound : option number) : bool :=
  match bound with
  | Some m => num_lt price m
  | None => negb (isNaN price)
  end.

Definition above (price : number) (bound : option number) : bool :=
  match bound with
  | Some m => num_gt price m
  | None => negb (isNaN price)
  end.

Section WithRuntime.
Context {rt : Runtime}.

Definition priceOf (row : Row) : number :=
  safeNumber (get row "resource_price_per_unit").

(** One turn of the first loop. *)
Definition totals_step (t : Totals) (row : Row) : Totals :=
  let price := priceOf row in
  {| t_totalCost := num_add (t_totalCost t) price;
     t_minCost := if below price (t_minCost t) then Some price
                  else t_minCost t;
     t_maxCost := if above price (t_maxCost t) then Some price
                  else t_maxCost t |}.

(** [safeString(row.category_type) || 'Unknown'] *)
Definition categoryOf (row : Row) : jsstring :=
  match safeString (get row "category_type") with
  | [] => u "Unknown"
  | c => c
  end.

(** One turn of the loop that fills [categoryMap]. *)
Definition category_step (categoryMap : JSMap.t CategoryAcc) (row : Row)
  : JSMap.t CategoryAcc :=
  let category := categoryOf row in
  let price := priceOf row in
  let existing := match JSMap.get category categoryMap with
                  | Some e => e
                  | None => {| acc_count := 0; acc_totalCost := num_of_Z 0 |}
                  end in
  JSMap.set category
    {| acc_count := acc_count existing + 1;
       acc_totalCost := num_add (acc_totalCost existing) price |}
    categoryMap.

(** One turn of the loop that fills [rangeCounts]: the first range that
    holds the price is counted. *)
Definition range_step (rangeCounts : JSMap.t nat) (row : Row)
  : JSMap.t nat :=
  match find (in_range (priceOf row)) ranges with
  | Some r =>
      JSMap.set (range_name r)
        (match JSMap.get (range_name r) rangeCounts with
         | Some n => n
         | None => 0
         end + 1) rangeCounts
  | None => rangeCounts
  end.

Definition compareByCount (a b : CategoryStat) : number :=
  num_sub (num_of_nat (cat_count b)) (num_of_nat (cat_count a)).

(** [getStats] on the rows loaded for the region (the result cache is left
    out). *)
Definition getStats (rows : list Row) : RegionStats :=
  let t := fold_left totals_step rows
             {| t_totalCost := num_of_Z 0; t_minCost := None;
                t_maxCost := None |} in
  let totalItems := List.length rows in
  let categoryMap := fold_left category_step rows [] in
  let rangeCounts :=
    fold_left range_step rows
      (fold_left (fun m r => JSMap.set (range_name r) 0 m) ranges []) in
  {| totalItems := totalItems;
     totalCost := t_totalCost t;
     avgCost := if Nat.ltb 0 totalItems
                then num_div (t_totalCost t) (num_of_nat totalItems)
                else num_of_Z 0;
     minCost := match t_minCost t with Some m => m | None => num_of_Z 0 end;
     maxCost := match t_maxCost t with Some m => m | None => num_of_Z 0 end;
     byCategory :=
       slice
         (sort compareByCount
            (map (fun e => {| cat_category := fst e;
                              cat_count := acc_count (snd e);
                              cat_totalCost := acc_totalCost (snd e) |})
                 categoryMap))
         0 20;
     byCostRange :=
       map (fun r => {| rs_range := range_name r;
                        rs_count := match JSMap.get (range_name r) rangeCounts
                                    with
                                    | Some n => n
                                    | None => 0
                                    end |})
           ranges |}.
End WithRuntime.

End ParquetStats.

(* ====================================================================== *)
(** * The aggregations and filters of the row mapper *)
(* ====================================================================== *)

Module MapperAggregates.
Import JS Num Mapper.

(** [{ value, count }], the value kept per group. *)
Record GroupAcc : Type := { g_value : number; g_count : nat }.

Record CategoryAggregate : Type := {
  name : jsstring;
  value : number;
  count : nat;
  percentage : number
}.

(** [resource_cost ?? price_est_median ?? price_est_mean ?? 0] *)
Definition costOf (item : DDCWorkItem) : number :=
  nullish (resource_cost item)
    (nullish (price_est_median item)
       (nullish (price_est_mean item) (num_of_Z 0))).

(** [resource_cost ?? price_est_median ?? 0] *)
Definition shortCostOf (item : DDCWorkItem) : number :=
  nullish (resource_cost item) (nullish (price_est_median item) (num_of_Z 0)).

(** [item.category_type || 'Other'] *)
Definition categoryOf (item : DDCWorkItem) : jsstring :=
  nullish (or_str (category_type item) None) (u "Other").

Definition group_step (categoryMap : JSMap.t GroupAcc) (item : DDCWorkItem)
  : JSMap.t GroupAcc :=
  let existing := match JSMap.get (categoryOf item) categoryMap with
                  | Some e => e
                  | None => {| g_value := num_of_Z 0; g_count := 0 |}
                  end in
  JSMap.set (categoryOf item)
    {| g_value := num_add (g_value existing) (costOf item);
       g_count := g_count existing + 1 |}
    categoryMap.

(** The [categoryMap] after the loop. *)
Definition groupByCategory (items : list DDCWorkItem) : JSMap.t GroupAcc :=
  fold_left group_step items [].

Definition compareByValue (a b : CategoryAggregate) : number :=
  num_sub (value b) (value a).

(** [aggregateByCategory(items, topN)]; [topN] is a whole number, 10 when
    left out. *)
Definition aggregateByCategory (items : list DDCWorkItem) (topN : option Z)
  : list CategoryAggregate :=
  let categoryMap := groupByCategory items in
  let total := fold_left (fun sum cat => num_add sum (g_value (snd cat)))
                 categoryMap (num_of_Z 0) in
  ParquetReader.slice
    (ParquetReader.sort compareByValue
       (map (fun e =>
               {| name := fst e;
                  value := g_value (snd e);
                  count := g_count (snd e);
                  percentage :=
                    if num_gt total (num_of_Z 0)
                    then num_mul (num_div (g_value (snd e)) total)
                                 (num_of_Z 100)
                    else num_of_Z 0 |})
            categoryMap))
    0 (match topN with Some n => n | None => 10%Z end).

Record PriceStats : Type := {
  ps_min : number;
  ps_max : number;
  ps_mean : number;
  ps_median : number;
  ps_total : number;
  ps_count : nat
}.

Definition compareAscending (a b : number) : number := num_sub a b.

(** The positive costs, in ascending order. *)
Definition sortedPrices (items : list DDCWorkItem) : list number :=
  ParquetReader.sort compareAscending
    (filter (fun p => num_gt p (num_of_Z 0)) (map shortCostOf items)).

(** [prices[i]]; reading past the end gives [undefined], which is NaN in
    arithmetic. *)
Definition at_index (prices : list number) (i : nat) : number :=
  nth i prices NaN.

Definition calculatePriceStats (items : list DDCWorkItem) : PriceStats :=
  let zero := num_of_Z 0 in
  match items with
  | [] => {| ps_min := zero; ps_max := zero; ps_mean := zero;
             ps_median := zero; ps_total := zero; ps_count := 0 |}
  | _ =>
      let prices := sortedPrices items in
      let n := List.length prices in
      match n with
      | O => {| ps_min := zero; ps_max := zero; ps_mean := zero;
                ps_median := zero; ps_total := zero;
                ps_count := List.length items |}
      | _ =>
          let total := fold_left num_add prices zero in
          {| ps_min := at_index prices 0;
             ps_max := at_index prices (n - 1);
             ps_mean := num_div total (num_of_nat n);
             ps_median :=
               if Nat.eqb (n mod 2) 0
               then num_div (num_add (at_index prices (n / 2 - 1))
                                     (at_index prices (n / 2)))
                            (num_of_Z 2)
               else at_index prices (n / 2);
             ps_total := total;
             ps_count := List.length items |}
      end
  end.

(** [createRateCodeLookup]: an item without a code is passed over. *)
Definition createRateCodeLookup (items : list DDCWorkItem)
  : JSMap.t DDCWorkItem :=
  fold_left (fun m item =>
               match rate_code item with
               | Some (c :: code) => JSMap.set (c :: code) item m
               | _ => m
               end)
            items [].

(** A dataset row with the further columns that the resource summary and
    the item filter read. *)
Record DDCRow : Type := {
  base : DDCWorkItem;
  collection_code : option jsstring;
  collection_name : option jsstring;
  department_code : option jsstring;
  is_material : bool;
  is_labor : bool;
  is_machine : bool
}.

Inductive ResourceType : Type := material | labor | machine | other.

Record ResourceSummary : Type := {
  rs_type : ResourceType;
  rs_totalCost : number;
  rs_count : nat;
  rs_averageCost : number
}.

(** The four counters of [summaries], in the order of the object literal. *)
Record Summaries : Type := {
  s_material : number * nat;
  s_labor : number * nat;
  s_machine : number * nat;
  s_other : number * nat
}.

Definition bump (acc : number * nat) (cost : number) : number * nat :=
  (num_add (fst acc) cost, snd acc + 1).

Definition summary_step (s : Summaries) (item : DDCRow) : Summaries :=
  let cost := shortCostOf (base item) in
  if is_material item then
    {| s_material := bump (s_material s) cost; s_labor := s_labor s;
       s_machine := s_machine s; s_other := s_other s |}
  else if is_labor item then
    {| s_material := s_material s; s_labor := bump (s_labor s) cost;
       s_machine := s_machine s; s_other := s_other s |}
  else if is_machine item then
    {| s_material := s_material s; s_labor := s_labor s;
       s_machine := bump (s_machine s) cost; s_other := s_other s |}
  else
    {| s_material := s_material s; s_labor := s_labor s;
       s_machine := s_machine s; s_other := bump (s_other s) cost |}.

Definition summarizeByResourceType (items : list DDCRow)
  : list ResourceSummary :=
  let zero := (num_of_Z 0, 0) in
  let s := fold_left summary_step items
             {| s_material := zero; s_labor := zero; s_machine := zero;
                s_other := zero |} in
  map (fun e =>
         {| rs_type := fst e;
            rs_totalCost := fst (snd e);
            rs_count := snd (snd e);
            rs_averageCost :=
              if Nat.ltb 0 (snd (snd e))
              then num_div (fst (snd e)) (num_of_nat (snd (snd e)))
              else num_of_Z 0 |})
      (filter (fun e => Nat.ltb 0 (snd (snd e)))
              [ (material, s_material s); (labor, s_labor s);
                (machine, s_machine s); (other, s_other s) ]).

(** The filter state of [filterWorkItems]; [None] is a field left out. *)
Record FilterState : Type := {
  categoryTypes : option (list jsstring);
  collectionCodes : option (list jsstring);
  departmentCodes : option (list jsstring);
  priceRange : option (option number * option number);
  isMaterial : option bool;
  isLabor : option bool;
  isMachine : option bool;
  searchQuery : option jsstring
}.

(** [codes?.length && !codes.includes(field)]: the item is rejected. *)
Definition rejected_by (codes : option (list jsstring))
           (fld : option jsstring) : bool :=
  match codes with
  | Some (c :: cs) =>
      negb (match fld with
            | Some f => existsb (str_eqb f) (c :: cs)
            | None => false
            end)
  | _ => false
  end.

Definition flag_differs (wanted : option bool) (flag : bool) : bool :=
  match wanted with
  | Some w => negb (Bool.eqb flag w)
  | None => false
  end.

(** The callback of [items.filter] in [filterWorkItems]. *)
Definition keeps (filters : FilterState) (item : DDCRow) : bool :=
  let b := base item in
  if rejected_by (categoryTypes filters) (category_type b) then false
  else if rejected_by (collectionCodes filters) (collection_code item)
  then false
  else if rejected_by (departmentCodes filters) (department_code item)
  then false
  else if match priceRange filters with
          | Some (lo, hi) =>
              let price :=
                nullish (price_est_median b)
                  (nullish (resource_price_per_unit b) (num_of_Z 0)) in
              match lo with Some m => num_lt price m | None => false end
              || match hi with Some m => num_gt price m | None => false end
          | None => false
          end
  then false
  else if flag_differs (isMaterial filters) (is_material item) then false
  else if flag_differs (isLabor filters) (is_labor item) then false
  else if flag_differs (isMachine filters) (is_machine item) then false
  else match searchQuery filters with
       | Some (c :: q) =>
           let query := toLowerCase (c :: q) in
           existsb (fun fld =>
                      match fld with
                      | Some (x :: f) => includes (toLowerCase (x :: f)) query
                      | _ => false
                      end)
                   [ rate_code b; rate_original_name b; resource_name b;
                     category_type b; department_name b;
                     collection_name item ]
       | _ => true
       end.

Definition filterWorkItems (items : list DDCRow) (filters : FilterState)
  : list DDCRow :=
  filter (keeps filters) items.

End MapperAggregates.

(* ====================================================================== *)
(** * The handlers of the filter input and of the data table *)
(* ====================================================================== *)

Module SmartFilterComponent.
Import JS SmartFilter.

(** The state the handlers of the component read and write. *)
Record InputState : Type := {
  inputValue : jsstring;
  activeFilters : list ParsedFilter;
  showSuggestions : bool
}.

Section WithRuntime.
Context {rt : Runtime}.

(** [handleSubmit]; the id counter of the parser is threaded. *)
Definition handleSubmit (st : InputState) (filterIdCounter : N)
  : InputState * N :=
  match trim (inputValue st) with
  | [] => (st, filterIdCounter)
  | _ =>
      let (result, counter) :=
        parseNaturalLanguageQuery (inputValue st) filterIdCounter in
      if success result
      then ({| inputValue := [];
               activeFilters := activeFilters st ++ filters result;
               showSuggestions := false |}, counter)
      else ({| inputValue := inputValue st;
               activeFilters := activeFilters st;
               showSuggestions := false |}, counter)
  end.
End WithRuntime.

Definition removeFilter (filterId : jsstring) (st : InputState)
  : InputState :=
  {| inputValue := inputValue st;
     activeFilters :=
       filter (fun f => negb (str_eqb (id f) filterId)) (activeFilters st);
     showSuggestions := showSuggestions st |}.

Definition clearAllFilters (st : InputState) : InputState :=
  {| inputValue := [];
     activeFilters := [];
     showSuggestions := showSuggestions st |}.

End SmartFilterComponent.

Module DataTableInteraction.
Import JS.
Local Open Scope Z_scope.

(** The keys [handleKeyDown] tells apart. *)
Inductive Key : Type :=
| ARROW_DOWN | ARROW_UP | ENTER | SPACE | HOME | END | ESCAPE
| OtherKey.

(** The local state of the table: the focused row (-1 for none) and the
    [Set] of selected ids, in insertion order. *)
Record TableFocus : Type := {
  focusedRowIndex : Z;
  selectedRowIds : list jsstring
}.

(** [next.has(id) ? next.delete(id) : next.add(id)] *)
Definition toggleId (rowId : jsstring) (selected : list jsstring)
  : list jsstring :=
  if existsb (str_eqb rowId) selected
  then filter (fun x => negb (str_eqb x rowId)) selected
  else selected ++ [rowId].

(** [handleRowClick] on the row with the id [rowId]. *)
Definition handleRowClick (enableSelection : bool) (rowId : jsstring)
           (st : TableFocus) : TableFocus :=
  if enableSelection
  then {| focusedRowIndex := focusedRowIndex st;
          selectedRowIds := toggleId rowId (selectedRowIds st) |}
  else st.

(** [handleKeyDown]; [rowIds] are the ids of the rows after filtering and
    sorting. *)
Definition handleKeyDown (enableSelection : bool) (rowIds : list jsstring)
           (key : Key) (st : TableFocus) : TableFocus :=
  let len := Z.of_nat (List.length rowIds) in
  if len =? 0 then st
  else
    match key with
    | ARROW_DOWN =>
        {| focusedRowIndex := Z.min (focusedRowIndex st + 1) (len - 1);
           selectedRowIds := selectedRowIds st |}
    | ARROW_UP =>
        {| focusedRowIndex := Z.max (focusedRowIndex st - 1) 0;
           selectedRowIds := selectedRowIds st |}
    | ENTER | SPACE =>
        if (0 <=? focusedRowIndex st) && (focusedRowIndex st <? len)
        then match nth_error rowIds (Z.to_nat (focusedRowIndex st)) with
             | Some rowId => handleRowClick enableSelection rowId st
             | None => st
             end
        else st
    | HOME =>
        {| focusedRowIndex := 0; selectedRowIds := selectedRowIds st |}
    | END =>
        {| focusedRowIndex := len - 1;
           selectedRowIds := selectedRowIds st |}
    | ESCAPE => {| focusedRowIndex := -1; selectedRowIds := [] |}
    | OtherKey => st
    end.

(** A run of key presses, first key first. *)
Definition pressKeys (enableSelection : bool) (rowIds : list jsstring)
           (keys : list Key) (st : TableFocus) : TableFocus :=
  fold_left (fun s k => handleKeyDown enableSelection rowIds k s) keys st.

End DataTableInteraction.

(* ====================================================================== *)
(** * Shapes of patterns *)
(* ====================================================================== *)

Module RegexShape.
Import JS Regex.

(** The pattern has no capturing group. *)
Fixpoint nogroup (r : regex) : bool :=
  match r with
  | Eps | Chr _ | Cls _ => true
  | Seq r1 r2 | Alt r1 r2 => nogroup r1 && nogroup r2
  | Opt r1 | Star r1 => nogroup r1
  | Grp _ => false
  end.

(** A comma or a semicolon. *)
Definition is_separator (c : N) : bool := N.eqb c 44 || N.eqb c 59.

End RegexShape.

Module MapperShape.
Import JS Mapper MapperAggregates.

(** The branch of the [if] chain of [summarizeByResourceType] that an item
    takes. *)
Definition resourceTypeOf (item : DDCRow) : ResourceType :=
  if is_material item then material
  else if is_labor item then labor
  else if is_machine item then machine
  else other.

Definition ResourceType_eqb (a b : ResourceType) : bool :=
  match a, b with
  | material, material | labor, labor | machine, machine | other, other =>
      true
  | _, _ => false
  end.

(** The count a summary reports for a type: 0 when the type has no entry. *)
Definition countOfType (t : ResourceType) (out : list ResourceSummary)
  : nat :=
  list_sum (map rs_count
              (filter (fun e => ResourceType_eqb (rs_type e) t) out)).

(** The filter state with every field left out. *)
Definition noFilters : FilterState :=
  {| categoryTypes := None; collectionCodes := None;
     departmentCodes := None; priceRange := None; isMaterial := None;
     isLabor := None; isMachine := None; searchQuery := None |}.

End MapperShape.

Module MapperScenarios.
Import JS Mapper MapperAggregates.

(** A dataset row with a code, a category and a cost, the other columns
    null; and the same with the three resource flags. *)
Definition work_item (code category : string) (cost : option Q)
  : DDCWorkItem :=
  {| rate_code := Some (u code);
     rate_original_name := None;
     rate_unit := None;
     resource_name := None;
     resource_unit := None;
     category_type := Some (u category);
     department_name := None;
     resource_quantity := None;
     resource_price_per_unit := None;
     resource_cost := option_map Fin cost;
     price_est_median := None;
     price_est_mean := None |}.

Definition flagged (code : string) (cost : option Q)
           (isMaterial isLabor isMachine : bool) : DDCRow :=
  {| base := work_item code "" cost;
     collection_code := None;
     collection_name := None;
     department_code := None;
     is_material := isMaterial;
     is_labor := isLabor;
     is_machine := isMachine |}.

(** Four items: two of concrete (one without a cost), one of steel, one
    without a category. *)
Definition sample_items : list DDCWorkItem :=
  [ work_item "A" "Concrete" (Some 30%Q);
    work_item "B" "Steel" (Some 10%Q);
    work_item "C" "Concrete" None;
    work_item "D" "" (Some 20%Q) ].

(** Four flagged rows; the second is flagged as material and as labor. *)
Definition sample_rows : list DDCRow :=
  [ flagged "A" (Some 30%Q) true false false;
    flagged "B" (Some 10%Q) true true false;
    flagged "C" None false false true;
    flagged "D" (Some 20%Q) false false false ].

End MapperScenarios.

Unset Implicit Arguments.

(* ====================================================================== *)
(** * Properties of the table store *)
(* ====================================================================== *)

Section TableStoreFacts.
Import TableStore.

Lemma ColumnKey_eqb_true (a b : ColumnKey) :
  ColumnKey_eqb a b = true <-> a = b.
Proof.
  unfold ColumnKey_eqb. destruct (ColumnKey_eq_dec a b); split;
    congruence.
Qed.

Lemma isVisible_In (c : ColumnKey) (l : list ColumnKey) :
  existsb (ColumnKey_eqb c) l = true <-> In c l.
Proof.
  rewrite existsb_exists. split.
  - intros [x [Hin Heq]]. apply ColumnKey_eqb_true in Heq. now subst.
  - intros Hin. exists c. split; [assumption|]. now apply ColumnKey_eqb_true.
Qed.

Lemma isVisible_not_In (c : ColumnKey) (l : list ColumnKey) :
  existsb (ColumnKey_eqb c) l = false <-> ~ In c l.
Proof.
  rewrite <- isVisible_In. destruct (existsb _ l); split; intros;
    congruence.
Qed.

Lemma In_others (c x : ColumnKey) (l : list ColumnKey) :
  In x (others c l) <-> In x l /\ x <> c.
Proof.
  unfold others. rewrite filter_In. rewrite negb_true_iff.
  split; intros [H1 H2]; split; try assumption.
  - intros Heq. apply ColumnKey_eqb_true in Heq. congruence.
  - destruct (ColumnKey_eqb x c) eqn:E; [|reflexivity].
    apply ColumnKey_eqb_true in E. contradiction.
Qed.


Lemma toggleColumn_visible (c : ColumnKey) (s : TableState) :
  visibleColumns (toggleColumn c s) =
    if existsb (ColumnKey_eqb c) (visibleColumns s)
    then if Nat.ltb 1 (List.length (visibleColumns s))
         then others c (visibleColumns s)
         else visibleColumns s
    else visibleColumns s ++ [c].
Proof.
  unfold toggleColumn.
  destruct (existsb _ _); [destruct (Nat.ltb _ _)|]; reflexivity.
Qed.






End TableStoreFacts.

Section PersistenceFacts.
Import TableStore.
Local Open Scope string_scope.

(** C10, as the code has it.  The object written to storage has exactly the
    keys viewMode, visibleColumns, sorting, columnVisibility and
    columnSizing, each with the value of the state; it has no filters key
    (neither the conditions nor the search string are stored) and the store
    holds no row selection at all.  A session started from the stored object
    therefore has the default filters and the five stored fields of the
    state that was saved. *)
Theorem C10_persisted_fields :
  forall s : TableState,
    map fst (partialize s)
    = ["viewMode"; "visibleColumns"; "sorting"; "columnVisibility";
       "columnSizing"]
    /\ map snd (partialize s)
       = [St_viewMode (viewMode s); St_columns (visibleColumns s);
          St_sorting (sorting s); St_visibility (columnVisibility s);
          St_sizing (columnSizing s)]
    /\ ~ In "filters" (map fst (partialize s))
    /\ (forall k, In k ["globalSearch"; "conditions"; "selectedRowIds";
                        "focusedRowIndex"; "rowSelection"] ->
                  ~ In k (map fst (partialize s)))
    /\ filters (rehydrate (partialize s)) = DEFAULT_FILTERS
    /\ rehydrate (partialize s) = setFilters DEFAULT_FILTERS s.
Proof.
  intros s. repeat split.
  - simpl. intuition discriminate.
  - simpl. intros k Hk. intuition (subst; discriminate).
Qed.

(** C10, as the claim words it, fails: the stored object of the initial
    state has a key outside the four fields the claim lists. *)
Lemma C10_counterexample :
  exists k : string,
    In k (map fst (partialize initialState))
    /\ ~ In k ["viewMode"; "visibleColumns"; "sorting"; "columnSizing"].
Proof.
  exists "columnVisibility". split.
  - simpl. tauto.
  - simpl. intuition discriminate.
Qed.

End PersistenceFacts.

(* ====================================================================== *)
(** * Properties of the row mapper *)
(* ====================================================================== *)

Section MapperFacts.
Import JS Mapper.
Context {rt : Runtime}.

(** The price chosen for a row. *)
Lemma unit_price_chain (row : DDCWorkItem) (index : N) :
  costoUnitario (mapToConstructionItem row index) =
    match resource_price_per_unit row, price_est_median row,
          price_est_mean row with
    | Some p, _, _ => p
    | None, Some m, _ => m
    | None, None, Some a => a
    | None, None, None => num_of_Z 0
    end.
Proof.
  simpl. destruct (resource_price_per_unit row), (price_est_median row),
    (price_est_mean row); reflexivity.
Qed.

(** C8.  The subtotal of a mapped row is the row's [resource_cost] when the
    row has one, and otherwise the product of the item's unit cost and
    quantity; the unit cost is the first present among
    [resource_price_per_unit], [price_est_median] and [price_est_mean], and
    zero when none is; the quantity is [resource_quantity], and one when it
    is absent.  An item made by [createConstructionItem] always has the
    product as its subtotal. *)
Theorem C8_subtotal_consistent :
  forall (row : DDCWorkItem) (index : N) (input : ConstructionItemInput),
    let item := mapToConstructionItem row index in
    subtotal item
    = match resource_cost row with
      | Some cost => cost
      | None => num_mul (costoUnitario item) (cantidad item)
      end
    /\ costoUnitario item
       = match resource_price_per_unit row, price_est_median row,
               price_est_mean row with
         | Some p, _, _ => p
         | None, Some m, _ => m
         | None, None, Some a => a
         | None, None, None => num_of_Z 0
         end
    /\ cantidad item
       = match resource_quantity row with
         | Some q => q
         | None => num_of_Z 1
         end
    /\ subtotal (createConstructionItem input)
       = num_mul (costoUnitario (createConstructionItem input))
                 (cantidad (createConstructionItem input)).
Proof.
  intros row index input item. subst item.
  split; [|split; [|split]].
  - simpl. destruct (resource_cost row); reflexivity.
  - apply unit_price_chain.
  - simpl. destruct (resource_quantity row); reflexivity.
  - reflexivity.
Qed.

End MapperFacts.

(* ====================================================================== *)
(** * Properties of the pattern matcher *)
(* ====================================================================== *)

Section RegexFacts.
Import JS Regex.

Lemma chr_eqb_refl (icase : bool) (c : N) : chr_eqb icase c c = true.
Proof. unfold chr_eqb. apply N.eqb_refl. Qed.

(** The equations of the matcher, one step at a time. *)
Lemma mt_Seq (icase : bool) (A : Type) (r1 r2 : regex) (s : jsstring)
      (caps : list jsstring) (k : cont A) :
  mt icase (Seq r1 r2) s caps k
  = mt icase r1 s caps (fun s' caps' => mt icase r2 s' caps' k).
Proof. reflexivity. Qed.

Lemma mt_Grp (icase : bool) (A : Type) (r : regex) (s : jsstring)
      (caps : list jsstring) (k : cont A) :
  mt icase (Grp r) s caps k
  = mt icase r s caps
       (fun s' caps' =>
          k s' (caps' ++ [firstn (List.length s - List.length s') s])).
Proof. reflexivity. Qed.

Lemma mt_Cls (icase : bool) (A : Type) (p : N -> bool) (s : jsstring)
      (caps : list jsstring) (k : cont A) :
  mt icase (Cls p) s caps k
  = match s with
    | x :: s' => if p x then k s' caps else None
    | [] => None
    end.
Proof. reflexivity. Qed.

Lemma mt_lit_units (icase : bool) (A : Type) (l post : jsstring)
      (caps : list jsstring) (k : cont A) :
  mt icase (lit_units l) (l ++ post) caps k = k post caps.
Proof.
  revert post caps k. induction l as [|c l IH]; intros post caps k.
  - reflexivity.
  - destruct l as [|d l'].
    + simpl. now rewrite chr_eqb_refl.
    + change (lit_units (c :: d :: l'))
        with (Seq (Chr c) (lit_units (d :: l'))).
      change ((c :: d :: l') ++ post) with (c :: ((d :: l') ++ post)).
      cbn [mt]. rewrite chr_eqb_refl. apply IH.
Qed.

Lemma mt_alts_In (icase : bool) (A : Type) (rs : list regex) (r : regex)
      (s : jsstring) (caps : list jsstring) (k : cont A) :
  In r rs -> mt icase r s caps k <> None ->
  mt icase (alts rs) s caps k <> None.
Proof.
  induction rs as [|r0 rs IH]; intros Hin Hr; [contradiction|].
  destruct rs as [|r1 rs'].
  - destruct Hin as [->|[]]. exact Hr.
  - change (alts (r0 :: r1 :: rs')) with (Alt r0 (alts (r1 :: rs'))).
    cbn [mt]. destruct (mt icase r0 s caps k) eqn:E0; [discriminate|].
    destruct Hin as [->|Hin]; [congruence|]. now apply IH.
Qed.

Lemma mt_star_always (icase : bool) (A : Type) (r : regex) (s : jsstring)
      (caps : list jsstring) (k : cont A) :
  always k -> mt icase (Star r) s caps k <> None.
Proof.
  intros Hk. cbn [mt]. destruct (List.length s) as [|n]; [apply Hk|].
  match goal with |- match ?X with _ => _ end <> None => destruct X end;
    [discriminate | apply Hk].
Qed.

Lemma mt_opt_always (icase : bool) (A : Type) (r : regex) (s : jsstring)
      (caps : list jsstring) (k : cont A) :
  always k -> mt icase (Opt r) s caps k <> None.
Proof.
  intros Hk. cbn [mt]. destruct (mt icase r s caps k);
    [discriminate | apply Hk].
Qed.

Lemma exec_suffix (icase : bool) (r : regex) (pre t : jsstring) :
  exec_at icase r t <> None -> exec icase r (pre ++ t) <> None.
Proof.
  intros Ht. induction pre as [|c pre IH].
  - simpl. destruct t; simpl; destruct (exec_at icase r _) as [[? ?]|];
      congruence.
  - simpl. destruct (exec_at icase r (c :: pre ++ t)) as [[? ?]|];
      [discriminate | exact IH].
Qed.

Lemma exec_inv (icase : bool) (r : regex) (s : jsstring)
      (m : list jsstring) :
  exec icase r s = Some m ->
  exists pre t, s = pre ++ t /\ exec_at icase r t <> None.
Proof.
  revert m. induction s as [|c s IH]; intros m H.
  - exists [], []. split; [reflexivity|]. simpl in H.
    destruct (exec_at icase r []) as [[? ?]|]; congruence.
  - simpl in H. destruct (exec_at icase r (c :: s)) as [[rest caps]|] eqn:E.
    + exists [], (c :: s). split; [reflexivity | congruence].
    + destruct (IH _ H) as [pre [t [-> Ht]]].
      exists (c :: pre), t. now split.
Qed.

Lemma includes_split (s pat : jsstring) :
  includes s pat = true -> exists pre post, s = pre ++ pat ++ post.
Proof.
  assert (Hsw : forall p t, startsWith t p = true ->
                            exists post, t = p ++ post).
  { induction p as [|x p IHp]; intros t H.
    - now exists t.
    - destruct t as [|y t]; [discriminate|]. simpl in H.
      apply andb_true_iff in H. destruct H as [Hxy Hp].
      apply N.eqb_eq in Hxy. subst y.
      destruct (IHp _ Hp) as [post ->]. now exists post. }
  induction s as [|c s IH]; intros H.
  - destruct pat as [|x pat]; [now exists [], [] | discriminate].
  - cbn [includes] in H. apply orb_true_iff in H. destruct H as [H|H].
    + destruct (Hsw _ _ H) as [post Hp]. now exists [], post.
    + destruct (IH H) as [pre [post ->]]. now exists (c :: pre), post.
Qed.

(** A text that holds one of the literal alternatives of a pattern passes
    its [test]. *)
Lemma test_alts_literal (icase : bool) (rs : list regex) (l : string)
      (text : jsstring) :
  In (lit l) rs -> includes text (u l) = true ->
  test icase (alts rs) text = true.
Proof.
  intros Hin Hinc. destruct (includes_split _ _ Hinc) as [pre [post ->]].
  unfold test.
  assert (H : exec icase (alts rs) (pre ++ u l ++ post) <> None).
  { apply exec_suffix. unfold exec_at.
    apply mt_alts_In with (r := lit l); [assumption|].
    unfold lit. rewrite mt_lit_units. discriminate. }
  destruct (exec icase (alts rs) (pre ++ u l ++ post)); congruence.
Qed.

Lemma find_all_false (A : Type) (f : A -> bool) (l : list A) :
  (forall x, In x l -> f x = false) -> find f l = None.
Proof.
  induction l as [|x l IH]; intros H; [reflexivity|].
  simpl. rewrite (H x (or_introl eq_refl)). apply IH.
  intros y Hy. apply H. now right.
Qed.

End RegexFacts.

(* ====================================================================== *)
(** * Properties of the natural-language parser *)
(* ====================================================================== *)

Section OperatorFacts.
Import JS Regex SmartFilter.

Lemma detectOperator_gte (text : jsstring) :
  includes text (u ">=") = true -> detectOperator text = Some Op_gte.
Proof.
  intros H. unfold detectOperator, operatorPatterns. cbn [find fst snd].
  rewrite (test_alts_literal true _ ">=" text); [reflexivity| |assumption].
  simpl. tauto.
Qed.

Lemma detectOperator_lte (text : jsstring) :
  includes text (u "<=") = true ->
  detectOperator text = Some Op_gte \/ detectOperator text = Some Op_lte.
Proof.
  intros H. unfold detectOperator, operatorPatterns. cbn [find fst snd].
  match goal with |- context [if ?b then _ else _] => destruct b end;
    [now left|].
  rewrite (test_alts_literal true _ "<=" text); [now right| |assumption].
  simpl. tauto.
Qed.

Lemma detectOperator_neq (text : jsstring) :
  includes text (u "!=") = true ->
  detectOperator text = Some Op_gte \/ detectOperator text = Some Op_lte
  \/ detectOperator text = Some Op_neq.
Proof.
  intros H. unfold detectOperator, operatorPatterns. cbn [find fst snd].
  match goal with |- context [if ?b then _ else _] => destruct b end;
    [now left|].
  match goal with |- context [if ?b then _ else _] => destruct b end;
    [right; now left|].
  rewrite (test_alts_literal true _ "!=" text);
    [right; now right| |assumption].
  simpl. tauto.
Qed.

Lemma detectOperator_none (text : jsstring) :
  (forall po, In po operatorPatterns -> test true (fst po) text = false) ->
  detectOperator text = None.
Proof.
  intros H. unfold detectOperator.
  rewrite (find_all_false _ (fun po => test true (fst po) text)
             operatorPatterns H).
  reflexivity.
Qed.

(** C3.  The patterns are tried in the order gte, lte, neq, gt, lt, eq,
    between, contains, so a two-character operator is read before the
    one-character operator it begins or ends with: "cost >= 100" gives gte
    and "cost != 100" gives neq; every text that holds ">=" gives gte, one
    that holds "<=" never gives lt, one that holds "!=" never gives eq.
    When no pattern matches, [detectOperator] finds nothing and the filter
    made from the segment has the operator contains. *)
Theorem C3_operator_precedence :
  detectOperator (u "cost >= 100") = Some Op_gte
  /\ detectOperator (u "cost != 100") = Some Op_neq
  /\ map snd operatorPatterns
     = [Op_gte; Op_lte; Op_neq; Op_gt; Op_lt; Op_eq; Op_between;
        Op_contains]
  /\ (forall text, includes text (u ">=") = true ->
                   detectOperator text = Some Op_gte)
  /\ (forall text, includes text (u "<=") = true ->
                   detectOperator text = Some Op_gte
                   \/ detectOperator text = Some Op_lte)
  /\ (forall text, includes text (u "!=") = true ->
                   detectOperator text = Some Op_gte
                   \/ detectOperator text = Some Op_lte
                   \/ detectOperator text = Some Op_neq)
  /\ (forall (rt : Runtime) (text : jsstring) (st : loop_state),
         (forall po, In po operatorPatterns ->
                     test true (fst po) text = false) ->
         detectOperator text = None
         /\ (forall f v,
                resolveField text = Some f -> extractValue text = Some v ->
                exists flt,
                  ls_filters (parse_segment st text) = ls_filters st ++ [flt]
                  /\ operator flt = Op_contains
                  /\ field flt = f /\ value flt = v)).
Proof.
  split; [vm_compute; reflexivity|].
  split; [vm_compute; reflexivity|].
  split; [reflexivity|].
  split; [exact detectOperator_gte|].
  split; [exact detectOperator_lte|].
  split; [exact detectOperator_neq|].
  intros rt text st Hnone.
  pose proof (detectOperator_none text Hnone) as Hdet.
  split; [exact Hdet|].
  intros f v Hf Hv. unfold parse_segment. rewrite Hf, Hv, Hdet.
  unfold generateFilterId. eexists. split; [reflexivity|].
  simpl. repeat split.
Qed.

(** A segment with ">=" among other signs, and the segment "area 100", which
    names a field and a value and no operator. *)
Lemma C3_operator_precedence_witness :
  detectOperator (u "a<b>=c") = Some Op_gte
  /\ detectOperator (u "area 100") = None
  /\ exists flt,
       ls_filters (parse_segment (rt := Host.host)
                     {| ls_filters := []; ls_unrecognized := [];
                        ls_counter := 0 |} (u "area 100")) = [] ++ [flt]
       /\ operator flt = Op_contains
       /\ field flt = u "area" /\ value flt = ValNumber (Fin 100).
Proof.
  destruct C3_operator_precedence as (_ & _ & _ & Hge & _ & _ & Hnone).
  split.
  - apply Hge. vm_compute. reflexivity.
  - assert (Hno : forall po, In po operatorPatterns ->
                             test true (fst po) (u "area 100") = false).
    { intros po Hin. simpl in Hin.
      repeat (destruct Hin as [<-|Hin]; [vm_compute; reflexivity|]).
      contradiction. }
    destruct (Hnone Host.host (u "area 100")
                {| ls_filters := []; ls_unrecognized := [];
                   ls_counter := 0 |} Hno) as [Hdet Hflt].
    split; [exact Hdet|].
    apply Hflt; vm_compute; reflexivity.
Defined.

End OperatorFacts.

Section EndToEnd.
Import JS Regex SmartFilter Scenarios.

(** C4.  The query "materiales > 500€, area < 50m2" parses, on every host
    and from every counter, into exactly two filters, material gt 500 EUR
    and area lt 50 sqm, in this order, with nothing unrecognized. *)
Theorem C4_end_to_end_parse :
  forall (rt : Runtime) (counter : N),
    let result := fst (parseNaturalLanguageQuery scenario_query counter) in
    map (fun f => (field f, operator f, value f, unit f)) (filters result)
    = [ (u "material", Op_gt, ValNumber (Fin 500), U_EUR);
        (u "area", Op_lt, ValNumber (Fin 50), U_sqm) ]
    /\ unrecognized result = []
    /\ success result = true
    /\ map rawInput (filters result)
       = [ u "materiales > 500" ++ [c_euro]; u "area < 50m2" ].
Proof.
  intros rt counter result. subst result.
  vm_compute. repeat split.
Qed.

End EndToEnd.

Section ValueFacts.
Import JS Regex SmartFilter.

Lemma exec_at_range_digit (t : jsstring) :
  exec_at true range_re t <> None ->
  exists c t', t = c :: t' /\ is_digit c = true.
Proof.
  unfold exec_at, range_re, decimal_re, Plus.
  rewrite mt_Seq, mt_Grp, !mt_Seq, mt_Cls.
  destruct t as [|c t']; [congruence|].
  destruct (is_digit c) eqn:Ed; [|congruence].
  intros _. now exists c, t'.
Qed.

Lemma exec_at_number_digit (c : N) (t' : jsstring) :
  is_digit c = true -> exec_at false number_re (c :: t') <> None.
Proof.
  intros Hd. unfold exec_at, number_re, decimal_re, Plus.
  rewrite mt_Grp, !mt_Seq, mt_Cls, Hd.
  apply mt_star_always. intros s caps.
  apply mt_opt_always. intros s' caps'. discriminate.
Qed.

(** Wherever the range pattern matches, the number pattern matches too: the
    order of the two tests is what makes the value a pair. *)
Lemma rangeMatch_numberMatch (text : jsstring) :
  rangeMatch text <> None -> numberMatch text <> None.
Proof.
  unfold rangeMatch, numberMatch. intros H.
  destruct (exec true range_re text) as [m|] eqn:E; [|congruence].
  destruct (exec_inv _ _ _ _ E) as [pre [t [-> Ht]]].
  destruct (exec_at_range_digit t Ht) as [c [t' [-> Hd]]].
  apply exec_suffix. now apply exec_at_number_digit.
Qed.

(** C5.  [extractValue] tries the range pattern first, then the number
    pattern, then the cleaned text: a text the range pattern matches gives
    the pair of its two groups, although the number pattern matches it as
    well; otherwise a text the number pattern matches gives that number;
    otherwise the cleaned text is the value when it is not empty, and there
    is no value when it is.  "area 100-500" gives the pair 100, 500. *)
Theorem C5_range_before_scalar :
  extractValue (u "area 100-500") = Some (ValRange (Fin 100) (Fin 500))
  /\ forall text : jsstring,
       match rangeMatch text with
       | Some m =>
           extractValue text
           = Some (ValRange (decimal_of (nth 1 m []))
                            (decimal_of (nth 2 m [])))
           /\ numberMatch text <> None
       | None =>
           match numberMatch text with
           | Some m =>
               extractValue text
               = Some (ValNumber (decimal_of (nth 1 m [])))
           | None =>
               extractValue text
               = if Nat.ltb 0 (List.length (cleanedText text))
                 then Some (ValString (cleanedText text))
                 else None
           end
       end.
Proof.
  split; [vm_compute; reflexivity|].
  intros text. pose proof (rangeMatch_numberMatch text) as Hboth.
  unfold extractValue.
  destruct (rangeMatch text) as [m|].
  - split; [reflexivity|]. apply Hboth. discriminate.
  - destruct (numberMatch text); reflexivity.
Qed.

End ValueFacts.

Section ParseFacts.
Import JS Regex SmartFilter.
Context {rt : Runtime}.

(** What a segment contributes, read off [parse_segment]. *)
Lemma parse_segment_recognised (st : loop_state) (segment : jsstring) :
  recognised segment = true ->
  exists flt,
    parse_segment st segment
    = {| ls_filters := ls_filters st ++ [flt];
         ls_unrecognized := ls_unrecognized st;
         ls_counter := (ls_counter st + 1)%N |}
    /\ rawInput flt = segment
    /\ resolveField segment = Some (field flt)
    /\ extractValue segment = Some (value flt)
    /\ operator flt = match detectOperator segment with
                      | Some o => o
                      | None => Op_contains
                      end
    /\ unit flt = detectUnit segment
    /\ id flt = fst (generateFilterId (ls_counter st)).
Proof.
  unfold recognised, parse_segment. intros H.
  destruct (resolveField segment) as [f|]; [|discriminate].
  destruct (extractValue segment) as [v|]; [|discriminate].
  unfold generateFilterId. eexists. split; [reflexivity|].
  simpl. repeat split.
Qed.

Lemma parse_segment_unrecognised (st : loop_state) (segment : jsstring) :
  recognised segment = false ->
  parse_segment st segment
  = {| ls_filters := ls_filters st;
       ls_unrecognized :=
         if Nat.ltb 2 (List.length segment)
         then ls_unrecognized st ++ [segment]
         else ls_unrecognized st;
       ls_counter := ls_counter st |}.
Proof.
  unfold recognised, parse_segment. intros H.
  destruct (resolveField segment) as [f|];
    [destruct (extractValue segment) as [v|]; [discriminate|]|];
    destruct (Nat.ltb 2 (List.length segment)); try reflexivity;
    now destruct st.
Qed.

Lemma loop_shape (segs : list jsstring) (st : loop_state) :
  let st' := fold_left parse_segment segs st in
  map rawInput (ls_filters st')
  = map rawInput (ls_filters st) ++ filter recognised segs
  /\ ls_unrecognized st'
     = ls_unrecognized st
       ++ filter (fun seg => negb (recognised seg)
                             && Nat.ltb 2 (List.length seg)) segs
  /\ (Forall described_by (ls_filters st) ->
      Forall described_by (ls_filters st')).
Proof.
  revert st. induction segs as [|seg segs IH]; intros st.
  - simpl. rewrite !app_nil_r. auto.
  - cbn [fold_left filter]. specialize (IH (parse_segment st seg)).
    cbv zeta in IH. destruct IH as (IHf & IHu & IHd).
    destruct (recognised seg) eqn:Er.
    + destruct (parse_segment_recognised st seg Er)
        as (flt & Est & Hraw & Hf & Hv & Ho & Hu & _).
      rewrite Est in *. cbn [ls_filters ls_unrecognized] in *.
      cbn [negb andb]. split; [|split].
      * rewrite IHf, map_app. cbn [map]. rewrite Hraw, <- app_assoc.
        reflexivity.
      * exact IHu.
      * intros Hall. apply IHd. apply Forall_app. split; [assumption|].
        constructor; [|constructor]. unfold described_by.
        rewrite Hraw. auto.
    + rewrite (parse_segment_unrecognised st seg Er) in *.
      cbn [ls_filters ls_unrecognized] in *. cbn [negb andb].
      split; [exact IHf|]. split; [|exact IHd].
      rewrite IHu. destruct (Nat.ltb 2 (List.length seg));
        [rewrite <- app_assoc|]; reflexivity.
Qed.

(** The filters and the counter do not see the segments that are not
    recognised. *)
Lemma loop_skips_unrecognised (segs : list jsstring) (st1 st2 : loop_state) :
  ls_filters st1 = ls_filters st2 -> ls_counter st1 = ls_counter st2 ->
  ls_filters (fold_left parse_segment segs st1)
  = ls_filters (fold_left parse_segment (filter recognised segs) st2)
  /\ ls_counter (fold_left parse_segment segs st1)
     = ls_counter (fold_left parse_segment (filter recognised segs) st2).
Proof.
  revert st1 st2. induction segs as [|seg segs IH]; intros st1 st2 Hf Hc.
  - now split.
  - cbn [fold_left filter]. destruct (recognised seg) eqn:Er.
    + cbn [fold_left]. apply IH.
      * destruct (parse_segment_recognised st1 seg Er) as (f1 & E1 & _).
        destruct (parse_segment_recognised st2 seg Er) as (f2 & E2 & _).
        unfold parse_segment in *. unfold recognised in Er.
        destruct (resolveField seg); [|discriminate].
        destruct (extractValue seg); [|discriminate].
        unfold generateFilterId. cbn [ls_filters]. now rewrite Hf, Hc.
      * destruct (parse_segment_recognised st1 seg Er) as (f1 & E1 & _).
        destruct (parse_segment_recognised st2 seg Er) as (f2 & E2 & _).
        rewrite E1, E2. cbn [ls_counter]. now rewrite Hc.
    + apply IH; rewrite (parse_segment_unrecognised st1 seg Er);
        assumption.
Qed.

End ParseFacts.

Section ParseTotal.
Import JS Regex SmartFilter Scenarios.

(** C6.  [parseNaturalLanguageQuery] is a total function: every query gives
    a result with its three fields.  The filters are, in order, those of the
    segments that name a field and carry a value, each computed from its own
    segment; a segment that is not one of these is in [unrecognized] exactly
    when it is longer than two code units; and the filters (ids included)
    are those the valid segments alone would give, so the other segments
    never stand in their way. *)
Theorem C6_parse_total :
  forall (rt : Runtime) (query : jsstring) (counter : N),
    let segs := segments query in
    let result := fst (parseNaturalLanguageQuery query counter) in
    (exists r c, parseNaturalLanguageQuery query counter = (r, c))
    /\ map rawInput (filters result) = filter recognised segs
    /\ Forall described_by (filters result)
    /\ unrecognized result
       = filter (fun seg => negb (recognised seg)
                            && Nat.ltb 2 (List.length seg)) segs
    /\ success result = Nat.ltb 0 (List.length (filters result))
    /\ filters result = ls_filters (run_loop (filter recognised segs) counter)
    /\ (forall seg, In seg segs ->
          (recognised seg = true -> In seg (map rawInput (filters result)))
          /\ (recognised seg = false ->
              (In seg (unrecognized result)
               <-> (2 < List.length seg)%nat))).
Proof.
  intros rt query counter segs result.
  pose proof (loop_shape segs
                {| ls_filters := []; ls_unrecognized := [];
                   ls_counter := counter |}) as Hshape.
  cbv zeta in Hshape. cbn [ls_filters ls_unrecognized map app] in Hshape.
  destruct Hshape as (Hf & Hu & Hd).
  assert (Ef : filters result
               = ls_filters (fold_left parse_segment segs
                   {| ls_filters := []; ls_unrecognized := [];
                      ls_counter := counter |})) by reflexivity.
  assert (Eu : unrecognized result
               = ls_unrecognized (fold_left parse_segment segs
                   {| ls_filters := []; ls_unrecognized := [];
                      ls_counter := counter |})) by reflexivity.
  split; [eexists; eexists; reflexivity|].
  split; [rewrite Ef; exact Hf|].
  split; [rewrite Ef; apply Hd; constructor|].
  split; [rewrite Eu; exact Hu|].
  split; [reflexivity|].
  split.
  - rewrite Ef. unfold run_loop.
    apply (loop_skips_unrecognised segs); reflexivity.
  - intros seg Hin. split.
    + intros Hr. rewrite Ef, Hf. apply filter_In. now split.
    + intros Hr. rewrite Eu, Hu, filter_In, Hr. cbn [negb andb].
      rewrite Nat.ltb_lt. tauto.
Qed.

(** On the noisy query the second segment is reported and the fourth, too
    short, is not; the third still gives its filter. *)
Lemma C6_parse_total_witness :
  In (u "area < 50m2")
     (map rawInput
        (filters (fst (parseNaturalLanguageQuery (rt := Host.host)
                         noisy_query 0))))
  /\ In (u "???")
        (unrecognized (fst (parseNaturalLanguageQuery (rt := Host.host)
                              noisy_query 0)))
  /\ ~ In (u "x")
         (unrecognized (fst (parseNaturalLanguageQuery (rt := Host.host)
                               noisy_query 0))).
Proof.
  pose proof (C6_parse_total Host.host noisy_query 0) as H.
  cbv zeta in H. destruct H as (_ & _ & _ & _ & _ & _ & Hseg).
  split; [|split].
  - refine (proj1 (Hseg (u "area < 50m2") _) _).
    + vm_compute. tauto.
    + vm_compute. reflexivity.
  - refine (proj2 (proj2 (Hseg (u "???") _) _) _).
    + vm_compute. tauto.
    + vm_compute. reflexivity.
    + vm_compute. lia.
  - intros Hin.
    refine (_ (proj1 (proj2 (Hseg (u "x") _) _) Hin)).
    + vm_compute. lia.
    + vm_compute. tauto.
    + vm_compute. reflexivity.
Defined.

End ParseTotal.

(* ====================================================================== *)
(** * Properties of the query pipeline *)
(* ====================================================================== *)

Section NullCostFacts.
Import JS ParquetReader Scenarios.

Lemma safeNumber_missing (rt : Runtime) (v : value) :
  v = VNull \/ v = VUndefined -> safeNumber v = num_of_Z 0.
Proof. intros [-> | ->]; reflexivity. Qed.

(** C1, as the code has it.  A row whose cost is null or absent is compared
    as the number 0: it passes the [minPrice] filter exactly when the bound
    is at most 0 and the [maxPrice] filter exactly when the bound is at
    least 0.  On the rows A (50), B (150), C (null) with [minPrice = 100] the
    result is exactly B. *)
Theorem C1_null_cost_compares_as_zero :
  forall rt : Runtime,
    (forall row : Row,
        get row "resource_price_per_unit" = VNull
        \/ get row "resource_price_per_unit" = VUndefined ->
        (forall q, matchesMinPrice (Fin q) row = true <-> (q <= 0)%Q)
        /\ (forall q, matchesMaxPrice (Fin q) row = true <-> (0 <= q)%Q)
        /\ matchesMinPrice NaN row = false
        /\ matchesMaxPrice NaN row = false)
    /\ map rate_code (items (queryWorkItems three_rows min100)) = [u "B"]
    /\ total (queryWorkItems three_rows min100) = 1%nat.
Proof.
  intros rt. split.
  - intros row Hmissing. unfold matchesMinPrice, matchesMaxPrice.
    rewrite (safeNumber_missing rt _ Hmissing).
    repeat split; try reflexivity; simpl; rewrite Qle_bool_iff; auto.
  - split; reflexivity.
Qed.

(** Row C of the scenario, against the bounds 100, 0 and -1. *)
Lemma C1_null_cost_compares_as_zero_witness :
  matchesMinPrice (rt := Host.host) (Fin 100) rowC = false
  /\ matchesMaxPrice (rt := Host.host) (Fin 0) rowC = true
  /\ matchesMaxPrice (rt := Host.host) (Fin (-1)) rowC = false.
Proof.
  destruct (C1_null_cost_compares_as_zero Host.host) as [Hnull _].
  destruct (Hnull rowC (or_introl eq_refl)) as (Hmin & Hmax & _).
  split; [|split].
  - destruct (matchesMinPrice (rt := Host.host) (Fin 100) rowC) eqn:E;
      [|reflexivity].
    apply Hmin in E. vm_compute in E. now elim E.
  - apply Hmax. vm_compute. discriminate.
  - destruct (matchesMaxPrice (rt := Host.host) (Fin (-1)) rowC) eqn:E;
      [|reflexivity].
    apply Hmax in E. vm_compute in E. now elim E.
Defined.

(** C1, as the claim words it, fails: the row with the null cost passes the
    upper bound 100 and the range from -10 to 10, and is in both results. *)
Lemma C1_counterexample :
  get rowC "resource_price_per_unit" = VNull
  /\ matchesMaxPrice (rt := Host.host) (Fin 100) rowC = true
  /\ map rate_code (items (queryWorkItems (rt := Host.host) three_rows max100))
     = [u "A"; u "C"]
  /\ map rate_code (items (queryWorkItems (rt := Host.host) three_rows around0))
     = [u "C"].
Proof. vm_compute. repeat split. Qed.

End NullCostFacts.

Section SortFacts.
Import JS ParquetReader Scenarios.
Lemma insert_perm (A : Type) (cmp : A -> A -> number) (x : A) (l : list A) :
  Permutation (insert cmp x l) (x :: l).
Proof.
  induction l as [|y l IH]; simpl; [reflexivity|].
  destruct (is_positive (cmp x y)); [|reflexivity].
  rewrite IH. apply perm_swap.
Qed.

Lemma sort_perm (A : Type) (cmp : A -> A -> number) (l : list A) :
  Permutation (sort cmp l) l.
Proof.
  induction l as [|x l IH]; simpl; [reflexivity|].
  rewrite insert_perm. now constructor.
Qed.








End SortFacts.

(* ====================================================================== *)
(** * Properties of the virtualization padding *)
(* ====================================================================== *)

Section PaddingFacts.
Import DataTable Scenarios.
Local Open Scope Z_scope.

Lemma nth_error_window (o : VirtualizerOptions) (first : Z) (n s i : nat) :
  (i < n)%nat ->
  nth_error (map (measure o)
               (map (fun k => first + Z.of_nat k) (seq s n))) i
  = Some (measure o (first + Z.of_nat (s + i))).
Proof.
  revert s i. induction n as [|n IH]; intros s i Hi; [lia|].
  destruct i as [|i]; simpl.
  - now rewrite Nat.add_0_r.
  - rewrite IH by lia. do 3 f_equal. lia.
Qed.

Lemma renderedHeight_window (o : VirtualizerOptions) (first : Z)
      (n s : nat) :
  renderedHeight (map (measure o)
                    (map (fun k => first + Z.of_nat k) (seq s n)))
  = Z.of_nat n * estimateSize o.
Proof.
  revert s. induction n as [|n IH]; intros s; [reflexivity|].
  cbn [seq map renderedHeight fold_right]. fold (renderedHeight
    (map (measure o) (map (fun k => first + Z.of_nat k) (seq (S s) n)))).
  rewrite IH. cbn [size measure]. lia.
Qed.

Lemma length_window (o : VirtualizerOptions) (first : Z) (n : nat) :
  List.length (map (measure o)
                 (map (fun k => first + Z.of_nat k) (seq 0 n))) = n.
Proof. now rewrite !length_map, length_seq. Qed.

(** The window is empty or the run of rows from [first] to [last], inside
    the table. *)
Lemma getVirtualItems_shape (o : VirtualizerOptions) :
  getVirtualItems o = []
  \/ exists first last,
       0 <= first /\ first <= last /\ last <= count o - 1
       /\ getVirtualItems o = map (measure o) (indexRange first last).
Proof.
  unfold getVirtualItems. destruct (scrollElement o) as [el|]; [|now left].
  destruct ((count o <=? 0) || (clientHeight el <=? 0)); [now left|].
  set (first := Z.max (startIndexOf o el - overscan o) 0).
  set (last := Z.min (endIndexOf o el (Z.to_nat (count o))
                        (startIndexOf o el) + overscan o) (count o - 1)).
  destruct (Z_le_gt_dec first last) as [Hle|Hgt].
  - right. exists first, last. repeat split; try assumption.
    + subst first. lia.
    + subst last. lia.
  - left. unfold indexRange.
    replace (Z.to_nat (last - first + 1)) with 0%nat by lia. reflexivity.
Qed.

(** C2, as the code has it.  In every render the indices of the virtual
    rows lie in [[0, count - 1]] and the total size is [count * rowHeight].
    When at least one virtual row is rendered, the top padding is the first
    index times the row height, the bottom padding is
    [(count - 1 - last index) * rowHeight], and top padding, rendered rows
    and bottom padding add up to [count * rowHeight].  When no virtual row
    is rendered, both paddings are 0. *)
Theorem C2_padding_identity :
  forall o : VirtualizerOptions,
    let l := render o in
    Forall (fun it => 0 <= index it <= count o - 1) (virtualRows l)
    /\ totalSize l = count o * estimateSize o
    /\ (virtualRows l <> [] ->
        padTop l + renderedHeight (virtualRows l) + padBottom l
        = count o * estimateSize o
        /\ exists firstRow lastRow,
             nth_error (virtualRows l) 0 = Some firstRow
             /\ nth_error (virtualRows l)
                          (List.length (virtualRows l) - 1) = Some lastRow
             /\ padTop l = index firstRow * estimateSize o
             /\ padBottom l
                = (count o - 1 - index lastRow) * estimateSize o)
    /\ (virtualRows l = [] -> padTop l = 0 /\ padBottom l = 0).
Proof.
  intros o l. subst l. unfold render. cbn [virtualRows totalSize padTop
                                             padBottom].
  destruct (getVirtualItems_shape o) as [E | (first & last & H0 & Hfl & Hl & E)].
  - rewrite E. split; [constructor|]. split; [reflexivity|].
    split; [congruence|]. intros _. now split.
  - rewrite E. unfold indexRange.
    remember (Z.to_nat (last - first + 1)) as n eqn:En.
    assert (Hn : Z.of_nat n = last - first + 1) by lia.
    destruct n as [|m]; [lia|].
    split; [|split; [reflexivity|split]].
    + rewrite Forall_map, Forall_map, Forall_forall.
      intros k Hk. apply in_seq in Hk. cbn [index measure]. lia.
    + intros _.
      pose proof (nth_error_window o first (S m) 0 0 ltac:(lia)) as Hfirst.
      pose proof (nth_error_window o first (S m) 0 m ltac:(lia)) as Hlast.
      pose proof (length_window o first (S m)) as Hlen.
      pose proof (renderedHeight_window o first (S m) 0) as Hsum.
      unfold paddingTop, paddingBottom, getTotalSize.
      rewrite Hlen, Hsum. cbn [Nat.ltb Nat.leb].
      replace (S m - 1)%nat with m by lia.
      rewrite Hfirst, Hlast. cbn [start end_ measure index].
      split; [nia|].
      eexists; eexists.
      split; [reflexivity|]. split; [reflexivity|].
      cbn [index measure]. split; nia.
    + intros Hnil. discriminate.
Qed.

(** The table of ten rows scrolled to 100 pixels renders the rows 1 to 7:
    the paddings and the rows add up to the 480 pixels of the table. *)
Lemma C2_padding_identity_witness :
  padTop (render scrolled) + renderedHeight (virtualRows (render scrolled))
  + padBottom (render scrolled) = 10 * 48.
Proof.
  apply (C2_padding_identity scrolled). vm_compute. discriminate.
Defined.

(** C2, as the claim words it, fails on the first render: ten rows make a
    table of 480 pixels, no virtual row is there yet, and the two paddings
    are 0. *)
Lemma C2_counterexample :
  virtualRows (render first_render) = []
  /\ padTop (render first_render)
     + renderedHeight (virtualRows (render first_render))
     + padBottom (render first_render)
     <> count first_render * estimateSize first_render.
Proof. split; [reflexivity | vm_compute; discriminate]. Qed.

End PaddingFacts.

(* ====================================================================== *)
(** * Further properties of the table store *)
(* ====================================================================== *)

Section StoreFrameFacts.
Import JS TableStore.

(** X1.  The filter actions never change what is persisted, and the view,
    column, sort and size actions never change the filters: the stored
    object after [setFilters], [setGlobalSearch], [addFilterCondition],
    [removeFilterCondition] or [clearFilters] is the stored object before,
    and the filters after [setViewMode], [setVisibleColumns],
    [toggleColumn], [setSorting], [setColumnVisibility] or
    [setColumnSizing] are the filters before. *)
Theorem X1_filters_and_persisted_state_are_separate :
  forall (s : TableState),
    (forall f, partialize (setFilters f s) = partialize s)
    /\ (forall q, partialize (setGlobalSearch q s) = partialize s)
    /\ (forall c, partialize (addFilterCondition c s) = partialize s)
    /\ (forall i, partialize (removeFilterCondition i s) = partialize s)
    /\ partialize (clearFilters s) = partialize s
    /\ (forall m, filters (setViewMode m s) = filters s)
    /\ (forall l, filters (setVisibleColumns l s) = filters s)
    /\ (forall c, filters (toggleColumn c s) = filters s)
    /\ (forall so, filters (setSorting so s) = filters s)
    /\ (forall v, filters (setColumnVisibility v s) = filters s)
    /\ (forall sz, filters (setColumnSizing sz s) = filters s).
Proof.
  intros s. repeat split.
  intros c. unfold toggleColumn.
  destruct (existsb _ _); [destruct (Nat.ltb _ _)|]; reflexivity.
Qed.

Lemma remove_at_last (A : Type) (l : list A) (x : A) :
  remove_at (List.length l) (l ++ [x]) = l.
Proof. induction l as [|y l IH]; simpl; [reflexivity | now rewrite IH]. Qed.

Lemma remove_at_out_of_range (A : Type) (l : list A) (i : nat) :
  (List.length l <= i)%nat -> remove_at i l = l.
Proof.
  revert i. induction l as [|y l IH]; intros i Hi; [now destruct i|].
  destruct i as [|i]; simpl in *; [lia|]. rewrite IH; [reflexivity | lia].
Qed.

Lemma remove_at_in_range (A : Type) (l : list A) (i : nat) :
  (i < List.length l)%nat ->
  remove_at i l = firstn i l ++ skipn (S i) l.
Proof.
  revert i. induction l as [|y l IH]; intros i Hi; simpl in Hi; [lia|].
  destruct i as [|i]; simpl; [reflexivity|]. rewrite IH; [reflexivity | lia].
Qed.

Lemma setFilters_same (s : TableState) : setFilters (filters s) s = s.
Proof. now destruct s. Qed.

(** X2.  Removing the condition that was just added gives back the state;
    removing at an index that is not one of the list changes nothing;
    removing at an index of the list drops exactly that condition and keeps
    the others in order. *)
Theorem X2_filter_condition_add_remove :
  forall (s : TableState) (c : FilterCondition) (i : nat),
    removeFilterCondition (List.length (conditions (filters s)))
                          (addFilterCondition c s) = s
    /\ ((List.length (conditions (filters s)) <= i)%nat ->
        removeFilterCondition i s = s)
    /\ ((i < List.length (conditions (filters s)))%nat ->
        conditions (filters (removeFilterCondition i s))
        = firstn i (conditions (filters s))
          ++ skipn (S i) (conditions (filters s))).
Proof.
  intros s c i. split; [|split].
  - unfold removeFilterCondition, addFilterCondition, setFilters. simpl.
    rewrite remove_at_last. now destruct s as [? [? ?] ? ? ? ?].
  - intros Hi. unfold removeFilterCondition.
    rewrite remove_at_out_of_range by assumption.
    destruct s as [? [? ?] ? ? ? ?]. reflexivity.
  - intros Hi. unfold removeFilterCondition. simpl.
    now apply remove_at_in_range.
Qed.

(** The default state with two conditions: index 5 is out of range and
    index 0 is in range. *)
Lemma X2_filter_condition_add_remove_witness :
  let c1 := {| column := Col_id; operator := F_equals;
               value := inl (u "A"); secondValue := None |} in
  let c2 := {| column := Col_subtotal; operator := F_gt;
               value := inr (Fin 5); secondValue := None |} in
  let s := addFilterCondition c2 (addFilterCondition c1 initialState) in
  removeFilterCondition 5 s = s
  /\ conditions (filters (removeFilterCondition 0 s)) = [c2].
Proof.
  intros c1 c2 s. split.
  - apply (X2_filter_condition_add_remove s c1 5). simpl. lia.
  - apply (X2_filter_condition_add_remove s c1 0). simpl. lia.
Defined.

Lemma others_absent (c : ColumnKey) (l : list ColumnKey) :
  ~ In c l -> others c l = l.
Proof.
  induction l as [|x l IH]; intros Hnot; [reflexivity|].
  unfold others in *. simpl.
  destruct (ColumnKey_eqb x c) eqn:E.
  - apply ColumnKey_eqb_true in E. subst. exfalso. apply Hnot. now left.
  - simpl. rewrite IH; [reflexivity|]. intros Hin. apply Hnot. now right.
Qed.

Lemma others_app (c : ColumnKey) (l1 l2 : list ColumnKey) :
  others c (l1 ++ l2) = others c l1 ++ others c l2.
Proof. unfold others. apply filter_app. Qed.

Lemma others_self (c : ColumnKey) : others c [c] = [].
Proof.
  unfold others. simpl.
  assert (E : ColumnKey_eqb c c = true) by now apply ColumnKey_eqb_true.
  now rewrite E.
Qed.

Lemma others_perm (c : ColumnKey) (l : list ColumnKey) :
  NoDup l -> In c l -> Permutation (others c l ++ [c]) l.
Proof.
  induction l as [|x l IH]; intros Hnd Hin; [contradiction|].
  inversion Hnd as [|? ? Hx Hnd']; subst.
  destruct (ColumnKey_eq_dec x c) as [->|Hxc].
  - change (c :: l) with ([c] ++ l). rewrite others_app, others_self.
    rewrite (others_absent c l Hx). simpl.
    symmetry. apply Permutation_cons_append.
  - destruct Hin as [Heq|Hin]; [contradiction|].
    unfold others. simpl.
    assert (E : ColumnKey_eqb x c = false).
    { destruct (ColumnKey_eqb x c) eqn:E; [|reflexivity].
      apply ColumnKey_eqb_true in E. contradiction. }
    rewrite E. simpl. constructor. now apply IH.
Qed.

(** X3.  Toggling a column twice.  A hidden column toggled twice leaves the
    visible columns as they were, when there was at least one; from an empty
    array the column stays, since the last column is never hidden.  A
    visible column toggled twice (among several, none listed twice) comes
    back at the end of the array: the same columns, the order changed. *)
Theorem X3_toggleColumn_twice :
  forall (s : TableState) (c : ColumnKey),
    (~ In c (visibleColumns s) -> visibleColumns s <> [] ->
     visibleColumns (toggleColumn c (toggleColumn c s)) = visibleColumns s)
    /\ (visibleColumns s = [] ->
        visibleColumns (toggleColumn c (toggleColumn c s)) = [c])
    /\ (In c (visibleColumns s) -> NoDup (visibleColumns s) ->
        (1 < List.length (visibleColumns s))%nat ->
        visibleColumns (toggleColumn c (toggleColumn c s))
        = others c (visibleColumns s) ++ [c]
        /\ Permutation (visibleColumns (toggleColumn c (toggleColumn c s)))
                       (visibleColumns s)).
Proof.
  intros s c. split; [|split].
  - intros Hnot Hne.
    rewrite toggleColumn_visible.
    assert (E1 : visibleColumns (toggleColumn c s) = visibleColumns s ++ [c]).
    { rewrite toggleColumn_visible.
      apply isVisible_not_In in Hnot. now rewrite Hnot. }
    rewrite E1.
    assert (Hin : existsb (ColumnKey_eqb c) (visibleColumns s ++ [c]) = true).
    { apply isVisible_In, in_or_app. right. now left. }
    rewrite Hin.
    assert (Hlen : Nat.ltb 1 (List.length (visibleColumns s ++ [c])) = true).
    { apply Nat.ltb_lt. rewrite length_app. simpl.
      destruct (visibleColumns s); [congruence | simpl; lia]. }
    rewrite Hlen, others_app, others_self, app_nil_r.
    now apply others_absent.
  - intros Hnil. unfold toggleColumn at 2. rewrite Hnil. simpl.
    unfold toggleColumn. simpl.
    assert (E : ColumnKey_eqb c c = true) by now apply ColumnKey_eqb_true.
    now rewrite E.
  - intros Hin Hnd Hlen.
    assert (E1 : visibleColumns (toggleColumn c s)
                 = others c (visibleColumns s)).
    { rewrite toggleColumn_visible.
      apply isVisible_In in Hin. rewrite Hin.
      apply Nat.ltb_lt in Hlen. now rewrite Hlen. }
    assert (E2 : visibleColumns (toggleColumn c (toggleColumn c s))
                 = others c (visibleColumns s) ++ [c]).
    { rewrite toggleColumn_visible, E1.
      assert (Hout : existsb (ColumnKey_eqb c)
                             (others c (visibleColumns s)) = false).
      { apply isVisible_not_In. rewrite In_others. intros [_ Hc].
        now apply Hc. }
      now rewrite Hout. }
    split; [exact E2|]. rewrite E2. now apply others_perm.
Qed.

(** The default state: the hidden column notas and the visible column id,
    each toggled twice. *)
Lemma X3_toggleColumn_twice_witness :
  visibleColumns (toggleColumn Col_notas (toggleColumn Col_notas initialState))
  = visibleColumns initialState
  /\ visibleColumns (toggleColumn Col_id (toggleColumn Col_id initialState))
     = others Col_id (visibleColumns initialState) ++ [Col_id].
Proof.
  split.
  - apply (X3_toggleColumn_twice initialState Col_notas).
    + simpl. intuition discriminate.
    + discriminate.
  - apply (X3_toggleColumn_twice initialState Col_id).
    + simpl. tauto.
    + simpl. repeat constructor; simpl; intuition discriminate.
    + simpl. lia.
Defined.

End StoreFrameFacts.

(* ====================================================================== *)
(** * Further properties of the query pipeline *)
(* ====================================================================== *)

Section PipelineFacts.
Import JS Num ParquetReader.

Lemma filter_filter (A : Type) (f g : A -> bool) (l : list A) :
  filter f (filter g l) = filter (fun x => g x && f x) l.
Proof.
  induction l as [|x l IH]; [reflexivity|].
  simpl. destruct (g x); simpl; [destruct (f x)|]; now rewrite IH.
Qed.

Lemma filter_true (A : Type) (l : list A) : filter (fun _ => true) l = l.
Proof. induction l as [|x l IH]; simpl; [reflexivity | now rewrite IH]. Qed.

Lemma filter_idem (A : Type) (f : A -> bool) (l : list A) :
  filter f (filter f l) = filter f l.
Proof.
  rewrite filter_filter. apply filter_ext. intros x. now destruct (f x).
Qed.

(** X4.  The four filters of [queryWorkItems] compose into one test: the
    rows kept are, in their order, the rows that pass every filter that is
    switched on (a search or category that is the empty string, and a bound
    that is left out, are switched off).  Filtering twice is filtering once,
    and without options every row is kept. *)
Theorem X4_filters_are_a_conjunction :
  forall (rt : Runtime) (options : QueryOptions) (rows : list Row),
    applyFilters options rows
    = filter (fun row =>
                match search options with
                | Some (c :: q) => matchesSearch (toLowerCase (c :: q)) row
                | _ => true
                end
                && match category options with
                   | Some (c :: cat) => matchesCategory (c :: cat) row
                   | _ => true
                   end
                && match minPrice options with
                   | Some m => matchesMinPrice m row
                   | None => true
                   end
                && match maxPrice options with
                   | Some m => matchesMaxPrice m row
                   | None => true
                   end) rows
    /\ applyFilters options (applyFilters options rows)
       = applyFilters options rows
    /\ applyFilters noOptions rows = rows.
Proof.
  intros rt options rows.
  assert (Hconj : forall l,
    applyFilters options l
    = filter (fun row =>
                match search options with
                | Some (c :: q) => matchesSearch (toLowerCase (c :: q)) row
                | _ => true
                end
                && match category options with
                   | Some (c :: cat) => matchesCategory (c :: cat) row
                   | _ => true
                   end
                && match minPrice options with
                   | Some m => matchesMinPrice m row
                   | None => true
                   end
                && match maxPrice options with
                   | Some m => matchesMaxPrice m row
                   | None => true
                   end) l).
  { intros l. unfold applyFilters. cbv zeta.
    destruct (search options) as [[|c q]|];
      destruct (category options) as [[|c' cat]|];
      destruct (minPrice options) as [mn|];
      destruct (maxPrice options) as [mx|];
      rewrite <- (filter_true _ l) at 1;
      rewrite ?filter_filter; apply filter_ext; intros row;
      simpl; rewrite ?andb_true_r, ?andb_assoc; reflexivity. }
  split; [apply Hconj|]. split.
  - rewrite !Hconj. apply filter_idem.
  - reflexivity.
Qed.

Lemma slice_front (A : Type) (l : list A) (from len : Z) :
  (0 <= from)%Z -> (0 <= len)%Z ->
  slice l from (from + len)
  = firstn (Z.to_nat len) (skipn (Z.to_nat from) l).
Proof.
  intros Hfrom Hlen. unfold slice.
  assert (E1 : (from <? 0)%Z = false) by (apply Z.ltb_ge; lia).
  assert (E2 : (from + len <? 0)%Z = false) by (apply Z.ltb_ge; lia).
  rewrite E1, E2.
  set (n := Z.of_nat (List.length l)).
  destruct (Z_le_gt_dec from n) as [Hle|Hgt].
  - rewrite (Z.min_l from n) by lia.
    destruct (Z_le_gt_dec (from + len) n) as [Hle2|Hgt2].
    + rewrite (Z.min_l (from + len) n) by lia. f_equal. lia.
    + rewrite (Z.min_r (from + len) n) by lia.
      rewrite !firstn_all2; try reflexivity;
        rewrite length_skipn; subst n; lia.
  - rewrite (Z.min_r from n), (Z.min_r (from + len) n) by lia.
    replace (Z.to_nat (n - n)) with 0%nat by lia.
    rewrite !skipn_all2 by (subst n; lia).
    now rewrite !firstn_nil.
Qed.

Lemma map_indexed (A B C : Type) (f : nat -> A -> B) (g : B -> C)
      (h : A -> C) (l : list A) (s : nat) :
  (forall i x, g (f i x) = h x) ->
  map g (map (fun ix => f (fst ix) (snd ix))
           (combine (seq s (List.length l)) l))
  = map h l.
Proof.
  intros Hgh. revert s. induction l as [|x l IH]; intros s; [reflexivity|].
  simpl. now rewrite Hgh, IH.
Qed.

Lemma map_indexed_ids (A B C : Type) (f : nat -> A -> B) (g : B -> C)
      (h : nat -> C) (l : list A) (s : nat) :
  (forall i x, g (f i x) = h i) ->
  map g (map (fun ix => f (fst ix) (snd ix))
           (combine (seq s (List.length l)) l))
  = map h (seq s (List.length l)).
Proof.
  intros Hgh. revert s. induction l as [|x l IH]; intros s; [reflexivity|].
  simpl. now rewrite Hgh, IH.
Qed.

(** X5.  Pagination.  The total counts the rows after the filters, whatever
    the page.  For a page of at least 1 and a limit of at least 0 the items
    are the rows of the sorted result from position [(page - 1) * limit],
    at most [limit] of them, numbered from [(page - 1) * limit + 1]; a page
    past the end has no items.  Page 0 has no items either. *)
Theorem X5_pagination :
  forall (rt : Runtime) (rows : list Row) (options : QueryOptions),
    let pg := match page options with Some p => p | None => 1%Z end in
    let lim := match limit options with Some l => l | None => 100%Z end in
    let sorted := sortRows options (applyFilters options rows) in
    let result := queryWorkItems rows options in
    total result = List.length (applyFilters options rows)
    /\ ((1 <= pg)%Z -> (0 <= lim)%Z ->
        map rate_code (items result)
        = map (fun row => safeString (get row "rate_code"))
              (firstn (Z.to_nat lim)
                      (skipn (Z.to_nat ((pg - 1) * lim)) sorted))
        /\ (List.length (items result) <= Z.to_nat lim)%nat
        /\ map id (items result)
           = map (fun k => numberToString
                             (num_of_Z ((pg - 1) * lim + Z.of_nat k + 1)))
                 (seq 0 (List.length (items result)))
        /\ ((Z.of_nat (total result) <= (pg - 1) * lim)%Z ->
            items result = []))
    /\ (pg = 0%Z -> (0 <= lim)%Z -> items result = []).
Proof.
  intros rt rows options pg lim sorted result.
  split; [reflexivity|]. split.
  - intros Hpg Hlim.
    assert (Hoff : (0 <= (pg - 1) * lim)%Z) by nia.
    assert (Eitems : items result
              = map (fun ir => toWorkItem ((pg - 1) * lim) (fst ir) (snd ir))
                    (combine
                       (seq 0 (List.length
                                 (firstn (Z.to_nat lim)
                                    (skipn (Z.to_nat ((pg - 1) * lim))
                                           sorted))))
                       (firstn (Z.to_nat lim)
                          (skipn (Z.to_nat ((pg - 1) * lim)) sorted)))).
    { subst result. unfold queryWorkItems. cbn [items].
      fold pg. fold lim. fold sorted.
      now rewrite (slice_front _ sorted ((pg - 1) * lim) lim Hoff Hlim). }
    assert (Elen : List.length (items result)
                   = List.length (firstn (Z.to_nat lim)
                                    (skipn (Z.to_nat ((pg - 1) * lim))
                                           sorted))).
    { rewrite Eitems, length_map, length_combine, length_seq.
      apply Nat.min_id. }
    split; [|split; [|split]].
    + rewrite Eitems.
      apply (map_indexed _ _ _
               (fun i row => toWorkItem ((pg - 1) * lim) i row)).
      reflexivity.
    + rewrite Elen, length_firstn. lia.
    + rewrite Elen, Eitems.
      apply (map_indexed_ids _ _ _
               (fun i row => toWorkItem ((pg - 1) * lim) i row)).
      reflexivity.
    + intros Hpast. rewrite Eitems.
      assert (Hlen : List.length sorted = total result).
      { subst sorted result. unfold queryWorkItems, sortRows. cbn [total].
        apply Permutation_length, sort_perm. }
      rewrite (skipn_all2 sorted) by lia.
      now rewrite firstn_nil.
  - intros Hpg Hlim. subst result. unfold queryWorkItems. cbn [items].
    fold pg. fold lim. fold sorted. rewrite Hpg.
    unfold slice.
    assert (E2 : ((0 - 1) * lim + lim <? 0)%Z = false)
      by (apply Z.ltb_ge; lia).
    rewrite E2.
    set (n := Z.of_nat (List.length sorted)).
    assert (Hz : Z.to_nat (Z.min ((0 - 1) * lim + lim) n
                           - (if ((0 - 1) * lim <? 0)%Z
                              then Z.max (n + (0 - 1) * lim) 0
                              else Z.min ((0 - 1) * lim) n)) = 0%nat).
    { destruct ((0 - 1) * lim <? 0)%Z eqn:E; subst n; lia. }
    rewrite Hz. reflexivity.
Qed.

(** The three rows of the scenario, two per page: the second page holds the
    third row, numbered 3. *)
Lemma X5_pagination_witness :
  map id (items (queryWorkItems (rt := Host.host) Scenarios.three_rows
                   {| page := Some 2%Z; limit := Some 2%Z; search := None;
                      category := None; sortBy := None; sortOrder := None;
                      minPrice := None; maxPrice := None |}))
  = map (fun k => numberToString (Runtime := Host.host)
                    (num_of_Z ((2 - 1) * 2 + Z.of_nat k + 1)))
        (seq 0 (List.length
                  (items (queryWorkItems (rt := Host.host)
                            Scenarios.three_rows
                            {| page := Some 2%Z; limit := Some 2%Z;
                               search := None; category := None;
                               sortBy := None; sortOrder := None;
                               minPrice := None; maxPrice := None |})))).
Proof.
  apply (X5_pagination Host.host Scenarios.three_rows
           {| page := Some 2%Z; limit := Some 2%Z; search := None;
              category := None; sortBy := None; sortOrder := None;
              minPrice := None; maxPrice := None |}); simpl; lia.
Defined.

End PipelineFacts.

Section SortOrderFacts.
Import JS Num ParquetReader.

(** X6.  The sort column is always one of the four columns that may be
    sorted: a [sortBy] that is none of them gives exactly the result of
    leaving [sortBy] out, which sorts by [rate_code]. *)
Theorem X6_unknown_sort_column :
  forall (rt : Runtime) (rows : list Row) (options : QueryOptions)
         (column : string),
    In (safeSortOf options) validSortColumns
    /\ (existsb (String.eqb column) validSortColumns = false ->
        queryWorkItems rows
          {| page := page options; limit := limit options;
             search := search options; category := category options;
             sortBy := Some column; sortOrder := sortOrder options;
             minPrice := minPrice options; maxPrice := maxPrice options |}
        = queryWorkItems rows
            {| page := page options; limit := limit options;
               search := search options; category := category options;
               sortBy := None; sortOrder := sortOrder options;
               minPrice := minPrice options; maxPrice := maxPrice options |}).
Proof.
  intros rt rows options column. split.
  - unfold safeSortOf. destruct (sortBy options) as [c|].
    + destruct (existsb (String.eqb c) validSortColumns) eqn:E.
      * apply existsb_exists in E. destruct E as [x [Hin Heq]].
        apply String.eqb_eq in Heq. now subst.
      * simpl. tauto.
    + simpl. tauto.
  - intros Hbad. unfold queryWorkItems, sortRows, safeSortOf, sortOrderOf,
      applyFilters.
    cbn [page limit search category sortBy sortOrder minPrice maxPrice].
    now rewrite Hbad.
Qed.

(** A request to sort by a column that is not one of the four. *)
Lemma X6_unknown_sort_column_witness :
  queryWorkItems (rt := Host.host) Scenarios.three_rows
    {| page := None; limit := None; search := None; category := None;
       sortBy := Some "subcategory"%string; sortOrder := None;
       minPrice := None; maxPrice := None |}
  = queryWorkItems (rt := Host.host) Scenarios.three_rows
      {| page := None; limit := None; search := None; category := None;
         sortBy := None; sortOrder := None;
         minPrice := None; maxPrice := None |}.
Proof.
  apply (X6_unknown_sort_column Host.host Scenarios.three_rows noOptions
           "subcategory"%string).
  reflexivity.
Defined.

(** The insertion sort orders by any relation that the comparator decides
    on the elements that satisfy [P]. *)
Lemma insert_sorted (A : Type) (cmp : A -> A -> number) (P : A -> Prop)
      (R : A -> A -> Prop) :
  (forall x y z, R x y -> R y z -> R x z) ->
  (forall x y, P x -> P y -> is_positive (cmp x y) = false -> R x y) ->
  (forall x y, P x -> P y -> is_positive (cmp x y) = true -> R y x) ->
  forall (x : A) (l : list A),
    P x -> Forall P l -> StronglySorted R l ->
    StronglySorted R (insert cmp x l).
Proof.
  intros Htrans Hle Hgt x l Px. induction l as [|y l IH]; intros HP Hs.
  - simpl. constructor; constructor.
  - inversion HP as [|? ? Py HPl]; subst.
    inversion Hs as [|? ? Hsl Hyl]; subst.
    simpl. destruct (is_positive (cmp x y)) eqn:E.
    + constructor; [now apply IH|].
      eapply Permutation_Forall; [symmetry; apply insert_perm|].
      constructor; [now apply Hgt | assumption].
    + constructor; [assumption|].
      constructor; [now apply Hle|].
      apply Forall_forall. intros z Hz.
      apply Htrans with (y := y); [now apply Hle|].
      rewrite Forall_forall in Hyl. now apply Hyl.
Qed.

Lemma sort_sorted (A : Type) (cmp : A -> A -> number) (P : A -> Prop)
      (R : A -> A -> Prop) :
  (forall x y z, R x y -> R y z -> R x z) ->
  (forall x y, P x -> P y -> is_positive (cmp x y) = false -> R x y) ->
  (forall x y, P x -> P y -> is_positive (cmp x y) = true -> R y x) ->
  forall l : list A, Forall P l -> StronglySorted R (sort cmp l).
Proof.
  intros Htrans Hle Hgt l. induction l as [|x l IH]; intros HP.
  - constructor.
  - inversion HP as [|? ? Px HPl]; subst.
    cbn [sort fold_right]. fold (sort cmp l).
    apply (insert_sorted A cmp P R Htrans Hle Hgt); [assumption| |now apply IH].
    eapply Permutation_Forall; [symmetry; apply sort_perm | assumption].
Qed.

Lemma sub_not_positive (x y : Q) :
  is_positive (num_sub (Fin x) (Fin y)) = false -> (x <= y)%Q.
Proof.
  simpl. intros H. apply negb_false_iff, Qle_bool_iff in H. lra.
Qed.

Lemma sub_positive (x y : Q) :
  is_positive (num_sub (Fin x) (Fin y)) = true -> (y <= x)%Q.
Proof.
  simpl. intros H. apply negb_true_iff in H.
  destruct (Qlt_le_dec 0 (x - y)) as [Hlt|Hle]; [lra|].
  apply Qle_bool_iff in Hle. congruence.
Qed.

(** X7.  Sorting by a column whose cells are all finite numbers orders the
    rows by these numbers: in ascending order no row holds a smaller number
    than a row before it, in descending order none holds a larger one. *)
Theorem X7_numeric_sort_orders_rows :
  forall (rt : Runtime) (column : string) (rows : list Row),
    Forall (fun r => exists q, get r column = VNum (Fin q)) rows ->
    let key := fun r => match get r column with
                        | VNum (Fin q) => q
                        | _ => 0%Q
                        end in
    StronglySorted (fun a b => (key a <= key b)%Q)
                   (sort (compareRows column Asc) rows)
    /\ StronglySorted (fun a b => (key b <= key a)%Q)
                      (sort (compareRows column Desc) rows).
Proof.
  intros rt column rows Hnum key.
  split.
  - apply (sort_sorted Row (compareRows column Asc)
             (fun r => exists q, get r column = VNum (Fin q))).
    + intros x y z. apply Qle_trans.
    + intros x y [qx Hx] [qy Hy]. subst key. unfold compareRows. cbv beta.
      rewrite Hx, Hy. apply sub_not_positive.
    + intros x y [qx Hx] [qy Hy]. subst key. unfold compareRows. cbv beta.
      rewrite Hx, Hy. apply sub_positive.
    + exact Hnum.
  - apply (sort_sorted Row (compareRows column Desc)
             (fun r => exists q, get r column = VNum (Fin q))).
    + intros x y z H1 H2. now apply Qle_trans with (y := key y).
    + intros x y [qx Hx] [qy Hy]. subst key. unfold compareRows. cbv beta.
      rewrite Hx, Hy. apply sub_not_positive.
    + intros x y [qx Hx] [qy Hy]. subst key. unfold compareRows. cbv beta.
      rewrite Hx, Hy. apply sub_positive.
    + exact Hnum.
Qed.

(** The four priced rows of the scenario, sorted by price. *)
Lemma X7_numeric_sort_orders_rows_witness :
  StronglySorted
    (fun a b =>
       (match get a "resource_price_per_unit" with
        | VNum (Fin q) => q
        | _ => 0%Q
        end
        <= match get b "resource_price_per_unit" with
           | VNum (Fin q) => q
           | _ => 0%Q
           end)%Q)
    (sort (compareRows (rt := Host.host) "resource_price_per_unit" Asc)
          Scenarios.duplicate_rows).
Proof.
  apply (X7_numeric_sort_orders_rows Host.host "resource_price_per_unit"
           Scenarios.duplicate_rows).
  repeat constructor; eexists; reflexivity.
Defined.

End SortOrderFacts.

(* ====================================================================== *)
(** * Properties of insertion-ordered maps *)
(* ====================================================================== *)

Section MapFacts.
Import JS.

Lemma str_eqb_true (a b : jsstring) : str_eqb a b = true <-> a = b.
Proof.
  unfold str_eqb. destruct (list_eq_dec N.eq_dec a b); split; congruence.
Qed.

Lemma str_eqb_refl (a : jsstring) : str_eqb a a = true.
Proof. now apply str_eqb_true. Qed.

Lemma str_eqb_false (a b : jsstring) : str_eqb a b = false <-> a <> b.
Proof.
  unfold str_eqb. destruct (list_eq_dec N.eq_dec a b); split; congruence.
Qed.

Lemma get_set_same (V : Type) (k : jsstring) (v : V) (m : JSMap.t V) :
  JSMap.get k (JSMap.set k v m) = Some v.
Proof.
  induction m as [|[k' v'] m IH]; simpl.
  - now rewrite str_eqb_refl.
  - destruct (str_eqb k' k) eqn:E; simpl.
    + now rewrite str_eqb_refl.
    + now rewrite E.
Qed.

Lemma get_set_other (V : Type) (k k2 : jsstring) (v : V) (m : JSMap.t V) :
  k <> k2 -> JSMap.get k2 (JSMap.set k v m) = JSMap.get k2 m.
Proof.
  intros Hne. induction m as [|[k' v'] m IH]; simpl.
  - apply str_eqb_false in Hne. now rewrite Hne.
  - destruct (str_eqb k' k) eqn:E; simpl.
    + apply str_eqb_true in E. subst k'.
      apply str_eqb_false in Hne. now rewrite Hne.
    + destruct (str_eqb k' k2); [reflexivity | exact IH].
Qed.

Lemma get_In_keys (V : Type) (k : jsstring) (m : JSMap.t V) :
  JSMap.get k m <> None <-> In k (JSMap.keys m).
Proof.
  induction m as [|[k' v'] m IH]; simpl.
  - split; [congruence | contradiction].
  - destruct (str_eqb k' k) eqn:E.
    + apply str_eqb_true in E. split; [now left | discriminate].
    + apply str_eqb_false in E. rewrite IH. split; [now right|].
      intros [Heq|Hin]; [contradiction | assumption].
Qed.

Lemma keys_set (V : Type) (k : jsstring) (v : V) (m : JSMap.t V) :
  JSMap.keys (JSMap.set k v m)
  = if JSMap.has k m then JSMap.keys m else JSMap.keys m ++ [k].
Proof.
  unfold JSMap.has. induction m as [|[k' v'] m IH]; simpl; [reflexivity|].
  destruct (str_eqb k' k) eqn:E; simpl.
  - apply str_eqb_true in E. now subst.
  - rewrite IH. now destruct (JSMap.get k m).
Qed.

Lemma keys_set_NoDup (V : Type) (k : jsstring) (v : V) (m : JSMap.t V) :
  NoDup (JSMap.keys m) -> NoDup (JSMap.keys (JSMap.set k v m)).
Proof.
  intros Hnd. rewrite keys_set. unfold JSMap.has.
  destruct (JSMap.get k m) eqn:E; [assumption|].
  apply NoDup_rev in Hnd. rewrite <- (rev_involutive (_ ++ [k])).
  apply NoDup_rev. rewrite rev_app_distr. simpl. constructor; [|assumption].
  rewrite <- in_rev. intros Hin. apply get_In_keys in Hin. congruence.
Qed.

Lemma In_get (V : Type) (k : jsstring) (v : V) (m : JSMap.t V) :
  NoDup (JSMap.keys m) -> In (k, v) m -> JSMap.get k m = Some v.
Proof.
  induction m as [|[k' v'] m IH]; intros Hnd Hin; [contradiction|].
  simpl in Hnd. inversion Hnd as [|? ? Hk Hnd']; subst.
  simpl. destruct Hin as [Heq|Hin].
  - inversion Heq; subst. now rewrite str_eqb_refl.
  - destruct (str_eqb k' k) eqn:E.
    + apply str_eqb_true in E. subst k'. exfalso. apply Hk.
      change k with (fst (k, v)). now apply in_map.
    + now apply IH.
Qed.

Lemma get_delete_same (V : Type) (k : jsstring) (m : JSMap.t V) :
  NoDup (JSMap.keys m) -> JSMap.get k (JSMap.delete k m) = None.
Proof.
  induction m as [|[k' v'] m IH]; intros Hnd; [reflexivity|].
  simpl in Hnd. inversion Hnd as [|? ? Hk Hnd']; subst.
  simpl. destruct (str_eqb k' k) eqn:E.
  - apply str_eqb_true in E. subst k'.
    destruct (JSMap.get k m) eqn:G; [|reflexivity].
    exfalso. apply Hk. apply get_In_keys. congruence.
  - simpl. rewrite E. now apply IH.
Qed.

Lemma get_delete_other (V : Type) (k k2 : jsstring) (m : JSMap.t V) :
  k <> k2 -> JSMap.get k2 (JSMap.delete k m) = JSMap.get k2 m.
Proof.
  intros Hne. induction m as [|[k' v'] m IH]; [reflexivity|].
  simpl. destruct (str_eqb k' k) eqn:E.
  - apply str_eqb_true in E. subst k'.
    apply str_eqb_false in Hne. now rewrite Hne.
  - simpl. destruct (str_eqb k' k2); [reflexivity | exact IH].
Qed.

Lemma delete_absent (V : Type) (k : jsstring) (m : JSMap.t V) :
  JSMap.get k m = None -> JSMap.delete k m = m.
Proof.
  induction m as [|[k' v'] m IH]; intros H; [reflexivity|].
  simpl in *. destruct (str_eqb k' k); [discriminate|].
  now rewrite IH.
Qed.

Lemma keys_delete_NoDup (V : Type) (k : jsstring) (m : JSMap.t V) :
  NoDup (JSMap.keys m) -> NoDup (JSMap.keys (JSMap.delete k m)).
Proof.
  induction m as [|[k' v'] m IH]; intros Hnd; [constructor|].
  simpl in Hnd. inversion Hnd as [|? ? Hk Hnd']; subst.
  simpl. destruct (str_eqb k' k); [assumption|].
  simpl. constructor; [|now apply IH].
  intros Hin. apply Hk. apply get_In_keys. apply get_In_keys in Hin.
  destruct (list_eq_dec N.eq_dec k k') as [->|Hne].
  - exfalso. clear - Hin Hk Hnd'. apply Hin. now apply get_delete_same.
  - now rewrite get_delete_other in Hin.
Qed.

End MapFacts.

(* ====================================================================== *)
(** * Properties of the result cache *)
(* ====================================================================== *)

Section CacheFacts.
Import JS ParquetCache.
Local Open Scope Z_scope.

(** X8.  A result stored at the time [t0] is served, and the cache left as
    it is, as long as less than five minutes (300000 ms) have passed; from
    then on a lookup answers nothing and removes the entry.  In both cases
    the entries under other keys stay as they were before the store, and a
    lookup of a key that is not cached answers nothing and changes
    nothing. *)
Theorem X8_query_cache_expiry :
  forall (D : Type) (t0 t1 : Z) (key : jsstring) (d : D)
         (cache : QueryCache D),
    NoDup (JSMap.keys cache) ->
    let stored := setCachedResult t0 key d cache in
    (t1 - t0 < 300000 -> getCachedResult t1 key stored = (Some d, stored))
    /\ (300000 <= t1 - t0 ->
        fst (getCachedResult t1 key stored) = None
        /\ JSMap.get key (snd (getCachedResult t1 key stored)) = None)
    /\ (forall k2, k2 <> key ->
          JSMap.get k2 (snd (getCachedResult t1 key stored))
          = JSMap.get k2 cache)
    /\ (JSMap.get key cache = None ->
        getCachedResult t1 key cache = (None, cache)).
Proof.
  intros D t0 t1 key d cache Hnd stored.
  assert (Hget : JSMap.get key stored
                 = Some {| data := d; timestamp := t0 |}).
  { apply get_set_same. }
  assert (Hnd' : NoDup (JSMap.keys stored)).
  { now apply keys_set_NoDup. }
  split; [|split; [|split]].
  - intros Hfresh. unfold getCachedResult. rewrite Hget. cbn [timestamp data].
    assert (E : (t1 - t0 <? QUERY_CACHE_TTL) = true).
    { apply Z.ltb_lt. unfold QUERY_CACHE_TTL. lia. }
    now rewrite E.
  - intros Hold. unfold getCachedResult. rewrite Hget. cbn [timestamp data].
    assert (E : (t1 - t0 <? QUERY_CACHE_TTL) = false).
    { apply Z.ltb_ge. unfold QUERY_CACHE_TTL. lia. }
    rewrite E. cbn [fst snd]. split; [reflexivity|].
    now apply get_delete_same.
  - intros k2 Hne. unfold getCachedResult. rewrite Hget. cbn [timestamp data].
    destruct (t1 - t0 <? QUERY_CACHE_TTL); cbn [snd].
    + apply get_set_other. congruence.
    + rewrite get_delete_other by congruence.
      apply get_set_other. congruence.
  - intros Hmiss. unfold getCachedResult. rewrite Hmiss.
    now rewrite delete_absent.
Qed.

(** A result stored in an empty cache at time 1000, looked up one minute
    and six minutes later. *)
Lemma X8_query_cache_expiry_witness :
  getCachedResult 61000 (u "stats:es-barcelona")
    (setCachedResult 1000 (u "stats:es-barcelona") 42%nat [])
  = (Some 42%nat, setCachedResult 1000 (u "stats:es-barcelona") 42%nat [])
  /\ fst (getCachedResult 361000 (u "stats:es-barcelona")
            (setCachedResult 1000 (u "stats:es-barcelona") 42%nat []))
     = None.
Proof.
  split.
  - apply (X8_query_cache_expiry nat 1000 61000 (u "stats:es-barcelona")
             42%nat []); [constructor | lia].
  - apply (X8_query_cache_expiry nat 1000 361000 (u "stats:es-barcelona")
             42%nat []); [constructor | lia].
Defined.

End CacheFacts.

(* ====================================================================== *)
(** * Properties of the statistics *)
(* ====================================================================== *)

Section StatsFacts.
Import JS Num ParquetReader ParquetStats.



Lemma num_lt_Fin (a b : Q) : num_lt (Fin a) (Fin b) = true <-> (a < b)%Q.
Proof.
  simpl. rewrite negb_true_iff. split.
  - intros H. destruct (Qlt_le_dec a b) as [Hlt|Hle]; [assumption|].
    apply Qle_bool_iff in Hle. congruence.
  - intros Hlt. destruct (Qle_bool b a) eqn:E; [|reflexivity].
    apply Qle_bool_iff in E. lra.
Qed.






End StatsFacts.

Section CountingFacts.
Import JS Num.

(** A loop that counts into a map, one key per element at most: the count
    under a key grows by the number of elements that fall under it. *)
Lemma fold_count (V A : Type) (keyOf : A -> option jsstring)
      (cnt : V -> nat) (upd : option V -> A -> V)
      (step : JSMap.t V -> A -> JSMap.t V) :
  (forall o a, cnt (upd o a)
               = S (match o with Some v => cnt v | None => 0 end)) ->
  (forall m a, step m a
               = match keyOf a with
                 | Some k => JSMap.set k (upd (JSMap.get k m) a) m
                 | None => m
                 end) ->
  forall (l : list A) (m : JSMap.t V) (k : jsstring),
    match JSMap.get k (fold_left step l m) with
    | Some v => cnt v
    | None => 0
    end
    = match JSMap.get k m with Some v => cnt v | None => 0 end
      + List.length
          (filter (fun a => match keyOf a with
                            | Some k' => str_eqb k' k
                            | None => false
                            end) l).
Proof.
  intros Hcnt Hstep l. induction l as [|a l IH]; intros m k.
  - simpl. lia.
  - cbn [fold_left filter]. rewrite IH, Hstep.
    destruct (keyOf a) as [k'|].
    + destruct (str_eqb k' k) eqn:E.
      * apply str_eqb_true in E. subst k'.
        rewrite get_set_same, Hcnt. simpl. lia.
      * apply str_eqb_false in E. rewrite get_set_other by assumption.
        reflexivity.
    + reflexivity.
Qed.

Lemma fold_keys_NoDup (V A : Type) (keyOf : A -> option jsstring)
      (upd : option V -> A -> V) (step : JSMap.t V -> A -> JSMap.t V) :
  (forall m a, step m a
               = match keyOf a with
                 | Some k => JSMap.set k (upd (JSMap.get k m) a) m
                 | None => m
                 end) ->
  forall (l : list A) (m : JSMap.t V),
    NoDup (JSMap.keys m) -> NoDup (JSMap.keys (fold_left step l m)).
Proof.
  intros Hstep l. induction l as [|a l IH]; intros m Hnd; [assumption|].
  cbn [fold_left]. apply IH. rewrite Hstep.
  destruct (keyOf a); [now apply keys_set_NoDup | assumption].
Qed.

Lemma fold_keys_origin (V A : Type) (keyOf : A -> option jsstring)
      (upd : option V -> A -> V) (step : JSMap.t V -> A -> JSMap.t V) :
  (forall m a, step m a
               = match keyOf a with
                 | Some k => JSMap.set k (upd (JSMap.get k m) a) m
                 | None => m
                 end) ->
  forall (l : list A) (m : JSMap.t V) (k : jsstring),
    In k (JSMap.keys (fold_left step l m)) ->
    In k (JSMap.keys m) \/ exists a, In a l /\ keyOf a = Some k.
Proof.
  intros Hstep l. induction l as [|a l IH]; intros m k Hin; [now left|].
  cbn [fold_left] in Hin. apply IH in Hin. destruct Hin as [Hin|[b [Hb Hk]]].
  - rewrite Hstep in Hin. destruct (keyOf a) as [k'|] eqn:Ek.
    + rewrite keys_set in Hin. destruct (JSMap.has k' m); [now left|].
      apply in_app_or in Hin. destruct Hin as [Hin|[<-|[]]]; [now left|].
      right. exists a. split; [now left | assumption].
    + now left.
  - right. exists b. split; [now right | assumption].
Qed.

Lemma Qle_bool_false (a b : Q) : Qle_bool a b = false -> (b < a)%Q.
Proof.
  intros H. destruct (Qlt_le_dec b a) as [Hlt|Hle]; [assumption|].
  apply Qle_bool_iff in Hle. congruence.
Qed.

End CountingFacts.

(* ====================================================================== *)
(** * Properties of the cost ranges and of the categories *)
(* ====================================================================== *)

Section RangeFacts.
Import JS Num ParquetReader ParquetStats.








End RangeFacts.

Section CategoryFacts.
Import JS Num ParquetReader ParquetStats.

Lemma take_NoDup (A : Type) (n : nat) (l : list A) :
  NoDup l -> NoDup (firstn n l).
Proof.
  intros Hnd. rewrite <- (firstn_skipn n l) in Hnd.
  now apply NoDup_app_remove_r in Hnd.
Qed.

Lemma take_In (A : Type) (n : nat) (l : list A) (x : A) :
  In x (firstn n l) -> In x l.
Proof.
  intros Hin. rewrite <- (firstn_skipn n l). apply in_or_app. now left.
Qed.

Lemma take_sorted (A : Type) (R : A -> A -> Prop) (n : nat) (l : list A) :
  StronglySorted R l -> StronglySorted R (firstn n l).
Proof.
  revert n. induction l as [|x l IH]; intros n Hs.
  - now rewrite firstn_nil.
  - destruct n as [|n]; [constructor|].
    inversion Hs as [|? ? Hsl Hall]; subst. simpl. constructor.
    + now apply IH.
    + apply Forall_forall. intros y Hy. rewrite Forall_forall in Hall.
      apply Hall. now apply take_In in Hy.
Qed.

Lemma slice_top (A : Type) (l : list A) (n : Z) :
  (0 <= n)%Z -> slice l 0 n = firstn (Z.to_nat n) l.
Proof.
  intros Hn. change n with (0 + n)%Z at 1.
  now rewrite (slice_front A l 0 n (Z.le_refl 0) Hn).
Qed.

Lemma category_step_counts (rt : Runtime) (m : JSMap.t CategoryAcc)
      (row : Row) :
  category_step m row
  = match Some (categoryOf row) with
    | Some k =>
        JSMap.set k
          {| acc_count :=
               match JSMap.get k m with
               | Some e => acc_count e
               | None => 0
               end + 1;
             acc_totalCost :=
               num_add match JSMap.get k m with
                       | Some e => acc_totalCost e
                       | None => num_of_Z 0
                       end (priceOf row) |} m
    | None => m
    end.
Proof.
  unfold category_step. now destruct (JSMap.get (categoryOf row) m).
Qed.

Lemma categoryOf_not_empty (rt : Runtime) (row : Row) : categoryOf row <> [].
Proof.
  unfold categoryOf. destruct (safeString (get row "category_type"));
    discriminate.
Qed.

Lemma count_not_positive (a b : nat) :
  is_positive (num_sub (num_of_nat b) (num_of_nat a)) = false ->
  (b <= a)%nat.
Proof.
  intros H. apply sub_not_positive in H.
  rewrite <- Zle_Qle in H. lia.
Qed.

Lemma count_positive (a b : nat) :
  is_positive (num_sub (num_of_nat b) (num_of_nat a)) = true ->
  (a <= b)%nat.
Proof.
  intros H. apply sub_positive in H.
  rewrite <- Zle_Qle in H. lia.
Qed.

(** X11.  The categories of the statistics: at most twenty are listed, no
    category twice and none with an empty name, in the order of their
    counts, largest first.  The count of a listed category is the number of
    rows of that category, a row without a category counting under
    "Unknown", and is at least one. *)
Theorem X11_stats_by_category :
  forall (rt : Runtime) (rows : list Row),
    let st := getStats rows in
    NoDup (map cat_category (byCategory st))
    /\ (List.length (byCategory st) <= 20)%nat
    /\ StronglySorted (fun a b => (cat_count b <= cat_count a)%nat)
                      (byCategory st)
    /\ Forall (fun e =>
                 cat_count e
                 = List.length
                     (filter (fun row =>
                                str_eqb (categoryOf row) (cat_category e))
                             rows)
                 /\ (0 < cat_count e)%nat
                 /\ cat_category e <> [])
              (byCategory st).
Proof.
  intros rt rows st.
  set (categoryMap := fold_left category_step rows []).
  set (mk := fun e : jsstring * CategoryAcc =>
               {| cat_category := fst e; cat_count := acc_count (snd e);
                  cat_totalCost := acc_totalCost (snd e) |}).
  assert (Est : byCategory st
                = firstn 20 (sort compareByCount (map mk categoryMap))).
  { subst st. unfold getStats. cbn [byCategory].
    fold categoryMap. fold mk. now rewrite slice_top by lia. }
  set (upd := fun (o : option CategoryAcc) (row : Row) =>
                {| acc_count :=
                     match o with Some e => acc_count e | None => 0 end + 1;
                   acc_totalCost :=
                     num_add match o with
                             | Some e => acc_totalCost e
                             | None => num_of_Z 0
                             end (priceOf row) |}).
  assert (Hstep : forall m a,
             category_step m a
             = match Some (categoryOf a) with
               | Some k => JSMap.set k (upd (JSMap.get k m) a) m
               | None => m
               end).
  { intros m a. apply category_step_counts. }
  assert (Hkeys : NoDup (JSMap.keys categoryMap)).
  { apply (fold_keys_NoDup CategoryAcc Row
             (fun row => Some (categoryOf row)) upd category_step Hstep).
    constructor. }
  assert (Hperm : Permutation (sort compareByCount (map mk categoryMap))
                              (map mk categoryMap)).
  { apply sort_perm. }
  rewrite Est. split; [|split; [|split]].
  - rewrite <- firstn_map. apply take_NoDup.
    apply (Permutation_NoDup (l := map cat_category (map mk categoryMap))).
    + symmetry. now apply Permutation_map.
    + rewrite map_map. exact Hkeys.
  - rewrite length_firstn. lia.
  - apply take_sorted.
    apply (sort_sorted CategoryStat compareByCount (fun _ => True)).
    + intros x y z H1 H2. lia.
    + intros x y _ _ H. now apply count_not_positive.
    + intros x y _ _ H. now apply count_positive.
    + apply Forall_forall. tauto.
  - apply Forall_forall. intros e He. apply take_In in He.
    apply (Permutation_in _ Hperm) in He.
    apply in_map_iff in He. destruct He as [[k acc] [<- Hin]].
    cbn [mk cat_category cat_count fst snd].
    pose proof (In_get CategoryAcc k acc categoryMap Hkeys Hin) as Hget.
    pose proof (fold_count CategoryAcc Row
                  (fun row => Some (categoryOf row)) acc_count upd
                  category_step) as Hcount.
    assert (Hcnt : forall o a,
               acc_count (upd o a)
               = S match o with Some v => acc_count v | None => 0 end).
    { intros o a. unfold upd. cbn [acc_count]. lia. }
    specialize (Hcount Hcnt Hstep rows [] k).
    fold categoryMap in Hcount. rewrite Hget in Hcount.
    cbn [JSMap.get Nat.add] in Hcount.
    assert (Hk : In k (JSMap.keys categoryMap)).
    { change k with (fst (k, acc)). now apply in_map. }
    apply (fold_keys_origin CategoryAcc Row
             (fun row => Some (categoryOf row)) upd category_step Hstep)
      in Hk.
    destruct Hk as [[]|[row [Hrow Hcat]]].
    assert (Hcat' : categoryOf row = k) by congruence.
    split; [exact Hcount|]. split.
    + rewrite Hcount.
      assert (Hin' : In row (filter (fun a => str_eqb (categoryOf a) k)
                                    rows)).
      { apply filter_In. split; [assumption|].
        rewrite Hcat'. apply str_eqb_refl. }
      destruct (filter (fun a => str_eqb (categoryOf a) k) rows);
        [contradiction | simpl; lia].
    + rewrite <- Hcat'. apply categoryOf_not_empty.
Qed.

End CategoryFacts.

(* ====================================================================== *)
(** * Properties of the general utilities *)
(* ====================================================================== *)

Section UtilsFacts.
Import JS Num ParquetReader Utils.

Ltac clamp_atoms v lo hi :=
  unfold clamp, Math_max, Math_min;
  destruct (Qle_bool v lo) eqn:E1; destruct (Qle_bool lo hi) eqn:E2;
  destruct (Qle_bool v hi) eqn:E3;
  repeat match goal with
         | H : Qle_bool _ _ = true |- _ => apply Qle_bool_iff in H
         | H : Qle_bool _ _ = false |- _ => apply Qle_bool_false in H
         end.

(** X12.  [clamp] with finite arguments and [min <= max]: a value below
    [min] gives [min], a value above [max] gives [max], a value in between
    gives itself, so the result always lies in the range.  With the bounds
    exchanged ([max < min]) the result is [max] whatever the value.
    Clamping twice is clamping once, and NaN in any argument gives NaN. *)
Theorem X12_clamp_range :
  forall (v lo hi : Q),
    ((lo <= hi)%Q ->
     ((v < lo)%Q -> clamp (Fin v) (Fin lo) (Fin hi) = Fin lo)
     /\ ((hi < v)%Q -> clamp (Fin v) (Fin lo) (Fin hi) = Fin hi)
     /\ ((lo <= v <= hi)%Q ->
         num_eqb (clamp (Fin v) (Fin lo) (Fin hi)) (Fin v) = true)
     /\ num_le (Fin lo) (clamp (Fin v) (Fin lo) (Fin hi)) = true
     /\ num_le (clamp (Fin v) (Fin lo) (Fin hi)) (Fin hi) = true)
    /\ ((hi < lo)%Q -> clamp (Fin v) (Fin lo) (Fin hi) = Fin hi)
    /\ num_eqb (clamp (clamp (Fin v) (Fin lo) (Fin hi)) (Fin lo) (Fin hi))
               (clamp (Fin v) (Fin lo) (Fin hi)) = true
    /\ clamp NaN (Fin lo) (Fin hi) = NaN
    /\ clamp (Fin v) NaN (Fin hi) = NaN
    /\ clamp (Fin v) (Fin lo) NaN = NaN.
Proof.
  intros v lo hi. split; [|split; [|split]].
  - intros Hrange. split; [|split; [|split; [|split]]].
    + intros H. clamp_atoms v lo hi; try reflexivity; lra.
    + intros H. clamp_atoms v lo hi; try reflexivity; lra.
    + intros H. clamp_atoms v lo hi; simpl;
        try (apply Qeq_bool_iff; lra); lra.
    + clamp_atoms v lo hi; simpl; try (apply Qle_bool_iff; lra); lra.
    + clamp_atoms v lo hi; simpl; try (apply Qle_bool_iff; lra); lra.
  - intros H. clamp_atoms v lo hi; try reflexivity; lra.
  - unfold clamp, Math_max, Math_min.
    destruct (Qle_bool v lo) eqn:E1; destruct (Qle_bool lo hi) eqn:E2;
      destruct (Qle_bool v hi) eqn:E3;
      rewrite ?E1, ?E2, ?E3;
      try (destruct (Qle_bool lo lo) eqn:E4);
      try (destruct (Qle_bool hi lo) eqn:E5);
      try (destruct (Qle_bool hi hi) eqn:E6);
      rewrite ?E1, ?E2, ?E3;
      repeat match goal with
             | H : Qle_bool _ _ = true |- _ => apply Qle_bool_iff in H
             | H : Qle_bool _ _ = false |- _ => apply Qle_bool_false in H
             end;
      simpl; try (apply Qeq_bool_iff; lra); lra.
  - repeat split. unfold clamp, Math_max, Math_min.
    now destruct (Qle_bool v lo).
Qed.

(** The value 15 clamped to the range from 0 to 10, and to the exchanged
    bounds 10 and 0. *)
Lemma X12_clamp_range_witness :
  clamp (Fin 15) (Fin 0) (Fin 10) = Fin 10
  /\ clamp (Fin 5) (Fin 10) (Fin 0) = Fin 0.
Proof.
  split.
  - destruct (X12_clamp_range 15 0 10) as [Hrange _].
    destruct Hrange as (_ & Habove & _); [lra|]. apply Habove. lra.
  - destruct (X12_clamp_range 5 10 0) as (_ & Hswap & _). apply Hswap. lra.
Defined.

(** X13.  [truncate]: a text of at most [maxLength] code units is returned
    as it is.  A longer text, for a [maxLength] of at least 3, is cut to its
    first [maxLength - 3] code units followed by three dots, [maxLength]
    code units in all.  For a [maxLength] below 3 the cut is counted from
    the end of the text, and the result is longer than [maxLength]. *)
Theorem X13_truncate_length :
  forall (text : jsstring) (maxLength : Z),
    let len := Z.of_nat (List.length text) in
    ((len <= maxLength)%Z -> truncate text maxLength = text)
    /\ ((3 <= maxLength)%Z -> (maxLength < len)%Z ->
        truncate text maxLength
        = firstn (Z.to_nat (maxLength - 3)) text ++ u "..."
        /\ Z.of_nat (List.length (truncate text maxLength)) = maxLength)
    /\ ((maxLength < 3)%Z -> (maxLength < len)%Z ->
        truncate text maxLength
        = firstn (Z.to_nat (len + (maxLength - 3))) text ++ u "..."
        /\ (maxLength < Z.of_nat (List.length (truncate text maxLength)))%Z).
Proof.
  intros text maxLength len. split; [|split].
  - intros Hle. unfold truncate. fold len.
    apply Z.leb_le in Hle. now rewrite Hle.
  - intros H3 Hlt. unfold truncate. fold len.
    assert (E : (len <=? maxLength)%Z = false) by (apply Z.leb_gt; lia).
    rewrite E, (slice_top _ text (maxLength - 3)) by lia.
    split; [reflexivity|].
    rewrite length_app, length_firstn. simpl. subst len. lia.
  - intros H3 Hlt. unfold truncate. fold len.
    assert (E : (len <=? maxLength)%Z = false) by (apply Z.leb_gt; lia).
    rewrite E. unfold slice. fold len.
    assert (E0 : (0 <? 0)%Z = false) by reflexivity.
    assert (E1 : (maxLength - 3 <? 0)%Z = true) by (apply Z.ltb_lt; lia).
    rewrite E0, E1. cbn [skipn Z.to_nat].
    replace (Z.to_nat (Z.max (len + (maxLength - 3)) 0 - Z.min 0 len))
      with (Z.to_nat (len + (maxLength - 3))) by (subst len; lia).
    replace (Z.to_nat (Z.min 0 len)) with 0%nat by (subst len; lia).
    cbn [skipn]. split; [reflexivity|].
    rewrite length_app. simpl. lia.
Qed.

(** "concrete" cut to 6 code units, and to 2. *)
Lemma X13_truncate_length_witness :
  truncate (u "concrete") 6 = firstn 3 (u "concrete") ++ u "..."
  /\ (2 < Z.of_nat (List.length (truncate (u "concrete") 2)))%Z.
Proof.
  split.
  - apply (X13_truncate_length (u "concrete") 6); simpl; lia.
  - apply (X13_truncate_length (u "concrete") 2); simpl; lia.
Defined.

End UtilsFacts.

(* ====================================================================== *)
(** * Properties of the segments of a query *)
(* ====================================================================== *)

Section SegmentFacts.
Import JS Regex SmartFilter.

Lemma dropWhile_suffix (A : Type) (p : A -> bool) (l : list A) :
  exists pre, l = pre ++ dropWhile p l.
Proof.
  induction l as [|x l [pre IH]].
  - now exists [].
  - simpl. destruct (p x).
    + exists (x :: pre). simpl. now f_equal.
    + now exists [].
Qed.

Lemma dropWhile_head (A : Type) (p : A -> bool) (l : list A) (x : A)
      (t : list A) :
  dropWhile p l = x :: t -> p x = false.
Proof.
  induction l as [|y l IH]; simpl; [discriminate|].
  destruct (p y) eqn:E; [exact IH|].
  intros H. inversion H; subst. exact E.
Qed.

Lemma dropWhile_fixed (A : Type) (p : A -> bool) (l : list A) :
  match l with [] => True | x :: _ => p x = false end ->
  dropWhile p l = l.
Proof. destruct l as [|x l]; simpl; [reflexivity|]. now intros ->. Qed.

Lemma trim_idempotent (s : jsstring) : trim (trim s) = trim s.
Proof.
  unfold trim.
  set (d := dropWhile is_space s).
  set (e := dropWhile is_space (rev d)).
  assert (He : match e with [] => True | x :: _ => is_space x = false end).
  { destruct e as [|x e'] eqn:E; [exact I|].
    now apply (dropWhile_head _ is_space (rev d) x e'). }
  assert (Hd : match d with [] => True | x :: _ => is_space x = false end).
  { destruct d as [|x d'] eqn:E; [exact I|].
    now apply (dropWhile_head _ is_space s x d'). }
  assert (Ht : match rev e with
               | [] => True
               | x :: _ => is_space x = false
               end).
  { destruct (dropWhile_suffix _ is_space (rev d)) as [pre Hpre].
    fold e in Hpre.
    assert (Hd' : d = rev e ++ rev pre).
    { rewrite <- rev_app_distr, <- Hpre. now rewrite rev_involutive. }
    destruct (rev e) as [|x t]; [exact I|].
    rewrite Hd' in Hd. exact Hd. }
  rewrite (dropWhile_fixed _ is_space (rev e) Ht).
  rewrite rev_involutive.
  now rewrite (dropWhile_fixed _ is_space e He).
Qed.

Lemma trim_incl (s : jsstring) (c : N) : In c (trim s) -> In c s.
Proof.
  unfold trim. intros H. apply in_rev in H.
  destruct (dropWhile_suffix _ is_space (rev (dropWhile is_space s)))
    as [pre Hpre].
  assert (H1 : In c (rev (dropWhile is_space s))).
  { rewrite Hpre. apply in_or_app. now right. }
  apply in_rev in H1.
  destruct (dropWhile_suffix _ is_space s) as [pre2 Hpre2].
  rewrite Hpre2. apply in_or_app. now right.
Qed.

Lemma length_dropWhile (A : Type) (p : A -> bool) (l : list A) :
  (List.length (dropWhile p l) <= List.length l)%nat.
Proof.
  induction l as [|x l IH]; simpl; [lia|].
  destruct (p x); simpl; lia.
Qed.

Lemma trim_head_not_space (c : N) (s : jsstring) :
  trim (c :: s) = c :: s -> is_space c = false.
Proof.
  intros H. destruct (is_space c) eqn:E; [|reflexivity]. exfalso.
  assert (Hlen : (List.length (trim (c :: s)) <= List.length s)%nat).
  { unfold trim. rewrite length_rev.
    etransitivity; [apply length_dropWhile|].
    rewrite length_rev. simpl. rewrite E. apply length_dropWhile. }
  rewrite H in Hlen. simpl in Hlen. lia.
Qed.

End SegmentFacts.

Section SplitFacts.
Import JS Regex SmartFilter RegexShape.

Lemma match_length_separator (c : N) (s : jsstring) :
  is_separator c = true ->
  match_length true delimiter_re (c :: s) = Some 1.
Proof.
  intros Hc. unfold match_length, exec_at, delimiter_re.
  change (alts [Cls (fun c0 => N.eqb c0 44 || N.eqb c0 59);
                Seq (Plus (Cls is_space))
                    (Seq (lit "y") (Plus (Cls is_space)));
                Seq (Plus (Cls is_space))
                    (Seq (lit "and") (Plus (Cls is_space)))])
    with (Alt (Cls is_separator)
              (Alt (Seq (Plus (Cls is_space))
                        (Seq (lit "y") (Plus (Cls is_space))))
                   (Seq (Plus (Cls is_space))
                        (Seq (lit "and") (Plus (Cls is_space)))))).
  cbn [mt]. rewrite Hc. f_equal. cbn [List.length]. lia.
Qed.

(** The pieces of a split hold code units of the text only, and neither a
    comma nor a semicolon. *)
Lemma split_go_pieces (s : jsstring) :
  forall (skip : nat) (cur piece : jsstring),
    In piece (split_go true delimiter_re skip cur s) ->
    (forall c, In c piece -> In c cur \/ In c s)
    /\ (Forall (fun c => is_separator c = false) cur ->
        Forall (fun c => is_separator c = false) piece).
Proof.
  induction s as [|c s IH]; intros skip cur piece Hin.
  - simpl in Hin. destruct Hin as [<-|[]]. split.
    + intros c Hc. left. now apply in_rev.
    + intros Hcur. now apply Forall_rev.
  - cbn [split_go] in Hin. destruct skip as [|n].
    + destruct (match_length true delimiter_re (c :: s)) as [[|n]|] eqn:E.
      * assert (Hc : is_separator c = false).
        { destruct (is_separator c) eqn:Ec; [|reflexivity].
          rewrite (match_length_separator c s Ec) in E. discriminate. }
        destruct (IH 0%nat (c :: cur) piece Hin) as [H1 H2]. split.
        -- intros x Hx. destruct (H1 x Hx) as [[<-|Hx']|Hx'].
           ++ right. now left.
           ++ now left.
           ++ right. now right.
        -- intros Hcur. apply H2. now constructor.
      * destruct Hin as [<-|Hin].
        -- split.
           ++ intros x Hx. left. now apply in_rev.
           ++ intros Hcur. now apply Forall_rev.
        -- destruct (IH n [] piece Hin) as [H1 H2]. split.
           ++ intros x Hx. destruct (H1 x Hx) as [[]|Hx']. right. now right.
           ++ intros _. apply H2. constructor.
      * assert (Hc : is_separator c = false).
        { destruct (is_separator c) eqn:Ec; [|reflexivity].
          rewrite (match_length_separator c s Ec) in E. discriminate. }
        destruct (IH 0%nat (c :: cur) piece Hin) as [H1 H2]. split.
        -- intros x Hx. destruct (H1 x Hx) as [[<-|Hx']|Hx'].
           ++ right. now left.
           ++ now left.
           ++ right. now right.
        -- intros Hcur. apply H2. now constructor.
    + destruct (IH n cur piece Hin) as [H1 H2]. split.
      * intros x Hx. destruct (H1 x Hx) as [Hx'|Hx']; [now left|].
        right. now right.
      * exact H2.
Qed.

(** What splitting, trimming and dropping the empty pieces leave. *)
Lemma segments_clean (query segment : jsstring) :
  In segment (segments query) ->
  segment <> []
  /\ trim segment = segment
  /\ (forall c, In c segment -> In c query)
  /\ ~ In 44%N segment
  /\ ~ In 59%N segment.
Proof.
  intros Hin. unfold segments in Hin.
  apply filter_In in Hin. destruct Hin as [Hin Hne].
  apply in_map_iff in Hin. destruct Hin as [piece [<- Hpiece]].
  unfold split in Hpiece.
  destruct (split_go_pieces query 0%nat [] piece Hpiece) as [Hincl Hsep].
  specialize (Hsep (Forall_nil _)). rewrite Forall_forall in Hsep.
  split; [|split; [|split; [|split]]].
  - intros E. rewrite E in Hne. discriminate.
  - apply trim_idempotent.
  - intros c Hc. apply trim_incl in Hc.
    destruct (Hincl c Hc) as [[]|Hq]. exact Hq.
  - intros Hc. apply trim_incl in Hc. apply Hsep in Hc. discriminate.
  - intros Hc. apply trim_incl in Hc. apply Hsep in Hc. discriminate.
Qed.

(** A query of white space, commas and semicolons has no segment. *)
Lemma blank_segments (query : jsstring) :
  Forall (fun c => is_space c = true \/ c = 44%N \/ c = 59%N) query ->
  segments query = [].
Proof.
  intros Hblank.
  destruct (segments query) as [|seg segs] eqn:E; [reflexivity|]. exfalso.
  destruct (segments_clean query seg) as (Hne & Htrim & Hq & H44 & H59).
  { rewrite E. now left. }
  destruct seg as [|c seg']; [now apply Hne|].
  pose proof (trim_head_not_space c seg' Htrim) as Hsp.
  rewrite Forall_forall in Hblank.
  destruct (Hblank c (Hq c (or_introl eq_refl))) as [Hs|[->| ->]].
  - congruence.
  - apply H44. now left.
  - apply H59. now left.
Qed.

(** A string that trims to nothing is white space throughout. *)
Lemma trim_empty_spaces (s : jsstring) :
  trim s = [] -> Forall (fun c => is_space c = true) s.
Proof.
  unfold trim. intros H.
  assert (Hd : dropWhile is_space s = []).
  { apply (f_equal (@rev N)) in H. rewrite rev_involutive in H.
    cbn [rev] in H.
    destruct (rev (dropWhile is_space s)) as [|x t] eqn:E.
    - apply (f_equal (@rev N)) in E. rewrite rev_involutive in E. exact E.
    - exfalso. cbn [dropWhile] in H.
      destruct (is_space x) eqn:Ex; [|discriminate].
      assert (Hall : forall l, dropWhile is_space s = l ->
                               l = [] \/ exists y l', l = y :: l'
                                                      /\ is_space y = false).
      { intros l <-. destruct (dropWhile is_space s) as [|y l'] eqn:Ed;
          [now left|]. right. exists y, l'. split; [reflexivity|].
        exact (dropWhile_head _ _ _ _ _ Ed). }
      destruct (Hall _ eq_refl) as [Hn|(y & l' & Hy & Hsp)].
      + rewrite Hn in E. discriminate.
      + rewrite Hy in E. cbn [rev] in E.
        assert (Hin : In y (x :: t)).
        { rewrite <- E. apply in_or_app. right. now left. }
        assert (Hsuf : forall l, dropWhile is_space l = []
                                 -> Forall (fun c => is_space c = true) l).
        { induction l as [|z l IHl]; [constructor|]. cbn [dropWhile].
          destruct (is_space z) eqn:Ez; [|discriminate].
          intros Hl. constructor; [exact Ez | now apply IHl]. }
        pose proof (Hsuf _ H) as Ht. rewrite Forall_forall in Ht.
        destruct Hin as [<-|Hin]; [congruence|].
        specialize (Ht y Hin). cbv beta in Ht. congruence. }
  clear H. induction s as [|z l IHl]; [constructor|].
  cbn [dropWhile] in Hd. destruct (is_space z) eqn:Ez; [|discriminate].
  constructor; [exact Ez | now apply IHl].
Qed.

(** X14.  The segments of a query are never empty, carry no white space at
    either end, hold neither a comma nor a semicolon, and are made of code
    units of the query. *)
Theorem X14_segments_are_clean :
  forall (query segment : jsstring),
    In segment (segments query) ->
    segment <> []
    /\ trim segment = segment
    /\ (forall c, In c segment -> In c query)
    /\ ~ In 44%N segment
    /\ ~ In 59%N segment.
Proof. exact segments_clean. Qed.

(** The segments of the scenario query. *)
Lemma X14_segments_are_clean_witness :
  trim (u "area < 50m2") = u "area < 50m2"
  /\ ~ In 44%N (u "area < 50m2").
Proof.
  destruct (X14_segments_are_clean Scenarios.scenario_query
              (u "area < 50m2")) as (_ & Htrim & _ & Hcomma & _).
  - vm_compute. tauto.
  - split; assumption.
Defined.

(** X15.  A query made of white space, commas and semicolons only (the
    empty query among them) has no segment: it parses to no filter, reports
    nothing as unrecognized, is not a success, and leaves the id counter as
    it was. *)
Theorem X15_blank_query_parses_to_nothing :
  forall (rt : Runtime) (query : jsstring) (counter : N),
    Forall (fun c => is_space c = true \/ c = 44%N \/ c = 59%N) query ->
    segments query = []
    /\ parseNaturalLanguageQuery query counter
       = ({| success := false; filters := []; unrecognized := [] |}, counter).
Proof.
  intros rt query counter Hblank.
  pose proof (blank_segments query Hblank) as Hsegs.
  split; [exact Hsegs|].
  unfold parseNaturalLanguageQuery, run_loop. now rewrite Hsegs.
Qed.

(** The query of two spaces, a comma, a semicolon and a tab. *)
Lemma X15_blank_query_parses_to_nothing_witness :
  segments [32; 32; 44; 59; 9]%N = [].
Proof.
  apply (X15_blank_query_parses_to_nothing Host.host [32; 32; 44; 59; 9]%N 0).
  repeat constructor; vm_compute; tauto.
Defined.

End SplitFacts.

(* ====================================================================== *)
(** * Properties of the values the parser extracts *)
(* ====================================================================== *)

Section ExtractFacts.
Import JS Regex SmartFilter RegexShape.

(** A pattern without groups hands its continuation a rest that is no
    longer than the input, and the groups it was given. *)
Lemma mt_nogroup (icase : bool) (A : Type) (r : regex) :
  nogroup r = true ->
  forall (s : jsstring) (caps : list jsstring) (k : cont A) (a : A),
    mt icase r s caps k = Some a ->
    exists s', (List.length s' <= List.length s)%nat /\ k s' caps = Some a.
Proof.
  induction r as [| c | p | r1 IH1 r2 IH2 | r1 IH1 r2 IH2 | r1 IH1
                  | r1 IH1 | r1 IH1]; intros Hng s caps k a H.
  - exists s. split; [lia | exact H].
  - cbn [mt] in H. destruct s as [|x s']; [discriminate|].
    destruct (chr_eqb icase c x); [|discriminate].
    exists s'. split; [simpl; lia | exact H].
  - cbn [mt] in H. destruct s as [|x s']; [discriminate|].
    destruct (p x); [|discriminate].
    exists s'. split; [simpl; lia | exact H].
  - cbn [nogroup] in Hng. apply andb_true_iff in Hng. destruct Hng as [H1 H2].
    rewrite mt_Seq in H.
    destruct (IH1 H1 _ _ _ _ H) as [s1 [Hl1 Hk1]].
    destruct (IH2 H2 _ _ _ _ Hk1) as [s2 [Hl2 Hk2]].
    exists s2. split; [lia | exact Hk2].
  - cbn [nogroup] in Hng. apply andb_true_iff in Hng. destruct Hng as [H1 H2].
    cbn [mt] in H. destruct (mt icase r1 s caps k) eqn:E.
    + inversion H; subst. now apply (IH1 H1 _ _ _ _ E).
    + now apply (IH2 H2 _ _ _ _ H).
  - cbn [nogroup] in Hng. cbn [mt] in H.
    destruct (mt icase r1 s caps k) eqn:E.
    + inversion H; subst. now apply (IH1 Hng _ _ _ _ E).
    + exists s. split; [lia | exact H].
  - cbn [nogroup] in Hng. cbn [mt] in H.
    revert H. generalize (List.length s) at 1. intros n. revert s caps.
    induction n as [|n IHn]; intros s caps H.
    + exists s. split; [lia | exact H].
    + match type of H with
      | match ?X with _ => _ end = _ => destruct X eqn:E
      end.
      * inversion H; subst.
        destruct (IH1 Hng _ _ _ _ E) as [s1 [Hl1 Hk1]].
        destruct (Nat.ltb (List.length s1) (List.length s)); [|discriminate].
        destruct (IHn _ _ Hk1) as [s2 [Hl2 Hk2]].
        exists s2. split; [lia | exact Hk2].
      * exists s. split; [lia | exact H].
  - discriminate.
Qed.

(** A match of the decimal group starts with a digit, and the group is the
    text it took. *)
Lemma mt_decimal_group (icase : bool) (A : Type) (s : jsstring)
      (caps : list jsstring) (k : cont A) (a : A) :
  mt icase (Grp decimal_re) s caps k = Some a ->
  exists c group s',
    is_digit c = true
    /\ k s' (caps ++ [c :: group]) = Some a.
Proof.
  intros H. rewrite mt_Grp in H. unfold decimal_re, Plus in H.
  rewrite !mt_Seq, mt_Cls in H.
  destruct s as [|c s0]; [discriminate|].
  destruct (is_digit c) eqn:Ed; [|discriminate].
  apply (mt_nogroup icase A (Star (Cls is_digit)) eq_refl) in H.
  destruct H as [s1 [Hl1 H]].
  apply (mt_nogroup icase A
           (Opt (Seq (Cls (fun c0 => N.eqb c0 46 || N.eqb c0 44))
                     (Seq (Cls is_digit) (Star (Cls is_digit)))))
           eq_refl) in H.
  destruct H as [s' [Hl' H]].
  exists c, (firstn (List.length s0 - List.length s') s0), s'.
  split; [exact Ed|].
  replace (c :: firstn (List.length s0 - List.length s') s0)
    with (firstn (List.length (c :: s0) - List.length s') (c :: s0));
    [exact H|].
  cbn [List.length].
  replace (S (List.length s0) - List.length s')%nat
    with (S (List.length s0 - List.length s')) by lia.
  reflexivity.
Qed.

Lemma exec_groups (icase : bool) (r : regex) (s : jsstring)
      (m : list jsstring) :
  exec icase r s = Some m ->
  exists t rest caps whole,
    exec_at icase r t = Some (rest, caps) /\ m = whole :: caps.
Proof.
  revert m. induction s as [|c s IH]; intros m H.
  - simpl in H. destruct (exec_at icase r []) as [[rest caps]|] eqn:E;
      [|discriminate].
    inversion H; subst. now exists [], rest, caps, (firstn (0 - List.length rest) []).
  - simpl in H. destruct (exec_at icase r (c :: s)) as [[rest caps]|] eqn:E.
    + inversion H; subst. eexists (c :: s), rest, caps, _. now split.
    + now apply IH.
Qed.

(** The number a group of digits denotes is finite and not negative. *)
Lemma parseFloat_digit_head (c : N) (s : jsstring) :
  is_digit c = true ->
  exists q, parseFloat (c :: s) = Fin q /\ (0 <= q)%Q.
Proof.
  intros Hd. unfold parseFloat. cbn [span_digits]. rewrite Hd.
  destruct (span_digits s) as [ds r1].
  assert (HB : exists q, Fin (Z.of_N (digits_value (c :: ds)) # 1)%Q = Fin q
                         /\ (0 <= q)%Q).
  { eexists. split; [reflexivity|]. unfold Qle. cbn [Qnum Qden]. lia. }
  destruct r1 as [|x r2]; [exact HB|].
  destruct x as [|p]; [exact HB|].
  do 6 (destruct p as [p|p|]; try exact HB).
  destruct (span_digits r2) as [fp r3].
  eexists. split; [reflexivity|].
  rewrite Qred_correct. unfold Qle. cbn [Qnum Qden]. lia.
Qed.

Lemma decimal_of_digits (c : N) (group : jsstring) :
  is_digit c = true ->
  exists q, decimal_of (c :: group) = Fin q /\ (0 <= q)%Q.
Proof.
  intros Hd. unfold decimal_of.
  assert (Hc : N.eqb c 44 = false).
  { unfold is_digit in Hd. apply andb_true_iff in Hd. destruct Hd as [H1 _].
    apply N.leb_le in H1. apply N.eqb_neq. lia. }
  cbn [replaceFirst]. rewrite Hc. now apply parseFloat_digit_head.
Qed.

(** X16.  What [extractValue] returns is well formed: a number is never
    NaN and never negative, since a sign before the digits is not read;
    the two numbers of a range likewise; a text value is not empty and has
    no white space at either end. *)
Theorem X16_extracted_values_are_well_formed :
  forall (text : jsstring) (v : FilterValue),
    extractValue text = Some v ->
    match v with
    | ValNumber n => exists q, n = Fin q /\ (0 <= q)%Q
    | ValRange lo hi =>
        (exists q, lo = Fin q /\ (0 <= q)%Q)
        /\ (exists q, hi = Fin q /\ (0 <= q)%Q)
    | ValString s => s <> [] /\ trim s = s
    end.
Proof.
  intros text v H. unfold extractValue in H.
  destruct (rangeMatch text) as [m|] eqn:Er.
  - inversion H; subst. unfold rangeMatch in Er.
    destruct (exec_groups _ _ _ _ Er) as (t & rest & caps & whole & Hat & ->).
    unfold exec_at, range_re in Hat. rewrite mt_Seq in Hat.
    apply mt_decimal_group in Hat.
    destruct Hat as (c1 & g1 & s1 & Hd1 & Hat).
    rewrite mt_Seq in Hat.
    apply (mt_nogroup true _ (Star (Cls is_space)) eq_refl) in Hat.
    destruct Hat as [s2 [_ Hat]]. rewrite mt_Seq in Hat.
    apply (mt_nogroup true _ (alts [lit "-"; lit "to"; lit "a"; lit "y"])
             eq_refl) in Hat.
    destruct Hat as [s3 [_ Hat]]. rewrite mt_Seq in Hat.
    apply (mt_nogroup true _ (Star (Cls is_space)) eq_refl) in Hat.
    destruct Hat as [s4 [_ Hat]].
    apply mt_decimal_group in Hat.
    destruct Hat as (c2 & g2 & s5 & Hd2 & Hat).
    inversion Hat; subst. cbn [app nth].
    split; now apply decimal_of_digits.
  - destruct (numberMatch text) as [m|] eqn:En.
    + inversion H; subst. unfold numberMatch in En.
      destruct (exec_groups _ _ _ _ En) as (t & rest & caps & whole & Hat & ->).
      unfold exec_at, number_re in Hat.
      apply mt_decimal_group in Hat.
      destruct Hat as (c1 & g1 & s1 & Hd1 & Hat).
      inversion Hat; subst. cbn [app nth].
      now apply decimal_of_digits.
    + destruct (Nat.ltb 0 (List.length (cleanedText text))) eqn:El;
        [|discriminate].
      inversion H; subst. split.
      * intros E. rewrite E in El. discriminate.
      * unfold cleanedText. apply trim_idempotent.
Qed.

(** "cost > -5": the sign is not read and the value is 5.  "name hello":
    the letters the cleaning step takes for operator words are gone, and
    the text value is what is left. *)
Lemma X16_extracted_values_are_well_formed_witness :
  (exists q, Fin 5 = Fin q /\ (0 <= q)%Q)
  /\ u "nme hell" <> [].
Proof.
  split.
  - apply (X16_extracted_values_are_well_formed (u "cost > -5")
             (ValNumber (Fin 5))).
    vm_compute. reflexivity.
  - apply (X16_extracted_values_are_well_formed (u "name hello")
             (ValString (u "nme hell"))).
    vm_compute. reflexivity.
Defined.

End ExtractFacts.

(* ====================================================================== *)
(** * The filter id counter *)
(* ====================================================================== *)

Section CounterFacts.
Import JS Regex SmartFilter.
Context {rt : Runtime}.

Lemma parse_segment_counter (c : N) (st : loop_state) (segment : jsstring) :
  let numbered (s : loop_state) :=
    ls_counter s = (c + N.of_nat (List.length (ls_filters s)))%N
    /\ map id (ls_filters s)
       = map (fun k => fst (generateFilterId (c + N.of_nat k)%N))
           (seq 0 (List.length (ls_filters s))) in
  numbered st -> numbered (parse_segment st segment).
Proof.
  cbv zeta. intros [Hc Hids].
  destruct (recognised segment) eqn:Er.
  - destruct (parse_segment_recognised st segment Er)
      as (flt & Est & _ & _ & _ & _ & _ & Hid).
    rewrite Est. cbn [ls_counter ls_filters].
    rewrite length_app. cbn [List.length]. split; [lia|].
    rewrite Nat.add_1_r, seq_S, !map_app, <- Hids. cbn [map Nat.add].
    now rewrite Hid, Hc.
  - rewrite (parse_segment_unrecognised st segment Er).
    cbn [ls_counter ls_filters]. now split.
Qed.

Lemma run_loop_counter (c : N) (segs : list jsstring) :
  ls_counter (run_loop segs c)
  = (c + N.of_nat (List.length (ls_filters (run_loop segs c))))%N
  /\ map id (ls_filters (run_loop segs c))
     = map (fun k => fst (generateFilterId (c + N.of_nat k)%N))
         (seq 0 (List.length (ls_filters (run_loop segs c)))).
Proof.
  unfold run_loop.
  assert (H : forall segs st,
             (ls_counter st
              = (c + N.of_nat (List.length (ls_filters st)))%N
              /\ map id (ls_filters st)
                 = map (fun k => fst (generateFilterId (c + N.of_nat k)%N))
                     (seq 0 (List.length (ls_filters st)))) ->
             ls_counter (fold_left parse_segment segs st)
             = (c + N.of_nat
                      (List.length
                         (ls_filters (fold_left parse_segment segs st))))%N
             /\ map id (ls_filters (fold_left parse_segment segs st))
                = map (fun k => fst (generateFilterId (c + N.of_nat k)%N))
                    (seq 0 (List.length
                              (ls_filters
                                 (fold_left parse_segment segs st))))).
  { clear segs. induction segs as [|seg segs IH]; intros st Hst;
      [exact Hst|].
    cbn [fold_left]. apply IH.
    exact (parse_segment_counter c st seg Hst). }
  apply H. cbn [ls_counter ls_filters List.length map seq]. split; [lia|].
  reflexivity.
Qed.

(** X17.  One call of the parser advances the id counter by exactly the
    number of filters it returns, whatever else the query holds, and the
    k-th filter carries the id made from the counter's k-th value after
    the one the call started from. *)
Theorem X17_filter_ids_follow_the_counter :
  forall (query : jsstring) (filterIdCounter : N),
    let result := parseNaturalLanguageQuery query filterIdCounter in
    snd result
    = (filterIdCounter + N.of_nat (List.length (filters (fst result))))%N
    /\ map id (filters (fst result))
       = map (fun k =>
                fst (generateFilterId (filterIdCounter + N.of_nat k)%N))
           (seq 0 (List.length (filters (fst result)))).
Proof.
  intros query c. cbv zeta. unfold parseNaturalLanguageQuery.
  cbn [fst snd filters]. apply run_loop_counter.
Qed.

End CounterFacts.

(* ====================================================================== *)
(** * The handlers of the filter input *)
(* ====================================================================== *)

Section SubmitFacts.
Import JS Regex SmartFilter SmartFilterComponent.
Context {rt : Runtime}.

(** X18.  Submitting the input never drops or reorders a filter that is
    already active: the new list is the old one followed by one filter for
    each recognised segment of the input, in the order of the segments.
    The input is cleared exactly when a filter was added, the suggestions
    are hidden unless the input was blank, and the id counter advances by
    the number of filters added. *)
Theorem X18_submit_appends_filters :
  forall (st : InputState) (filterIdCounter : N),
    let st' := fst (handleSubmit st filterIdCounter) in
    exists added : list ParsedFilter,
      activeFilters st' = activeFilters st ++ added
      /\ map rawInput added
         = filter recognised (segments (inputValue st))
      /\ inputValue st'
         = match added with [] => inputValue st | _ :: _ => [] end
      /\ snd (handleSubmit st filterIdCounter)
         = (filterIdCounter + N.of_nat (List.length added))%N
      /\ showSuggestions st'
         = match trim (inputValue st) with
           | [] => showSuggestions st
           | _ :: _ => false
           end.
Proof.
  intros st c. cbv zeta. unfold handleSubmit.
  destruct (trim (inputValue st)) as [|x t] eqn:Et.
  - exists []. cbn [fst snd List.length map]. rewrite app_nil_r.
    split; [reflexivity|]. split.
    + rewrite (blank_segments (inputValue st)); [reflexivity|].
      apply trim_empty_spaces in Et. rewrite Forall_forall in *.
      intros ch Hch. left. now apply Et.
    + split; [reflexivity|]. split; [cbn; lia|]. reflexivity.
  - unfold parseNaturalLanguageQuery.
    pose proof (loop_shape (segments (inputValue st))
                  {| ls_filters := []; ls_unrecognized := [];
                     ls_counter := c |}) as Hshape.
    cbv zeta in Hshape. destruct Hshape as (Hraw & _ & _).
    cbn [ls_filters map app] in Hraw.
    destruct (run_loop_counter c (segments (inputValue st))) as [Hcnt _].
    fold (run_loop (segments (inputValue st)) c) in Hraw.
    cbn [success filters].
    destruct (ls_filters (run_loop (segments (inputValue st)) c))
      as [|f fs] eqn:Ef.
    + exists []. cbn [List.length Nat.ltb Nat.leb fst snd inputValue
                        activeFilters showSuggestions map].
      rewrite app_nil_r. repeat split; try assumption.
    + exists (f :: fs). cbn [List.length Nat.ltb Nat.leb fst snd inputValue
                              activeFilters showSuggestions].
      repeat split; try assumption.
Qed.

End SubmitFacts.

(* ====================================================================== *)
(** * The statistics of the mapper *)
(* ====================================================================== *)

Section PriceStatsFacts.
Import JS Num Mapper MapperAggregates.

Lemma positive_number (p : number) :
  num_gt p (num_of_Z 0) = true -> exists q, p = Fin q /\ (0 < q)%Q.
Proof.
  destruct p as [q|]; [|discriminate]. intros H. exists q.
  split; [reflexivity|]. now apply (num_lt_Fin 0 q).
Qed.

(** In a sorted list the first element is below, and the last above, each
    of the others. *)
Lemma sorted_bounds (A : Type) (R : A -> A -> Prop) (d : A) (l : list A) :
  StronglySorted R l ->
  forall x, In x l ->
    (nth 0 l d = x \/ R (nth 0 l d) x)
    /\ (nth (List.length l - 1) l d = x
        \/ R x (nth (List.length l - 1) l d)).
Proof.
  induction 1 as [|a l Hs IH Hall]; intros x Hin; [contradiction|].
  rewrite Forall_forall in Hall. split.
  - destruct Hin as [->|Hin]; [now left|]. right. now apply Hall.
  - cbn [List.length]. rewrite Nat.sub_1_r. cbn [Nat.pred].
    destruct l as [|b l']; [destruct Hin as [->|[]]; now left|].
    assert (E : nth (List.length (b :: l')) (a :: b :: l') d
                = nth (List.length l') (b :: l') d) by reflexivity.
    rewrite E. clear E.
    destruct Hin as [<-|Hin].
    + right. apply Hall. apply nth_In. cbn [List.length]. lia.
    + destruct (IH x Hin) as [_ IH2].
      replace (List.length (b :: l') - 1)%nat with (List.length l') in IH2
        by (cbn [List.length]; lia).
      exact IH2.
Qed.

(** X19.  When some item has a positive short cost, the minimum and the
    maximum of [calculatePriceStats] are short costs of items, the minimum
    is positive, and every positive short cost lies between the two; the
    count is the number of all items, those without a positive cost
    included. *)
Theorem X19_price_stats_bounds :
  forall (items : list DDCWorkItem) (item : DDCWorkItem) (q : Q),
    In item items -> shortCostOf item = Fin q -> (0 < q)%Q ->
    let stats := calculatePriceStats items in
    ps_count stats = List.length items
    /\ exists lo hi : Q,
         ps_min stats = Fin lo /\ ps_max stats = Fin hi
         /\ (0 < lo)%Q /\ (lo <= q)%Q /\ (q <= hi)%Q
         /\ In (ps_min stats) (map shortCostOf items)
         /\ In (ps_max stats) (map shortCostOf items).
Proof.
  intros items item q Hin Hcost Hq. cbv zeta.
  set (P := fun n : number => exists x, n = Fin x /\ (0 < x)%Q).
  set (R := fun a b : number =>
              exists x y, a = Fin x /\ b = Fin y /\ (x <= y)%Q).
  set (raw := filter (fun p => num_gt p (num_of_Z 0))
                (map shortCostOf items)).
  assert (HP : Forall P raw).
  { apply Forall_forall. intros p Hp. apply filter_In in Hp.
    now apply positive_number. }
  assert (Hsorted : StronglySorted R (sortedPrices items)).
  { unfold sortedPrices. fold raw.
    apply (sort_sorted number compareAscending P R); [| | |exact HP].
    - intros a b c (x & y & -> & -> & Hxy) (y' & z & E & -> & Hyz).
      inversion E; subst. exists x, z. repeat split. lra.
    - intros a b (x & -> & _) (y & -> & _) Hc. exists x, y.
      repeat split. now apply sub_not_positive.
    - intros a b (x & -> & _) (y & -> & _) Hc. exists y, x.
      repeat split. now apply sub_positive. }
  assert (Hperm : Permutation (sortedPrices items) raw)
    by apply sort_perm.
  assert (Hmem : In (Fin q) (sortedPrices items)).
  { apply (Permutation_in _ (Permutation_sym Hperm)). unfold raw.
    apply filter_In. split.
    - rewrite <- Hcost. now apply in_map.
    - now apply (num_lt_Fin 0 q). }
  assert (Hall : forall p, In p (sortedPrices items) ->
                           P p /\ In p (map shortCostOf items)).
  { intros p Hp. apply (Permutation_in _ Hperm) in Hp. split.
    - rewrite Forall_forall in HP. now apply HP.
    - unfold raw in Hp. now apply filter_In in Hp. }
  unfold calculatePriceStats.
  destruct items as [|i0 items0] eqn:Eitems; [contradiction|].
  rewrite <- Eitems in *. clear Eitems.
  destruct (sortedPrices items) as [|p0 ps] eqn:Eprices; [contradiction|].
  cbn [List.length ps_count ps_min ps_max]. split; [reflexivity|].
  unfold at_index.
  destruct (sorted_bounds number R NaN (p0 :: ps) Hsorted (Fin q) Hmem)
    as [Hlo Hhi].
  assert (Hfirst : In (nth 0 (p0 :: ps) NaN) (p0 :: ps))
    by (apply nth_In; cbn [List.length]; lia).
  assert (Hlast : In (nth (List.length (p0 :: ps) - 1) (p0 :: ps) NaN)
                     (p0 :: ps))
    by (apply nth_In; cbn [List.length]; lia).
  destruct (Hall _ Hfirst) as [(lo & Elo & Hlopos) Hlomem].
  destruct (Hall _ Hlast) as [(hi & Ehi & Hhipos) Hhimem].
  cbn [List.length] in *. rewrite Elo, Ehi in *.
  exists lo, hi. repeat split; try assumption.
  - destruct Hlo as [E|(x & y & E1 & E2 & Hxy)].
    + inversion E; subst. lra.
    + inversion E1; inversion E2; subst. exact Hxy.
  - destruct Hhi as [E|(x & y & E1 & E2 & Hxy)].
    + inversion E; subst. lra.
    + inversion E1; inversion E2; subst. exact Hxy.
Qed.

(** The four sample items: the costs 30, 10 and 20 and an item without a
    cost; the item at 20 lies between the minimum 10 and the maximum 30. *)
Lemma X19_price_stats_bounds_witness :
  ps_count (calculatePriceStats MapperScenarios.sample_items) = 4%nat.
Proof.
  apply (X19_price_stats_bounds MapperScenarios.sample_items
           (MapperScenarios.work_item "D" "" (Some 20%Q)) 20%Q).
  - vm_compute. tauto.
  - reflexivity.
  - reflexivity.
Defined.

End PriceStatsFacts.

Section ResourceSummaryFacts.
Import JS Num Mapper MapperAggregates MapperShape.

Lemma summary_fold_counts (items : list DDCRow) (s : Summaries) :
  let s' := fold_left summary_step items s in
  let n t := List.length
               (filter (fun i => ResourceType_eqb (resourceTypeOf i) t)
                  items) in
  snd (s_material s') = (snd (s_material s) + n material)%nat
  /\ snd (s_labor s') = (snd (s_labor s) + n labor)%nat
  /\ snd (s_machine s') = (snd (s_machine s) + n machine)%nat
  /\ snd (s_other s') = (snd (s_other s) + n other)%nat.
Proof.
  cbv zeta. revert s. induction items as [|i items IH]; intros s.
  - cbn [fold_left filter List.length]. repeat split; lia.
  - cbn [fold_left filter]. destruct (IH (summary_step s i)) as (Hm & Hl & Hx & Ho).
    rewrite Hm, Hl, Hx, Ho. unfold summary_step, resourceTypeOf.
    destruct (is_material i); [|destruct (is_labor i);
                                 [|destruct (is_machine i)]];
      cbn [ResourceType_eqb s_material s_labor s_machine s_other bump snd
             List.length]; repeat split; lia.
Qed.

Lemma resource_types_partition (items : list DDCRow) :
  let n t := List.length
               (filter (fun i => ResourceType_eqb (resourceTypeOf i) t)
                  items) in
  (n material + n labor + n machine + n other)%nat = List.length items.
Proof.
  cbv zeta. induction items as [|i items IH]; [reflexivity|].
  cbn [filter]. destruct (resourceTypeOf i);
    cbn [ResourceType_eqb List.length]; lia.
Qed.

(** X20.  The resource summary counts every item exactly once, under the
    first of material, labor and machine whose flag it carries and under
    other when it carries none: an item flagged as material and as labor
    counts as material only.  A type without an item has no entry, no type
    has two entries, and the counts add up to the number of items. *)
Theorem X20_resource_summary_counts :
  forall (items : list DDCRow) (t : ResourceType),
    let out := summarizeByResourceType items in
    countOfType t out
    = List.length
        (filter (fun i => ResourceType_eqb (resourceTypeOf i) t) items)
    /\ Forall (fun e => (0 < rs_count e)%nat) out
    /\ NoDup (map rs_type out)
    /\ list_sum (map rs_count out) = List.length items.
Proof.
  intros items t. cbv zeta.
  pose proof (resource_types_partition items) as Hsum.
  cbv beta zeta in Hsum.
  unfold summarizeByResourceType.
  destruct (summary_fold_counts items
              {| s_material := (num_of_Z 0, 0%nat);
                 s_labor := (num_of_Z 0, 0%nat);
                 s_machine := (num_of_Z 0, 0%nat);
                 s_other := (num_of_Z 0, 0%nat) |}) as (Hm & Hl & Hx & Ho).
  cbv beta in Hm, Hl, Hx, Ho.
  cbn [s_material s_labor s_machine s_other snd Nat.add] in Hm, Hl, Hx, Ho.
  set (s := fold_left summary_step items _) in *.
  destruct (s_material s) as [vm cm]. destruct (s_labor s) as [vl cl].
  destruct (s_machine s) as [vx cx]. destruct (s_other s) as [vo co].
  cbn [snd] in Hm, Hl, Hx, Ho. rewrite <- Hm, <- Hl, <- Hx, <- Ho in Hsum.
  assert (Ht : List.length
                 (filter (fun i => ResourceType_eqb (resourceTypeOf i) t)
                    items)
               = match t with
                 | material => cm | labor => cl | machine => cx
                 | other => co
                 end) by (destruct t; congruence).
  rewrite Ht. rewrite <- Hsum. clear Hm Hl Hx Ho Ht Hsum.
  unfold countOfType.
  destruct cm as [|cm], cl as [|cl], cx as [|cx], co as [|co];
    cbn [filter map fst snd Nat.ltb Nat.leb rs_type rs_count list_sum
           fold_right];
    (split; [destruct t; cbn [filter map ResourceType_eqb rs_type rs_count
                                list_sum fold_right]; lia|]);
    (split; [repeat (apply Forall_cons; [cbn [rs_count]; lia|]);
             apply Forall_nil|]);
    (split; [|lia]);
    repeat (apply NoDup_cons; [cbn [In]; intuition discriminate|]);
    apply NoDup_nil.
Qed.

End ResourceSummaryFacts.

Section AggregateFacts.
Import JS Num Mapper MapperAggregates.

Lemma mapper_categoryOf_not_empty (item : DDCWorkItem) :
  categoryOf item <> [].
Proof.
  unfold categoryOf, or_str, nullish.
  destruct (category_type item) as [[|c cs]|]; discriminate.
Qed.

(** X21.  The category chart data: no category is listed twice and none
    with an empty name, at most [topN] are listed (ten when the limit is
    left out), and the count of a listed category is the number of items of
    that category, an item without a category (null or empty) counting
    under "Other". *)
Theorem X21_aggregate_by_category :
  forall (items : list DDCWorkItem) (topN : option Z),
    (0 <= match topN with Some n => n | None => 10 end)%Z ->
    let out := aggregateByCategory items topN in
    NoDup (map name out)
    /\ (Z.of_nat (List.length out)
        <= match topN with Some n => n | None => 10 end)%Z
    /\ Forall (fun e =>
                 count e
                 = List.length
                     (filter (fun i => str_eqb (categoryOf i) (name e))
                             items)
                 /\ (0 < count e)%nat
                 /\ name e <> [])
              out.
Proof.
  intros items topN Hn out.
  set (limit := match topN with Some n => n | None => 10%Z end) in *.
  set (categoryMap := groupByCategory items).
  set (total := fold_left (fun sum cat => num_add sum (g_value (snd cat)))
                  categoryMap (num_of_Z 0)).
  set (mk := fun e : jsstring * GroupAcc =>
               {| name := fst e;
                  value := g_value (snd e);
                  count := g_count (snd e);
                  percentage :=
                    if num_gt total (num_of_Z 0)
                    then num_mul (num_div (g_value (snd e)) total)
                                 (num_of_Z 100)
                    else num_of_Z 0 |}).
  assert (Eout : out = firstn (Z.to_nat limit)
                         (ParquetReader.sort compareByValue (map mk categoryMap))).
  { subst out. unfold aggregateByCategory. fold categoryMap. fold total.
    fold mk. fold limit. now rewrite slice_top. }
  set (upd := fun (o : option GroupAcc) (item : DDCWorkItem) =>
                {| g_value :=
                     num_add
                       (g_value match o with
                                | Some e => e
                                | None => {| g_value := num_of_Z 0;
                                             g_count := 0 |}
                                end) (costOf item);
                   g_count :=
                     g_count match o with
                             | Some e => e
                             | None => {| g_value := num_of_Z 0;
                                          g_count := 0 |}
                             end + 1 |}).
  assert (Hstep : forall m a,
             group_step m a
             = match Some (categoryOf a) with
               | Some k => JSMap.set k (upd (JSMap.get k m) a) m
               | None => m
               end) by reflexivity.
  assert (Hkeys : NoDup (JSMap.keys categoryMap)).
  { apply (fold_keys_NoDup GroupAcc DDCWorkItem
             (fun i => Some (categoryOf i)) upd group_step Hstep).
    constructor. }
  assert (Hperm : Permutation (ParquetReader.sort compareByValue (map mk categoryMap))
                              (map mk categoryMap)) by apply sort_perm.
  rewrite Eout. split; [|split].
  - rewrite <- firstn_map. apply take_NoDup.
    apply (Permutation_NoDup (l := map name (map mk categoryMap))).
    + symmetry. now apply Permutation_map.
    + rewrite map_map. exact Hkeys.
  - rewrite length_firstn. lia.
  - apply Forall_forall. intros e He. apply take_In in He.
    apply (Permutation_in _ Hperm) in He.
    apply in_map_iff in He. destruct He as [[k acc] [<- Hin]].
    cbn [mk name count fst snd].
    pose proof (In_get GroupAcc k acc categoryMap Hkeys Hin) as Hget.
    pose proof (fold_count GroupAcc DDCWorkItem
                  (fun i => Some (categoryOf i)) g_count upd group_step)
      as Hcount.
    assert (Hcnt : forall o a,
               g_count (upd o a)
               = S match o with Some v => g_count v | None => 0 end).
    { intros o a. unfold upd. cbn [g_count]. destruct o; cbn [g_count]; lia. }
    specialize (Hcount Hcnt Hstep items [] k).
    fold (groupByCategory items) in Hcount. fold categoryMap in Hcount.
    rewrite Hget in Hcount. cbn [JSMap.get Nat.add] in Hcount.
    assert (Hk : In k (JSMap.keys categoryMap)).
    { change k with (fst (k, acc)). now apply in_map. }
    apply (fold_keys_origin GroupAcc DDCWorkItem
             (fun i => Some (categoryOf i)) upd group_step Hstep) in Hk.
    destruct Hk as [[]|[item [Hitem Hcat]]].
    assert (Hcat' : categoryOf item = k) by congruence.
    split; [exact Hcount|]. split.
    + rewrite Hcount.
      assert (Hin' : In item (filter (fun a => str_eqb (categoryOf a) k)
                                     items)).
      { apply filter_In. split; [assumption|].
        rewrite Hcat'. apply str_eqb_refl. }
      destruct (filter (fun a => str_eqb (categoryOf a) k) items);
        [contradiction | simpl; lia].
    + rewrite <- Hcat'. apply mapper_categoryOf_not_empty.
Qed.

(** The four sample items with a limit of two: concrete (two items) and
    one of steel and "Other". *)
Lemma X21_aggregate_by_category_witness :
  (Z.of_nat
     (List.length
        (aggregateByCategory MapperScenarios.sample_items (Some 2%Z)))
   <= 2)%Z.
Proof.
  apply (X21_aggregate_by_category MapperScenarios.sample_items (Some 2%Z)).
  lia.
Defined.

End AggregateFacts.

Section LookupFacts.
Import JS Num Mapper MapperAggregates.

Lemma find_snoc (A : Type) (p : A -> bool) (l : list A) (a : A) :
  find p (l ++ [a])
  = match find p l with
    | Some x => Some x
    | None => if p a then Some a else None
    end.
Proof.
  induction l as [|x l IH]; simpl; [reflexivity|].
  destruct (p x); [reflexivity | exact IH].
Qed.

Lemma lookup_fold (items : list DDCWorkItem) (m : JSMap.t DDCWorkItem)
      (code : jsstring) :
  let step := fun (m : JSMap.t DDCWorkItem) (item : DDCWorkItem) =>
                match rate_code item with
                | Some (c :: code) => JSMap.set (c :: code) item m
                | _ => m
                end in
  let carries := fun item : DDCWorkItem =>
                   match rate_code item with
                   | Some c => str_eqb c code
                   | None => false
                   end in
  JSMap.get code (fold_left step items m)
  = match code with
    | [] => JSMap.get [] m
    | _ :: _ =>
        match find carries (rev items) with
        | Some item => Some item
        | None => JSMap.get code m
        end
    end
  /\ (NoDup (JSMap.keys m) -> NoDup (JSMap.keys (fold_left step items m))).
Proof.
  cbv zeta. revert m. induction items as [|a l IH]; intros m.
  - cbn [fold_left rev find]. split; [now destruct code | tauto].
  - cbn [fold_left rev]. destruct (IH (match rate_code a with
                                       | Some (c :: code0) =>
                                           JSMap.set (c :: code0) a m
                                       | _ => m
                                       end)) as [IHget IHnd].
    split.
    + rewrite IHget. destruct code as [|x code'].
      * destruct (rate_code a) as [[|c cs]|]; try reflexivity.
        apply get_set_other. discriminate.
      * rewrite find_snoc.
        destruct (find _ (rev l)) as [i|]; [reflexivity|].
        destruct (rate_code a) as [[|c cs]|]; try reflexivity.
        destruct (str_eqb (c :: cs) (x :: code')) eqn:E.
        -- apply str_eqb_true in E. rewrite E. apply get_set_same.
        -- apply str_eqb_false in E. now apply get_set_other.
    + intros Hnd. apply IHnd.
      destruct (rate_code a) as [[|c cs]|]; try assumption.
      now apply keys_set_NoDup.
Qed.

(** X22.  The lookup by rate code returns, for a code, the last item of the
    list that carries it: a later item with the same code replaces the
    earlier one.  Items without a code, or with the empty code, are not in
    the lookup, so the empty code finds nothing; and no code is a key
    twice. *)
Theorem X22_rate_code_lookup :
  forall (items : list DDCWorkItem) (code : jsstring),
    JSMap.get code (createRateCodeLookup items)
    = match code with
      | [] => None
      | _ :: _ =>
          find (fun item => match rate_code item with
                            | Some c => str_eqb c code
                            | None => false
                            end)
               (rev items)
      end
    /\ NoDup (JSMap.keys (createRateCodeLookup items)).
Proof.
  intros items code. unfold createRateCodeLookup.
  destruct (lookup_fold items [] code) as [Hget Hnd]. split.
  - rewrite Hget. destruct code as [|x code']; [reflexivity|].
    cbn [JSMap.get]. now destruct (find _ (rev items)).
  - apply Hnd. constructor.
Qed.

(** X23.  A filter state that restricts nothing keeps every item, in
    order: a list of wanted values that is left out or empty, a price range
    that is left out or has neither bound, flags that are left out and a
    search text that is left out or empty do not filter. *)
Theorem X23_blank_filters_keep_everything :
  forall (items : list DDCRow) (filters : FilterState),
    (categoryTypes filters = None \/ categoryTypes filters = Some []) ->
    (collectionCodes filters = None \/ collectionCodes filters = Some []) ->
    (departmentCodes filters = None \/ departmentCodes filters = Some []) ->
    (priceRange filters = None \/ priceRange filters = Some (None, None)) ->
    isMaterial filters = None -> isLabor filters = None ->
    isMachine filters = None ->
    (searchQuery filters = None \/ searchQuery filters = Some []) ->
    filterWorkItems items filters = items.
Proof.
  intros items filters Hc Hl Hd Hp Hm Hb Hx Hs. unfold filterWorkItems.
  rewrite <- (filter_true _ items) at 2. apply filter_ext. intros item.
  unfold keeps. rewrite Hm, Hb, Hx.
  destruct Hc as [-> | ->], Hl as [-> | ->], Hd as [-> | ->],
    Hp as [-> | ->], Hs as [-> | ->]; reflexivity.
Qed.

(** The state with empty lists, an unbounded range and an empty search. *)
Lemma X23_blank_filters_keep_everything_witness :
  filterWorkItems MapperScenarios.sample_rows
    {| categoryTypes := Some []; collectionCodes := Some [];
       departmentCodes := None; priceRange := Some (None, None);
       isMaterial := None; isLabor := None; isMachine := None;
       searchQuery := Some [] |}
  = MapperScenarios.sample_rows.
Proof.
  apply X23_blank_filters_keep_everything; cbn; auto.
Defined.

End LookupFacts.

(* ====================================================================== *)
(** * Keyboard focus and selection of the table *)
(* ====================================================================== *)

Section InteractionFacts.
Import JS DataTableInteraction.
Local Open Scope Z_scope.

Lemma filter_NoDup (A : Type) (p : A -> bool) (l : list A) :
  NoDup l -> NoDup (filter p l).
Proof.
  induction 1 as [|x l Hx Hnd IH]; simpl; [constructor|].
  destruct (p x); [|assumption]. constructor; [|assumption].
  intros Hin. apply filter_In in Hin. tauto.
Qed.

Lemma existsb_str_eqb (x : jsstring) (l : list jsstring) :
  existsb (str_eqb x) l = true <-> In x l.
Proof.
  rewrite existsb_exists. split.
  - intros [y [Hy E]]. apply str_eqb_true in E. now subst.
  - intros H. exists x. split; [assumption | apply str_eqb_refl].
Qed.

Lemma toggleId_invariant (rowId : jsstring) (selected rowIds : list jsstring) :
  In rowId rowIds -> NoDup selected -> incl selected rowIds ->
  NoDup (toggleId rowId selected) /\ incl (toggleId rowId selected) rowIds.
Proof.
  intros Hin Hnd Hincl. unfold toggleId.
  destruct (existsb (str_eqb rowId) selected) eqn:E.
  - split; [now apply filter_NoDup|].
    intros x Hx. apply filter_In in Hx. now apply Hincl.
  - split.
    + apply NoDup_rev in Hnd. rewrite <- (rev_involutive (_ ++ [rowId])).
      apply NoDup_rev. rewrite rev_app_distr. cbn [rev app].
      constructor; [|assumption]. rewrite <- in_rev. intros Hsel.
      apply existsb_str_eqb in Hsel. congruence.
    + intros x Hx. apply in_app_or in Hx.
      destruct Hx as [Hx|[<-|[]]]; [now apply Hincl | assumption].
Qed.

Lemma handleKeyDown_invariant (enableSelection : bool)
      (rowIds : list jsstring) (key : Key) (st : TableFocus) :
  let ok := fun s : TableFocus =>
              -1 <= focusedRowIndex s <= Z.of_nat (List.length rowIds) - 1
              /\ NoDup (selectedRowIds s)
              /\ incl (selectedRowIds s) rowIds in
  ok st -> ok (handleKeyDown enableSelection rowIds key st).
Proof.
  cbv zeta. intros (Hf & Hnd & Hincl). unfold handleKeyDown.
  destruct (Z.of_nat (List.length rowIds) =? 0) eqn:E0; [now repeat split|].
  apply Z.eqb_neq in E0.
  assert (Hkeep : forall s : TableFocus,
             s = st ->
             -1 <= focusedRowIndex s <= Z.of_nat (List.length rowIds) - 1
             /\ NoDup (selectedRowIds s) /\ incl (selectedRowIds s) rowIds).
  { intros s ->. now repeat split. }
  assert (Hclick :
            -1 <= focusedRowIndex
                    (if (0 <=? focusedRowIndex st)
                        && (focusedRowIndex st
                            <? Z.of_nat (List.length rowIds))
                     then match nth_error rowIds
                                  (Z.to_nat (focusedRowIndex st)) with
                          | Some rowId =>
                              handleRowClick enableSelection rowId st
                          | None => st
                          end
                     else st)
            <= Z.of_nat (List.length rowIds) - 1
            /\ NoDup (selectedRowIds
                        (if (0 <=? focusedRowIndex st)
                            && (focusedRowIndex st
                                <? Z.of_nat (List.length rowIds))
                         then match nth_error rowIds
                                      (Z.to_nat (focusedRowIndex st)) with
                              | Some rowId =>
                                  handleRowClick enableSelection rowId st
                              | None => st
                              end
                         else st))
            /\ incl (selectedRowIds
                       (if (0 <=? focusedRowIndex st)
                           && (focusedRowIndex st
                               <? Z.of_nat (List.length rowIds))
                        then match nth_error rowIds
                                     (Z.to_nat (focusedRowIndex st)) with
                             | Some rowId =>
                                 handleRowClick enableSelection rowId st
                             | None => st
                             end
                        else st)) rowIds).
  { destruct ((0 <=? focusedRowIndex st)
              && (focusedRowIndex st <? Z.of_nat (List.length rowIds)));
      [|now apply Hkeep].
    destruct (nth_error rowIds (Z.to_nat (focusedRowIndex st)))
      as [rowId|] eqn:En; [|now apply Hkeep].
    apply nth_error_In in En. unfold handleRowClick.
    destruct enableSelection; [|now apply Hkeep].
    cbn [focusedRowIndex selectedRowIds].
    destruct (toggleId_invariant rowId (selectedRowIds st) rowIds En Hnd
                Hincl) as [H1 H2].
    now repeat split. }
  destruct key; cbn [focusedRowIndex selectedRowIds];
    try exact Hclick; try (now apply Hkeep);
    (split; [lia|]); split; try assumption; try constructor.
  intros x [].
Qed.

(** X24.  Whatever keys are pressed on a table whose rows stay the same,
    the focused row index stays between -1 (no focus) and the index of the
    last row, so Enter and Space never act on a row that is not there; the
    selection never holds an id twice and holds ids of rows only. *)
Theorem X24_keyboard_focus_stays_in_range :
  forall (enableSelection : bool) (rowIds : list jsstring)
         (keys : list Key) (st : TableFocus),
    -1 <= focusedRowIndex st <= Z.of_nat (List.length rowIds) - 1 ->
    NoDup (selectedRowIds st) ->
    incl (selectedRowIds st) rowIds ->
    let st' := pressKeys enableSelection rowIds keys st in
    -1 <= focusedRowIndex st' <= Z.of_nat (List.length rowIds) - 1
    /\ NoDup (selectedRowIds st')
    /\ incl (selectedRowIds st') rowIds.
Proof.
  intros sel rowIds keys. unfold pressKeys.
  induction keys as [|k keys IH]; intros st Hf Hnd Hincl.
  - cbn [fold_left]. now repeat split.
  - cbn [fold_left].
    destruct (handleKeyDown_invariant sel rowIds k st
                (conj Hf (conj Hnd Hincl))) as (Hf' & Hnd' & Hincl').
    now apply IH.
Qed.

(** From no focus and no selection on two rows: down, down, down, space. *)
Lemma X24_keyboard_focus_stays_in_range_witness :
  -1 <= focusedRowIndex
          (pressKeys true [u "a"; u "b"]
             [ARROW_DOWN; ARROW_DOWN; ARROW_DOWN; SPACE]
             {| focusedRowIndex := -1; selectedRowIds := [] |})
  <= 1.
Proof.
  apply (X24_keyboard_focus_stays_in_range true [u "a"; u "b"]
           [ARROW_DOWN; ARROW_DOWN; ARROW_DOWN; SPACE]
           {| focusedRowIndex := -1; selectedRowIds := [] |}).
  - cbn. lia.
  - constructor.
  - intros x [].
Defined.

Lemma filter_other_absent (x : jsstring) (l : list jsstring) :
  ~ In x l -> filter (fun y => negb (str_eqb y x)) l = l.
Proof.
  intros Hx. induction l as [|y l IH]; [reflexivity|]. cbn [filter].
  destruct (str_eqb y x) eqn:E.
  - apply str_eqb_true in E. subst. exfalso. apply Hx. now left.
  - cbn [negb]. rewrite IH; [reflexivity|]. intros H. apply Hx. now right.
Qed.

Lemma filter_other_perm (x : jsstring) (l : list jsstring) :
  NoDup l -> In x l ->
  Permutation (filter (fun y => negb (str_eqb y x)) l ++ [x]) l.
Proof.
  induction 1 as [|y l Hy Hnd IH]; intros Hin; [contradiction|].
  cbn [filter]. destruct (str_eqb y x) eqn:E.
  - apply str_eqb_true in E. subst y. cbn [negb].
    rewrite filter_other_absent by assumption.
    rewrite Permutation_app_comm. reflexivity.
  - cbn [negb app]. constructor. apply IH.
    destruct Hin as [->|Hin]; [|assumption].
    rewrite str_eqb_refl in E. discriminate.
Qed.

(** X25.  Clicking a row twice restores the selection: exactly, when the
    row was not selected before; with the row moved to the end of the
    selection, the same ids otherwise. *)
Theorem X25_click_twice_restores_selection :
  forall (rowId : jsstring) (st : TableFocus),
    NoDup (selectedRowIds st) ->
    let twice := handleRowClick true rowId (handleRowClick true rowId st) in
    focusedRowIndex twice = focusedRowIndex st
    /\ Permutation (selectedRowIds twice) (selectedRowIds st)
    /\ selectedRowIds twice
       = if existsb (str_eqb rowId) (selectedRowIds st)
         then filter (fun y => negb (str_eqb y rowId)) (selectedRowIds st)
              ++ [rowId]
         else selectedRowIds st.
Proof.
  intros rowId st Hnd. cbv zeta. unfold handleRowClick.
  cbn [focusedRowIndex selectedRowIds]. split; [reflexivity|].
  assert (E : toggleId rowId (toggleId rowId (selectedRowIds st))
              = if existsb (str_eqb rowId) (selectedRowIds st)
                then filter (fun y => negb (str_eqb y rowId))
                       (selectedRowIds st) ++ [rowId]
                else selectedRowIds st).
  { unfold toggleId at 2.
    destruct (existsb (str_eqb rowId) (selectedRowIds st)) eqn:Ex.
    - unfold toggleId.
      destruct (existsb (str_eqb rowId)
                  (filter (fun x => negb (str_eqb x rowId))
                     (selectedRowIds st))) eqn:Ex2; [|reflexivity].
      apply existsb_str_eqb in Ex2. apply filter_In in Ex2.
      destruct Ex2 as [_ Hne]. rewrite str_eqb_refl in Hne. discriminate.
    - unfold toggleId.
      assert (Ex2 : existsb (str_eqb rowId) (selectedRowIds st ++ [rowId])
                    = true).
      { apply existsb_str_eqb. apply in_or_app. right. now left. }
      rewrite Ex2. rewrite filter_app. cbn [filter].
      rewrite str_eqb_refl. cbn [negb]. rewrite app_nil_r.
      apply filter_other_absent. intros Hin.
      apply existsb_str_eqb in Hin. congruence. }
  split; [|exact E].
  rewrite E. destruct (existsb (str_eqb rowId) (selectedRowIds st)) eqn:Ex;
    [|reflexivity].
  apply filter_other_perm; [assumption|]. now apply existsb_str_eqb.
Qed.

(** The selection a, b and two clicks on a: b, a. *)
Lemma X25_click_twice_restores_selection_witness :
  selectedRowIds
    (handleRowClick true (u "a")
       (handleRowClick true (u "a")
          {| focusedRowIndex := 0; selectedRowIds := [u "a"; u "b"] |}))
  = [u "b"; u "a"].
Proof.
  apply (X25_click_twice_restores_selection (u "a")
           {| focusedRowIndex := 0; selectedRowIds := [u "a"; u "b"] |}).
  repeat constructor; cbn; intuition discriminate.
Defined.

End InteractionFacts.

(* ====================================================================== *)
(** * The text fields of mapped rows *)
(* ====================================================================== *)

Section BatchFacts.
Import JS Mapper.
Context {rt : Runtime}.

Lemma nth_error_indexed (A B : Type) (f : nat -> A -> B) (l : list A)
      (s i : nat) :
  nth_error (map (fun ix => f (fst ix) (snd ix))
               (combine (seq s (List.length l)) l)) i
  = option_map (f (s + i)%nat) (nth_error l i).
Proof.
  revert s i. induction l as [|x l IH]; intros s i.
  - now destruct i.
  - destruct i as [|i]; cbn [List.length seq combine map nth_error option_map
                              fst snd].
    + now rewrite Nat.add_0_r.
    + rewrite IH. now rewrite Nat.add_succ_r.
Qed.

Lemma or_str_not_empty (a b : option jsstring) :
  b <> Some [] -> or_str a b <> Some [].
Proof.
  intros Hb. unfold or_str. destruct a as [[|c cs]|]; try assumption.
  discriminate.
Qed.

Lemma text_or_default (a : option jsstring) (d : jsstring) :
  a <> Some [] -> d <> [] -> nullish a d <> [].
Proof.
  intros Ha Hd. destruct a as [[|c cs]|]; cbn [nullish];
    [now elim Ha | discriminate | assumption].
Qed.

(** X26.  The batch mapper returns one item per row, in the order of the
    rows, the item at a position being the row at that position mapped with
    that position as its index.  No item has an empty id, description or
    unit: an empty text in the row counts as missing and the next choice or
    the default takes its place; and the category of an item is never the
    empty text. *)
Theorem X26_batch_items_have_their_texts :
  forall (rows : list DDCWorkItem) (i : nat),
    let out := mapBatchToConstructionItems rows in
    List.length out = List.length rows
    /\ nth_error out i
       = option_map (fun row => mapToConstructionItem row (N.of_nat i))
           (nth_error rows i)
    /\ Forall (fun item =>
                 id item <> [] /\ descripcion item <> []
                 /\ unidad item <> [] /\ categoria item <> Some [])
              out.
Proof.
  intros rows i. cbv zeta. unfold mapBatchToConstructionItems.
  split; [|split].
  - rewrite length_map, length_combine, length_seq. lia.
  - exact (nth_error_indexed DDCWorkItem ConstructionItem
             (fun k row => mapToConstructionItem row (N.of_nat k))
             rows 0 i).
  - apply Forall_forall. intros item Hitem.
    apply in_map_iff in Hitem. destruct Hitem as [[k row] [<- _]].
    cbn [fst snd]. unfold mapToConstructionItem.
    cbn [id descripcion unidad categoria].
    assert (Hnone : @None jsstring <> Some []) by discriminate.
    repeat split.
    + apply text_or_default; [now apply or_str_not_empty | discriminate].
    + apply text_or_default; [|discriminate].
      apply or_str_not_empty. now apply or_str_not_empty.
    + apply text_or_default; [|discriminate].
      apply or_str_not_empty. now apply or_str_not_empty.
    + apply or_str_not_empty. now apply or_str_not_empty.
Qed.

End BatchFacts.
